(** * VideoTracker: a shallow embedding of [src/videotracker.js]

    The tracker of the repository is a JavaScript class [VideoTracker]
    that extends [Tracker] and owns a [TrackerState].  Only
    [videotracker.js] (and the re-exporting [index.js]) are present in the
    source tree; [Tracker], [TrackerState], [Chrono], [Emitter] and [Log]
    are imported from sibling modules whose code is absent.  The methods of
    [VideoTracker] below are translated from the source text, line by line;
    the imported collaborators are modelled from the specification and each
    such definition says so in its doc comment.  Left out are the listener
    hooks, which are empty, the getters of player data, of which only the
    rendition bitrate is kept, and [getAttributes], which no method of the
    file calls.

    Conventions.
    - JavaScript numbers are modelled by [Z]: times are milliseconds and
      bitrates are integers.
    - Trackers are mutable objects that refer to each other
      ([parentTracker], [adsTracker]), so they live in a store indexed by
      references; a method of the class becomes a function on the whole
      [World] that takes the reference of [this].
    - [this.send] may re-enter other trackers through the funnel listener,
      and [dispose] walks the chain of ads trackers, therefore the functions
      that can reach them take fuel and return [option]: [None] stands for a
      call that does not return normally (or, in the model only, for a
      reference that names no tracker). *)

From Stdlib Require Import ZArith NArith Bool String Ascii List Lia.
From stdpp Require Import base option gmap strings list fin_maps.

Local Open Scope string_scope.
Local Open Scope list_scope.
Local Open Scope Z_scope.

(** ** JavaScript values carried by attribute bags *)

Module Js.

Inductive JsVal : Type :=
| JUndefined
| JNull
| JBool (b : bool)
| JNum (n : Z)
| JStr (s : string).

#[global] Instance JsVal_eq_dec : EqDecision JsVal.
Proof. solve_decision. Defined.

(** [!v] is true for the falsy values: undefined, null, false, 0 and the
    empty string. *)
Definition truthy (v : JsVal) : bool :=
  match v with
  | JUndefined | JNull => false
  | JBool b => b
  | JNum n => negb (n =? 0)
  | JStr s => negb (String.eqb s "")
  end.

(** [v == undefined] and [v != null] are the loose comparisons: null and
    undefined are equal to each other and to nothing else. *)
Definition is_nullish (v : JsVal) : bool :=
  match v with
  | JUndefined | JNull => true
  | _ => false
  end.

Definition digit_of (c : ascii) : option Z :=
  let n := Z.of_nat (nat_of_ascii c) in
  if (48 <=? n) && (n <=? 57) then Some (n - 48) else None.

Fixpoint digits_value (acc : Z) (s : string) : option Z :=
  match s with
  | EmptyString => Some acc
  | String c rest =>
      match digit_of c with
      | Some d => digits_value (10 * acc + d) rest
      | None => None
      end
  end.

(** ToNumber restricted to the integers of the model; [None] is NaN.  A
    string converts when it is empty or an optionally signed run of
    decimal digits. *)
Definition to_number (v : JsVal) : option Z :=
  match v with
  | JUndefined => None
  | JNull => Some 0
  | JBool b => Some (if b then 1 else 0)
  | JNum n => Some n
  | JStr EmptyString => Some 0
  | JStr (String "-"%char (String c rest)) => Z.opp <$> digits_value 0 (String c rest)
  | JStr s => digits_value 0 s
  end.

(** [v < k] for a numeric literal [k]: false when [v] converts to NaN. *)
Definition lt_num (v : JsVal) (k : Z) : bool :=
  match to_number v with
  | Some n => n <? k
  | None => false
  end.

(** An attribute bag is a plain object used as a map from keys to values. *)
Abbreviation Bag := (gmap string JsVal).

(** Property read: a missing key reads as undefined. *)
Definition get (att : Bag) (k : string) : JsVal := default JUndefined (att !! k).

(** [att = att || {}] on an optional argument. *)
Definition or_empty (att : option Bag) : Bag := default ∅ att.

End Js.
Import Js.

(** ** Chrono and TrackerState *)

(** References to tracker objects. *)
Abbreviation ref := nat.

(** Modelled from the spec: the Chrono class ([./chrono] is imported by the
    sources but absent).  A stopwatch holds the instant of its last mark
    (its construction when never marked), read from a monotonic clock;
    [elapsed] is the time since that instant.  The source reads a chrono
    with [getDeltaTime()]. *)
Module Chrono.

Record t : Type := Make { markedAt : Z }.

#[global] Instance eq_dec : EqDecision t.
Proof. solve_decision. Defined.

(** Modelled from the spec: [mark], [elapsed] and the [getDeltaTime] that
    the source calls. *)
Definition mark (now : Z) : t := Make now.
Definition elapsed (now : Z) (c : t) : Z := now - markedAt c.
Definition getDeltaTime (now : Z) (c : t) : Z := elapsed now c.

End Chrono.

(** Modelled from the spec: the phases of the state machine of section 4.2,
    [IDLE -> READY -> REQUESTED -> STARTED <-> {PLAYING, PAUSED, BUFFERING,
    SEEKING} -> ENDED]. *)
Inductive PlaybackPhase : Type :=
| IDLE | READY | REQUESTED | STARTED | PLAYING | PAUSED | BUFFERING | SEEKING
| ENDED.

#[global] Instance PlaybackPhase_eq_dec : EqDecision PlaybackPhase.
Proof. solve_decision. Defined.

(** A session id is a timestamp combined with a random component; a view id
    is the session id with the number of the view. *)
Definition SessionId : Type := Z * N.
Definition ViewId : Type := SessionId * N.

(** Modelled from the spec: the TrackerState class ([./videotrackerstate]
    is imported by the sources but absent).  The record has the phase of
    the state machine, the fields that [videotracker.js] reads or assigns
    directly ([isStarted], [isPlaying], [initialBufferingHappened],
    [totalPlaytime], [totalAdPlaytime]) and the chronos it reads, kept
    under the name of the property that holds them
    ([state.timeSinceRequested] is [chronos !! "timeSinceRequested"]). *)
Record TrackerState : Type := MkState {
  st_isAd : bool;
  phase : PlaybackPhase;
  bufferReturn : PlaybackPhase;
  seekReturn : PlaybackPhase;
  isStarted : bool;
  isPlaying : bool;
  isAdBreak : bool;
  initialBufferingHappened : bool;
  totalPlaytime : Z;
  totalAdPlaytime : Z;
  viewSession : option SessionId;
  viewCount : N;
  numberOfAds : N;
  createdAt : Z;
  chronos : gmap string Chrono.t
}.

#[global] Instance TrackerState_eq_dec : EqDecision TrackerState.
Proof. solve_decision. Defined.

Module TrackerState.

(** Modelled from the spec: a state as the constructor of TrackerState
    leaves it, and the assignments to its fields. *)
Definition new (now : Z) : TrackerState :=
  {| st_isAd := false; phase := IDLE; bufferReturn := IDLE; seekReturn := IDLE;
     isStarted := false; isPlaying := false; isAdBreak := false;
     initialBufferingHappened := false; totalPlaytime := 0;
     totalAdPlaytime := 0; viewSession := None; viewCount := 0%N;
     numberOfAds := 0%N; createdAt := now; chronos := ∅ |}.

Definition set_isAd (b : bool) (s : TrackerState) : TrackerState :=
  MkState b (phase s) (bufferReturn s) (seekReturn s) (isStarted s)
    (isPlaying s) (isAdBreak s) (initialBufferingHappened s) (totalPlaytime s)
    (totalAdPlaytime s) (viewSession s) (viewCount s) (numberOfAds s)
    (createdAt s) (chronos s).

Definition set_phase (p : PlaybackPhase) (s : TrackerState) : TrackerState :=
  MkState (st_isAd s) p (bufferReturn s) (seekReturn s) (isStarted s)
    (isPlaying s) (isAdBreak s) (initialBufferingHappened s) (totalPlaytime s)
    (totalAdPlaytime s) (viewSession s) (viewCount s) (numberOfAds s)
    (createdAt s) (chronos s).

Definition set_bufferReturn (p : PlaybackPhase) (s : TrackerState) : TrackerState :=
  MkState (st_isAd s) (phase s) p (seekReturn s) (isStarted s)
    (isPlaying s) (isAdBreak s) (initialBufferingHappened s) (totalPlaytime s)
    (totalAdPlaytime s) (viewSession s) (viewCount s) (numberOfAds s)
    (createdAt s) (chronos s).

Definition set_seekReturn (p : PlaybackPhase) (s : TrackerState) : TrackerState :=
  MkState (st_isAd s) (phase s) (bufferReturn s) p (isStarted s)
    (isPlaying s) (isAdBreak s) (initialBufferingHappened s) (totalPlaytime s)
    (totalAdPlaytime s) (viewSession s) (viewCount s) (numberOfAds s)
    (createdAt s) (chronos s).

Definition set_isStarted (b : bool) (s : TrackerState) : TrackerState :=
  MkState (st_isAd s) (phase s) (bufferReturn s) (seekReturn s) b
    (isPlaying s) (isAdBreak s) (initialBufferingHappened s) (totalPlaytime s)
    (totalAdPlaytime s) (viewSession s) (viewCount s) (numberOfAds s)
    (createdAt s) (chronos s).

Definition set_isPlaying (b : bool) (s : TrackerState) : TrackerState :=
  MkState (st_isAd s) (phase s) (bufferReturn s) (seekReturn s) (isStarted s)
    b (isAdBreak s) (initialBufferingHappened s) (totalPlaytime s)
    (totalAdPlaytime s) (viewSession s) (viewCount s) (numberOfAds s)
    (createdAt s) (chronos s).

Definition set_isAdBreak (b : bool) (s : TrackerState) : TrackerState :=
  MkState (st_isAd s) (phase s) (bufferReturn s) (seekReturn s) (isStarted s)
    (isPlaying s) b (initialBufferingHappened s) (totalPlaytime s)
    (totalAdPlaytime s) (viewSession s) (viewCount s) (numberOfAds s)
    (createdAt s) (chronos s).

Definition set_initialBufferingHappened (b : bool) (s : TrackerState)
  : TrackerState :=
  MkState (st_isAd s) (phase s) (bufferReturn s) (seekReturn s) (isStarted s)
    (isPlaying s) (isAdBreak s) b (totalPlaytime s)
    (totalAdPlaytime s) (viewSession s) (viewCount s) (numberOfAds s)
    (createdAt s) (chronos s).

Definition set_totalPlaytime (n : Z) (s : TrackerState) : TrackerState :=
  MkState (st_isAd s) (phase s) (bufferReturn s) (seekReturn s) (isStarted s)
    (isPlaying s) (isAdBreak s) (initialBufferingHappened s) n
    (totalAdPlaytime s) (viewSession s) (viewCount s) (numberOfAds s)
    (createdAt s) (chronos s).

Definition set_totalAdPlaytime (n : Z) (s : TrackerState) : TrackerState :=
  MkState (st_isAd s) (phase s) (bufferReturn s) (seekReturn s) (isStarted s)
    (isPlaying s) (isAdBreak s) (initialBufferingHappened s) (totalPlaytime s)
    n (viewSession s) (viewCount s) (numberOfAds s)
    (createdAt s) (chronos s).

Definition set_viewSession (v : option SessionId) (s : TrackerState)
  : TrackerState :=
  MkState (st_isAd s) (phase s) (bufferReturn s) (seekReturn s) (isStarted s)
    (isPlaying s) (isAdBreak s) (initialBufferingHappened s) (totalPlaytime s)
    (totalAdPlaytime s) v (viewCount s) (numberOfAds s)
    (createdAt s) (chronos s).

Definition set_viewCount (n : N) (s : TrackerState) : TrackerState :=
  MkState (st_isAd s) (phase s) (bufferReturn s) (seekReturn s) (isStarted s)
    (isPlaying s) (isAdBreak s) (initialBufferingHappened s) (totalPlaytime s)
    (totalAdPlaytime s) (viewSession s) n (numberOfAds s)
    (createdAt s) (chronos s).

Definition set_numberOfAds (n : N) (s : TrackerState) : TrackerState :=
  MkState (st_isAd s) (phase s) (bufferReturn s) (seekReturn s) (isStarted s)
    (isPlaying s) (isAdBreak s) (initialBufferingHappened s) (totalPlaytime s)
    (totalAdPlaytime s) (viewSession s) (viewCount s) n
    (createdAt s) (chronos s).

Definition set_chronos (c : gmap string Chrono.t) (s : TrackerState)
  : TrackerState :=
  MkState (st_isAd s) (phase s) (bufferReturn s) (seekReturn s) (isStarted s)
    (isPlaying s) (isAdBreak s) (initialBufferingHappened s) (totalPlaytime s)
    (totalAdPlaytime s) (viewSession s) (viewCount s) (numberOfAds s)
    (createdAt s) c.

(** Modelled from the spec: the chrono stored under a property name; one
    that was never marked still holds the instant of construction. *)
Definition chrono (name : string) (s : TrackerState) : Chrono.t :=
  default (Chrono.Make (createdAt s)) (chronos s !! name).

(** Modelled from the spec: [markChrono] of TrackerState. *)
Definition markChrono (name : string) (now : Z) (s : TrackerState)
  : TrackerState :=
  set_chronos (<[name := Chrono.mark now]> (chronos s)) s.

(** Modelled from the spec: [isAd] of TrackerState. *)
Definition isAd (s : TrackerState) : bool := st_isAd s.
(** Modelled from the spec: [setIsAd] of TrackerState. *)
Definition setIsAd (b : bool) (s : TrackerState) : TrackerState := set_isAd b s.

(** Modelled from the spec: the [isRequested] predicate: the phase has
    passed [REQUESTED] and the view has not ended. *)
Definition isRequested (s : TrackerState) : bool :=
  match phase s with
  | REQUESTED | STARTED | PLAYING | PAUSED | BUFFERING | SEEKING => true
  | IDLE | READY | ENDED => false
  end.

(** Modelled from the spec: entering a phase.  The specification keeps an
    "is playing" flag next to the phase (the source assigns it from the ads
    tracker); here the flag follows the phase until it is assigned. *)
Definition enter (p : PlaybackPhase) (s : TrackerState) : TrackerState :=
  set_isPlaying (bool_decide (p = PLAYING)) (set_phase p s).

(** Modelled from the spec: the session id is generated on first access and
    kept afterwards. *)
Definition getViewSession (now : Z) (rnd : N) (s : TrackerState)
  : SessionId * TrackerState :=
  match viewSession s with
  | Some v => (v, s)
  | None => ((now, rnd), set_viewSession (Some (now, rnd)) s)
  end.

(** Modelled from the spec: [getViewId] of TrackerState. *)
Definition getViewId (now : Z) (rnd : N) (s : TrackerState)
  : ViewId * TrackerState :=
  let '(v, s') := getViewSession now rnd s in ((v, viewCount s'), s').

(** Modelled from the spec: [goViewCountUp] issues the next view id; the new
    view has had no buffering yet. *)
Definition goViewCountUp (s : TrackerState) : TrackerState :=
  set_viewCount (viewCount s + 1)%N (set_initialBufferingHappened false s).

(** Modelled from the spec: [goPlayerReady] of TrackerState. *)
Definition goPlayerReady (s : TrackerState) : bool * TrackerState :=
  match phase s with
  | IDLE => (true, set_phase READY s)
  | _ => (false, s)
  end.

(** Modelled from the spec: [goRequest]: valid from READY, IDLE and ENDED;
    issues a new view id, marks [timeSinceRequested], moves to REQUESTED. *)
Definition goRequest (now : Z) (s : TrackerState) : bool * TrackerState :=
  match phase s with
  | READY | IDLE | ENDED =>
      (true, set_isStarted false (set_phase REQUESTED
               (markChrono "timeSinceRequested" now (goViewCountUp s))))
  | _ => (false, s)
  end.

(** Modelled from the spec: [goStart]: valid once per view after the
    request; marks [timeSinceStarted]; moves to PLAYING. *)
Definition goStart (now : Z) (s : TrackerState) : bool * TrackerState :=
  if isRequested s && negb (isStarted s)
  then (true, set_isStarted true (enter PLAYING
                (markChrono "timeSinceStarted" now s)))
  else (false, s).

(** Modelled from the spec: [goPause] of TrackerState. *)
Definition goPause (now : Z) (s : TrackerState) : bool * TrackerState :=
  match phase s with
  | PLAYING => (true, enter PAUSED (markChrono "timeSincePaused" now s))
  | _ => (false, s)
  end.

(** Modelled from the spec: [goResume] of TrackerState. *)
Definition goResume (now : Z) (s : TrackerState) : bool * TrackerState :=
  match phase s with
  | PAUSED => (true, enter PLAYING (markChrono "timeSinceResumed" now s))
  | _ => (false, s)
  end.

(** Modelled from the spec: [goBufferStart] / [goBufferEnd]: into and out of
    BUFFERING, keeping the phase that was active immediately before. *)
Definition goBufferStart (now : Z) (s : TrackerState) : bool * TrackerState :=
  if isRequested s && negb (bool_decide (phase s = BUFFERING))
  then (true, enter BUFFERING (set_bufferReturn (phase s)
                (markChrono "timeSinceBufferBegin" now s)))
  else (false, s).

(** Modelled from the spec: [goBufferEnd] of TrackerState. *)
Definition goBufferEnd (now : Z) (s : TrackerState) : bool * TrackerState :=
  match phase s with
  | BUFFERING => (true, enter (bufferReturn s) s)
  | _ => (false, s)
  end.

(** Modelled from the spec: [goSeekStart] of TrackerState. *)
Definition goSeekStart (now : Z) (s : TrackerState) : bool * TrackerState :=
  if isRequested s && negb (bool_decide (phase s = SEEKING))
  then (true, enter SEEKING (set_seekReturn (phase s)
                (markChrono "timeSinceSeekBegin" now s)))
  else (false, s).

(** Modelled from the spec: [goSeekEnd] of TrackerState. *)
Definition goSeekEnd (now : Z) (s : TrackerState) : bool * TrackerState :=
  match phase s with
  | SEEKING => (true, enter (seekReturn s) (markChrono "timeSinceSeekEnd" now s))
  | _ => (false, s)
  end.

(** Modelled from the spec: [goEnd]: valid while a view is active; triggers
    [goViewCountUp], zeroes [totalPlaytime], returns to ENDED. *)
Definition goEnd (now : Z) (s : TrackerState) : bool * TrackerState :=
  if isRequested s
  then (true, set_totalPlaytime 0 (goViewCountUp
                (set_isStarted false (enter ENDED s))))
  else (false, s).

(** Modelled from the spec: [goAdBreakStart]: enters the AD_BREAK
    super-state, records the [adBreakStart] mark and zeroes
    [totalAdPlaytime]. *)
Definition goAdBreakStart (now : Z) (s : TrackerState) : bool * TrackerState :=
  if isAdBreak s then (false, s)
  else (true, set_totalAdPlaytime 0 (set_isAdBreak true
                (markChrono "timeSinceAdBreakStart" now s))).

(** Modelled from the spec: [goAdBreakEnd]: leaves the AD_BREAK super-state;
    the accumulator takes the time the break lasted. *)
Definition goAdBreakEnd (now : Z) (s : TrackerState) : bool * TrackerState :=
  if isAdBreak s
  then (true, set_totalAdPlaytime
                (Chrono.getDeltaTime now (chrono "timeSinceAdBreakStart" s))
                (set_isAdBreak false s))
  else (false, s).

(** Modelled from the spec: side-channel operations: they always succeed and
    leave the phase. *)
Definition goAdQuartile (now : Z) (s : TrackerState) : TrackerState :=
  markChrono "timeSinceLastAdQuartile" now s.

(** Modelled from the spec: [goDownload] of TrackerState. *)
Definition goDownload (s : TrackerState) : TrackerState := s.

(** Modelled from the spec: [goError] of TrackerState. *)
Definition goError (s : TrackerState) : TrackerState := s.

(** Modelled from the spec: [goRenditionChange] of TrackerState. *)
Definition goRenditionChange (now : Z) (s : TrackerState) : TrackerState :=
  markChrono "timeSinceLastRenditionChange" now s.

(** Modelled from the spec: [goHeartbeat] re-marks the heartbeat reference
    time; skipped before a request. *)
Definition goHeartbeat (now : Z) (s : TrackerState) : bool * TrackerState :=
  if isRequested s then (true, markChrono "timeSinceLastHeartbeat" now s)
  else (false, s).

(** Modelled from the spec: [goLastAd] advances the "last ad" bookkeeping. *)
Definition goLastAd (now : Z) (s : TrackerState) : TrackerState :=
  set_numberOfAds (numberOfAds s + 1)%N (markChrono "timeSinceLastAd" now s).

(** Modelled from the spec: [setTimeSinceAttribute] of TrackerState. *)
Definition setTimeSinceAttribute (name : string) (now : Z) (s : TrackerState)
  : TrackerState :=
  markChrono name now s.

(** Modelled from the spec: a seek is open when the machine is seeking, or
    buffering on top of a seek. *)
Definition seekOpen (s : TrackerState) : bool :=
  match phase s with
  | SEEKING => true
  | BUFFERING => bool_decide (bufferReturn s = SEEKING)
  | _ => false
  end.

(** Modelled from the spec: [calculateBufferType(isInitialBuffering)]:
    initial when the argument is true, seek when a seek is open, other
    otherwise. *)
Definition calculateBufferType (isInitialBuffering : JsVal) (s : TrackerState)
  : string :=
  if truthy isInitialBuffering then "initial"
  else if seekOpen s then "seek"
  else "other".

End TrackerState.

(** ** The tracker objects and the world they live in *)

(** A listener registered with [on('*', cb)].  The only callback the source
    registers is [funnelAdEvents], bound to the parent with [bind(this)];
    [boundThis = None] is the function itself, unbound, which is what
    [disposeAdsTracker] hands to [off]. *)
Inductive Callback : Type :=
| FunnelAdEvents (boundThis : option ref).

#[global] Instance Callback_eq_dec : EqDecision Callback.
Proof. solve_decision. Defined.

(** The fields of a [VideoTracker] instance.  [renditionBitrate] is what the
    overridable getter [getRenditionBitrate()] currently returns ([None] is
    the default [null]); [_lastRendition] and [_lastAdRendition] are never
    initialised by the constructor, so they start undefined ([None]). *)
Record VideoTracker : Type := MkTracker {
  state : TrackerState;
  adsTracker : option ref;
  parentTracker : option ref;
  _lastBufferType : JsVal;
  _lastRendition : option Z;
  _lastAdRendition : option Z;
  renditionBitrate : option Z;
  listeners : list Callback;
  heartbeatOn : bool;
  player : bool
}.

#[global] Instance VideoTracker_eq_dec : EqDecision VideoTracker.
Proof. solve_decision. Defined.

Inductive LogEntry : Type :=
| Warn (msg : string)
| Notice (msg : string).

#[global] Instance LogEntry_eq_dec : EqDecision LogEntry.
Proof. solve_decision. Defined.

(** What reaches the sink: [deliver(trackerRef, eventName, attributeBag)].
    The bag is optional because several [send*] methods pass their [att]
    argument on without defaulting it. *)
Definition Delivery : Type := ref * string * option Bag.

Record World : Type := MkWorld {
  trackers : gmap ref VideoTracker;
  now : Z;
  randoms : list N;
  sink : list Delivery;
  log : list LogEntry
}.

#[global] Instance World_eq_dec : EqDecision World.
Proof. solve_decision. Defined.

Definition set_state (s : TrackerState) (tr : VideoTracker) : VideoTracker :=
  MkTracker s (adsTracker tr) (parentTracker tr) (_lastBufferType tr)
    (_lastRendition tr) (_lastAdRendition tr) (renditionBitrate tr)
    (listeners tr) (heartbeatOn tr) (player tr).

Definition set_adsTracker (a : option ref) (tr : VideoTracker) : VideoTracker :=
  MkTracker (state tr) a (parentTracker tr) (_lastBufferType tr)
    (_lastRendition tr) (_lastAdRendition tr) (renditionBitrate tr)
    (listeners tr) (heartbeatOn tr) (player tr).

Definition set_parentTracker (p : option ref) (tr : VideoTracker) : VideoTracker :=
  MkTracker (state tr) (adsTracker tr) p (_lastBufferType tr)
    (_lastRendition tr) (_lastAdRendition tr) (renditionBitrate tr)
    (listeners tr) (heartbeatOn tr) (player tr).

Definition set_lastBufferType (v : JsVal) (tr : VideoTracker) : VideoTracker :=
  MkTracker (state tr) (adsTracker tr) (parentTracker tr) v
    (_lastRendition tr) (_lastAdRendition tr) (renditionBitrate tr)
    (listeners tr) (heartbeatOn tr) (player tr).

Definition set_lastRendition (v : option Z) (tr : VideoTracker) : VideoTracker :=
  MkTracker (state tr) (adsTracker tr) (parentTracker tr) (_lastBufferType tr)
    v (_lastAdRendition tr) (renditionBitrate tr)
    (listeners tr) (heartbeatOn tr) (player tr).

Definition set_lastAdRendition (v : option Z) (tr : VideoTracker) : VideoTracker :=
  MkTracker (state tr) (adsTracker tr) (parentTracker tr) (_lastBufferType tr)
    (_lastRendition tr) v (renditionBitrate tr)
    (listeners tr) (heartbeatOn tr) (player tr).

Definition set_renditionBitrate (v : option Z) (tr : VideoTracker) : VideoTracker :=
  MkTracker (state tr) (adsTracker tr) (parentTracker tr) (_lastBufferType tr)
    (_lastRendition tr) (_lastAdRendition tr) v
    (listeners tr) (heartbeatOn tr) (player tr).

Definition set_listeners (l : list Callback) (tr : VideoTracker) : VideoTracker :=
  MkTracker (state tr) (adsTracker tr) (parentTracker tr) (_lastBufferType tr)
    (_lastRendition tr) (_lastAdRendition tr) (renditionBitrate tr)
    l (heartbeatOn tr) (player tr).

Definition set_heartbeatOn (b : bool) (tr : VideoTracker) : VideoTracker :=
  MkTracker (state tr) (adsTracker tr) (parentTracker tr) (_lastBufferType tr)
    (_lastRendition tr) (_lastAdRendition tr) (renditionBitrate tr)
    (listeners tr) b (player tr).

Definition set_player (b : bool) (tr : VideoTracker) : VideoTracker :=
  MkTracker (state tr) (adsTracker tr) (parentTracker tr) (_lastBufferType tr)
    (_lastRendition tr) (_lastAdRendition tr) (renditionBitrate tr)
    (listeners tr) (heartbeatOn tr) b.

Definition set_trackers (m : gmap ref VideoTracker) (w : World) : World :=
  MkWorld m (now w) (randoms w) (sink w) (log w).

Definition set_now (n : Z) (w : World) : World :=
  MkWorld (trackers w) n (randoms w) (sink w) (log w).

Definition set_randoms (r : list N) (w : World) : World :=
  MkWorld (trackers w) (now w) r (sink w) (log w).

Definition set_sink (l : list Delivery) (w : World) : World :=
  MkWorld (trackers w) (now w) (randoms w) l (log w).

Definition set_log (l : list LogEntry) (w : World) : World :=
  MkWorld (trackers w) (now w) (randoms w) (sink w) l.

(** Assignment to a field of the object behind a reference. *)
Definition modify (t : ref) (f : VideoTracker → VideoTracker) (w : World) : World :=
  set_trackers (alter f t (trackers w)) w.

Definition modifyState (t : ref) (f : TrackerState → TrackerState) (w : World)
  : World :=
  modify t (λ tr, set_state (f (state tr)) tr) w.

(** Modelled from the spec: the Log collaborator, [warn(message)]. *)
Definition Log_warn (msg : string) (w : World) : World :=
  set_log (log w ++ [Warn msg]) w.

(** ** The base Tracker *)

(** The options object of the constructor and of [setOptions]; [None] is an
    option that is not given. *)
Record Options : Type := MkOptions {
  opt_adsTracker : option ref;
  opt_isAd : option bool;
  opt_parentTracker : option ref
}.

#[global] Instance Options_eq_dec : EqDecision Options.
Proof. solve_decision. Defined.

(** The event object handed to a listener: [{ type, data, target }]. *)
Record Event : Type := MkEvent {
  type : string;
  data : option Bag;
  target : ref
}.

(** [funnelAdEvents], the private function at the end of the file:
    [this.send(e.type, e.data)].  It is written over the [send] it calls
    because [send] in turn invokes the listeners; invoked unbound, [this] is
    undefined and the call throws. *)
Definition funnelAdEvents
    (send : ref → string → option Bag → World → option World)
    (this : option ref) (e : Event) (w : World) : option World :=
  match this with
  | Some p => send p (type e) (data e) w
  | None => None
  end.

Definition invoke
    (send : ref → string → option Bag → World → option World)
    (cb : Callback) (e : Event) (w : World) : option World :=
  match cb with
  | FunnelAdEvents this => funnelAdEvents send this e w
  end.

Module Tracker.

(** Modelled from the spec: the sink, [deliver(trackerRef, eventName,
    attributeBag)], fire-and-forget. *)
Definition deliver (d : Delivery) (w : World) : World :=
  set_sink (sink w ++ [d]) w.

(** Modelled from the spec: [Tracker.send] ([./tracker] is imported by the
    sources but absent).  It delivers [(eventName, attributes)] to the sink
    and hands the event, unchanged, to every subscriber of the tracker's
    emitted events, in the order of subscription. *)
Fixpoint send (fuel : nat) (t : ref) (ev : string) (att : option Bag) (w : World)
  : option World :=
  match fuel with
  | O => None
  | S f =>
      tr ← trackers w !! t;
      foldl (λ acc cb, w' ← acc; invoke (send f) cb (MkEvent ev att t) w')
            (Some (deliver (t, ev, att) w)) (listeners tr)
  end.

(** Modelled from the spec: subscription to all emitted events,
    [on('*', cb)], and its removal [off('*', cb)], which drops the
    subscriptions of that very callback. *)
Definition on (t : ref) (cb : Callback) (w : World) : World :=
  modify t (λ tr, set_listeners (listeners tr ++ [cb]) tr) w.

Definition off (t : ref) (cb : Callback) (w : World) : World :=
  modify t (λ tr, set_listeners
                    (filter (λ c, c ≠ cb) (listeners tr)) tr) w.

(** Modelled from the spec: [startHeartbeat] begins the recurring timer
    that invokes [sendHeartbeat]; [stopHeartbeat] cancels it and is
    idempotent. *)
Definition startHeartbeat (t : ref) (w : World) : World :=
  modify t (set_heartbeatOn true) w.

Definition stopHeartbeat (t : ref) (w : World) : World :=
  modify t (set_heartbeatOn false) w.

(** Modelled from the spec: the base [setOptions], which takes the
    [parentTracker] option; the heartbeat interval and the custom data have
    no part in what follows. *)
Definition setOptions (t : ref) (options : Options) (w : World) : World :=
  match opt_parentTracker options with
  | Some p => modify t (set_parentTracker (Some p)) w
  | None => w
  end.

End Tracker.

(** ** VideoTracker: the methods of [videotracker.js] *)

(** [this.state.goX()]: runs a transition of the tracker's state object and
    yields its boolean. *)
Definition go (g : TrackerState → bool * TrackerState) (t : ref) (w : World)
  : option (bool * World) :=
  tr ← trackers w !! t;
  Some ((g (state tr)).1, modifyState t (λ s, (g s).2) w).

(** [this.state.timeSinceX.getDeltaTime()]. *)
Definition deltaTime (name : string) (t : ref) (w : World) : option JsVal :=
  tr ← trackers w !! t;
  Some (JNum (Chrono.getDeltaTime (now w) (TrackerState.chrono name (state tr)))).

(** Lines 97-99. *)
Definition isAd (t : ref) (w : World) : option bool :=
  tr ← trackers w !! t; Some (TrackerState.isAd (state tr)).

(** Lines 102-104. *)
Definition setIsAd (t : ref) (b : bool) (w : World) : World :=
  modifyState t (TrackerState.setIsAd b) w.

(** Lines 135-141 and 125-130.  [dispose] and [disposeAdsTracker] call each
    other down the chain of ads trackers.  [off] receives the unbound
    [funnelAdEvents]. *)
Definition disposeAdsTracker_with (dispose : ref → World → option World)
    (t : ref) (w : World) : option World :=
  tr ← trackers w !! t;
  match adsTracker tr with
  | Some a => dispose a (Tracker.off a (FunnelAdEvents None) w)
  | None => Some w
  end.

Fixpoint dispose (fuel : nat) (t : ref) (w : World) : option World :=
  match fuel with
  | O => None
  | S f =>
      w1 ← disposeAdsTracker_with (dispose f) t (Tracker.stopHeartbeat t w);
      Some (modify t (set_player false) w1)
  end.

Definition disposeAdsTracker (fuel : nat) (t : ref) (w : World) : option World :=
  disposeAdsTracker_with (dispose fuel) t w.

(** Lines 112-120. *)
Definition setAdsTracker (fuel : nat) (t : ref) (tracker : option ref) (w : World)
  : option World :=
  w1 ← disposeAdsTracker fuel t w;
  match tracker with
  | Some a =>
      let w2 := modify t (set_adsTracker (Some a)) w1 in
      let w3 := setIsAd a true w2 in
      let w4 := modify a (set_parentTracker (Some t)) w3 in
      Some (Tracker.on a (FunnelAdEvents (Some t)) w4)
  | None => Some w1
  end.

(** Lines 64-70. *)
Definition setOptions (fuel : nat) (t : ref) (options : option Options) (w : World)
  : option World :=
  match options with
  | Some o =>
      w1 ← match opt_adsTracker o with
           | Some a => setAdsTracker fuel t (Some a) w
           | None => Some w
           end;
      let w2 := match opt_isAd o with
                | Some b => setIsAd t b w1
                | None => w1
                end in
      Some (Tracker.setOptions t o w2)
  | None => Some w
  end.

(** [this.state.getViewSession()] and [this.state.getViewId()] on the state
    object of [t]; generating the session id draws from the random source. *)
Definition state_getViewSession (t : ref) (w : World) : option (SessionId * World) :=
  tr ← trackers w !! t;
  let r := TrackerState.getViewSession (now w) (hd 0%N (randoms w)) (state tr) in
  let w1 := modifyState t (λ _, r.2) w in
  Some (r.1, match viewSession (state tr) with
            | Some _ => w1
            | None => set_randoms (tl (randoms w)) w1
            end).

Definition state_getViewId (t : ref) (w : World) : option (ViewId * World) :=
  tr ← trackers w !! t;
  let r := TrackerState.getViewId (now w) (hd 0%N (randoms w)) (state tr) in
  let w1 := modifyState t (λ _, r.2) w in
  Some (r.1, match viewSession (state tr) with
            | Some _ => w1
            | None => set_randoms (tl (randoms w)) w1
            end).

(** Lines 182-188. *)
Fixpoint getViewId (fuel : nat) (t : ref) (w : World) : option (ViewId * World) :=
  match fuel with
  | O => None
  | S f =>
      tr ← trackers w !! t;
      match parentTracker tr with
      | Some p => getViewId f p w
      | None => state_getViewId t w
      end
  end.

(** Lines 195-201. *)
Fixpoint getViewSession (fuel : nat) (t : ref) (w : World)
  : option (SessionId * World) :=
  match fuel with
  | O => None
  | S f =>
      tr ← trackers w !! t;
      match parentTracker tr with
      | Some p => getViewSession f p w
      | None => state_getViewSession t w
      end
  end.

(** Lines 244-246: the default returns null; a player binding overrides it. *)
Definition getRenditionBitrate (tr : VideoTracker) : option Z := renditionBitrate tr.

(** [!v] on a bitrate: null, undefined and 0 are falsy. *)
Definition falsy (v : option Z) : bool :=
  match v with
  | Some n => n =? 0
  | None => true
  end.

(** Lines 256-278. *)
Definition getRenditionShift (saveNewRendition : bool) (tr : VideoTracker)
  : JsVal * VideoTracker :=
  let current := getRenditionBitrate tr in
  let '(last, tr1) :=
    if TrackerState.isAd (state tr)
    then (_lastAdRendition tr,
          if saveNewRendition then set_lastAdRendition current tr else tr)
    else (_lastRendition tr,
          if saveNewRendition then set_lastRendition current tr else tr) in
  if falsy current || falsy last then (JNull, tr1)
  else
    let c := default 0 current in
    let l := default 0 last in
    if c >? l then (JStr "up", tr1)
    else if c <? l then (JStr "down", tr1)
    else (JNull, tr1).

(** Lines 375-382. *)
Definition getAdPosition (t : ref) (w : World) : option JsVal :=
  tr ← trackers w !! t;
  match parentTracker tr with
  | Some p =>
      ptr ← trackers w !! p;
      Some (JStr (if isStarted (state ptr) then "mid" else "pre"))
  | None => Some JNull
  end.

(** [this.parentTracker.state.isPlaying = b] under [if (this.parentTracker)]. *)
Definition setParentIsPlaying (b : bool) (tr : VideoTracker) (w : World) : World :=
  match parentTracker tr with
  | Some p => modifyState p (TrackerState.set_isPlaying b) w
  | None => w
  end.

Section Sending.

Variable fuel : nat.

(** Lines 478-482. *)
Definition sendCustom (t : ref) (actionName timeSinceAttName : string)
    (att : option Bag) (w : World) : option World :=
  let att := or_empty att in
  w1 ← Tracker.send fuel t actionName (Some att) w;
  Some (modifyState t (TrackerState.setTimeSinceAttribute timeSinceAttName (now w1)) w1).

(** Lines 489-494. *)
Definition sendPlayerReady (t : ref) (att : option Bag) (w : World) : option World :=
  '(ok, w1) ← go TrackerState.goPlayerReady t w;
  if ok : bool then
    let att := or_empty att in
    Tracker.send fuel t "PLAYER_READY" (Some att) w1
  else Some w1.

(** Lines 502-509. *)
Definition sendRequest (t : ref) (att : option Bag) (w : World) : option World :=
  '(ok, w1) ← go (TrackerState.goRequest (now w)) t w;
  if ok : bool then
    ad ← isAd t w1;
    let ev := if ad : bool then "AD_REQUEST" else "CONTENT_REQUEST" in
    w2 ← Tracker.send fuel t ev att w1;
    let w3 := Tracker.startHeartbeat t w2 in
    '(_, w4) ← go (TrackerState.goHeartbeat (now w3)) t w3;
    Some w4
  else Some w1.

(** Lines 516-527. *)
Definition sendStart (t : ref) (att : option Bag) (w : World) : option World :=
  '(ok, w1) ← go (TrackerState.goStart (now w)) t w;
  if ok : bool then
    tr ← trackers w1 !! t;
    if TrackerState.isAd (state tr)
    then Tracker.send fuel t "AD_START" att (setParentIsPlaying false tr w1)
    else Tracker.send fuel t "CONTENT_START" att w1
  else Some w1.

(** Lines 535-555. *)
Definition sendEnd (t : ref) (att : option Bag) (w : World) : option World :=
  '(ok, w1) ← go (TrackerState.goEnd (now w)) t w;
  if ok : bool then
    let att := or_empty att in
    tr ← trackers w1 !! t;
    dReq ← deltaTime "timeSinceRequested" t w1;
    dSta ← deltaTime "timeSinceStarted" t w1;
    let '(ev, att1, w2) :=
      if TrackerState.isAd (state tr)
      then ("AD_END",
            <["timeSinceAdStarted" := dSta]> (<["timeSinceAdRequested" := dReq]> att),
            setParentIsPlaying true tr w1)
      else ("CONTENT_END",
            <["timeSinceStarted" := dSta]> (<["timeSinceRequested" := dReq]> att),
            w1) in
    w3 ← Tracker.send fuel t ev (Some att1) (Tracker.stopHeartbeat t w2);
    tr3 ← trackers w3 !! t;
    let w4 :=
      match parentTracker tr3 with
      | Some p =>
          if TrackerState.isAd (state tr3)
          then modifyState p (TrackerState.goLastAd (now w3)) w3
          else w3
      | None => w3
      end in
    let w5 := modifyState t TrackerState.goViewCountUp w4 in
    Some (modifyState t (TrackerState.set_totalPlaytime 0) w5)
  else Some w1.

(** Lines 562-567. *)
Definition sendPause (t : ref) (att : option Bag) (w : World) : option World :=
  '(ok, w1) ← go (TrackerState.goPause (now w)) t w;
  if ok : bool then
    ad ← isAd t w1;
    let ev := if ad : bool then "AD_PAUSE" else "CONTENT_PAUSE" in
    Tracker.send fuel t ev att w1
  else Some w1.

(** Lines 574-587. *)
Definition sendResume (t : ref) (att : option Bag) (w : World) : option World :=
  '(ok, w1) ← go (TrackerState.goResume (now w)) t w;
  if ok : bool then
    let att := or_empty att in
    ad ← isAd t w1;
    d ← deltaTime "timeSincePaused" t w1;
    if ad : bool
    then Tracker.send fuel t "AD_RESUME" (Some (<["timeSinceAdPaused" := d]> att)) w1
    else Tracker.send fuel t "CONTENT_RESUME" (Some (<["timeSincePaused" := d]> att)) w1
  else Some w1.

(** Lines 639-653. *)
Definition buildBufferAttributes (t : ref) (att : Bag) (w : World) : option Bag :=
  tr ← trackers w !! t;
  let att1 :=
    if is_nullish (get att "timeSinceStarted") || lt_num (get att "timeSinceStarted") 100
    then <["isInitialBuffering" :=
             JBool (negb (initialBufferingHappened (state tr)))]> att
    else <["isInitialBuffering" := JBool false]> att in
  let att2 :=
    <["bufferType" :=
        JStr (TrackerState.calculateBufferType (get att1 "isInitialBuffering")
                (state tr))]> att1 in
  dRes ← deltaTime "timeSinceResumed" t w;
  dSeek ← deltaTime "timeSinceSeekEnd" t w;
  Some (<["timeSinceSeekEnd" := dSeek]> (<["timeSinceResumed" := dRes]> att2)).

(** Lines 594-609. *)
Definition sendBufferStart (t : ref) (att : option Bag) (w : World) : option World :=
  '(ok, w1) ← go (TrackerState.goBufferStart (now w)) t w;
  if ok : bool then
    let att := or_empty att in
    ad ← isAd t w1;
    let ev := if ad : bool then "AD_BUFFER_START" else "CONTENT_BUFFER_START" in
    att1 ← buildBufferAttributes t att w1;
    let w2 := modify t (set_lastBufferType (get att1 "bufferType")) w1 in
    Tracker.send fuel t ev (Some att1) w2
  else Some w1.

(** Lines 616-637. *)
Definition sendBufferEnd (t : ref) (att : option Bag) (w : World) : option World :=
  '(ok, w1) ← go (TrackerState.goBufferEnd (now w)) t w;
  if ok : bool then
    let att := or_empty att in
    ad ← isAd t w1;
    d ← deltaTime "timeSinceBufferBegin" t w1;
    let '(ev, att0) :=
      if ad : bool
      then ("AD_BUFFER_END", <["timeSinceAdBufferBegin" := d]> att)
      else ("CONTENT_BUFFER_END", <["timeSinceBufferBegin" := d]> att) in
    att1 ← buildBufferAttributes t att0 w1;
    tr ← trackers w1 !! t;
    let att2 :=
      if negb (is_nullish (_lastBufferType tr))
      then <["bufferType" := _lastBufferType tr]> att1
      else att1 in
    w2 ← Tracker.send fuel t ev (Some att2) w1;
    Some (modifyState t (TrackerState.set_initialBufferingHappened true) w2)
  else Some w1.

(** Lines 660-670. *)
Definition sendSeekStart (t : ref) (att : option Bag) (w : World) : option World :=
  '(ok, w1) ← go (TrackerState.goSeekStart (now w)) t w;
  if ok : bool then
    ad ← isAd t w1;
    let ev := if ad : bool then "AD_SEEK_START" else "CONTENT_SEEK_START" in
    Tracker.send fuel t ev att w1
  else Some w1.

(** Lines 677-690. *)
Definition sendSeekEnd (t : ref) (att : option Bag) (w : World) : option World :=
  '(ok, w1) ← go (TrackerState.goSeekEnd (now w)) t w;
  if ok : bool then
    let att := or_empty att in
    ad ← isAd t w1;
    d ← deltaTime "timeSinceSeekBegin" t w1;
    if ad : bool
    then Tracker.send fuel t "AD_SEEK_END" (Some (<["timeSinceAdSeekBegin" := d]> att)) w1
    else Tracker.send fuel t "CONTENT_SEEK_END" (Some (<["timeSinceSeekBegin" := d]> att)) w1
  else Some w1.

(** Lines 698-703. *)
Definition sendDownload (t : ref) (att : option Bag) (w : World) : option World :=
  let att := or_empty att in
  let w1 :=
    if negb (truthy (get att "state"))
    then Log_warn "Called sendDownload without { state: xxxxx }." w
    else w in
  w2 ← Tracker.send fuel t "DOWNLOAD" (Some att) w1;
  Some (modifyState t TrackerState.goDownload w2).

(** Lines 710-716. *)
Definition sendError (t : ref) (att : option Bag) (w : World) : option World :=
  let att := or_empty att in
  ad ← isAd t w;
  let att1 := <["isAd" := JBool ad]> att in
  let w1 := modifyState t TrackerState.goError w in
  ad1 ← isAd t w1;
  let ev := if ad1 : bool then "AD_ERROR" else "CONTENT_ERROR" in
  Tracker.send fuel t ev (Some att1) w1.

(** Lines 723-735. *)
Definition sendRenditionChanged (t : ref) (att : option Bag) (w : World)
  : option World :=
  let att := or_empty att in
  d ← deltaTime "timeSinceLastRenditionChange" t w;
  tr ← trackers w !! t;
  let shift := (getRenditionShift true tr).1 in
  let att1 := <["shift" := shift]> (<["timeSinceLastRenditionChange" := d]> att) in
  let w1 := modify t (λ tr, (getRenditionShift true tr).2) w in
  ad ← isAd t w1;
  let ev := if ad : bool then "AD_RENDITION_CHANGE" else "CONTENT_RENDITION_CHANGE" in
  w2 ← Tracker.send fuel t ev (Some att1) w1;
  Some (modifyState t (TrackerState.goRenditionChange (now w2)) w2).

(** Lines 744-755. *)
Definition sendHeartbeat (t : ref) (att : option Bag) (w : World) : option World :=
  tr ← trackers w !! t;
  if TrackerState.isRequested (state tr) then
    let ev := if TrackerState.isAd (state tr) then "AD_HEARTBEAT" else "CONTENT_HEARTBEAT" in
    w1 ← Tracker.send fuel t ev att w;
    '(_, w2) ← go (TrackerState.goHeartbeat (now w1)) t w1;
    Some w2
  else Some w.

(** Lines 763-769. *)
Definition sendAdBreakStart (t : ref) (att : option Bag) (w : World) : option World :=
  ad ← isAd t w;
  if ad : bool then
    '(ok, w1) ← go (TrackerState.goAdBreakStart (now w)) t w;
    if ok : bool then
      let w2 := modifyState t (TrackerState.set_totalAdPlaytime 0) w1 in
      tr ← trackers w2 !! t;
      Tracker.send fuel t "AD_BREAK_START" att (setParentIsPlaying false tr w2)
    else Some w1
  else Some w.

(** Lines 776-786. *)
Definition sendAdBreakEnd (t : ref) (att : option Bag) (w : World) : option World :=
  ad ← isAd t w;
  if ad : bool then
    '(ok, w1) ← go (TrackerState.goAdBreakEnd (now w)) t w;
    if ok : bool then
      let att := or_empty att in
      d ← deltaTime "timeSinceAdBreakStart" t w1;
      w2 ← Tracker.send fuel t "AD_BREAK_END" (Some (<["timeSinceAdBreakBegin" := d]> att)) w1;
      tr ← trackers w2 !! t;
      let w3 := Tracker.stopHeartbeat t (setParentIsPlaying true tr w2) in
      tr3 ← trackers w3 !! t;
      Some (match parentTracker tr3 with
            | Some p =>
                if TrackerState.isAd (state tr3)
                then modifyState p (TrackerState.goLastAd (now w3)) w3
                else w3
            | None => w3
            end)
    else Some w1
  else Some w.

(** Lines 794-802. *)
Definition sendAdQuartile (t : ref) (att : option Bag) (w : World) : option World :=
  ad ← isAd t w;
  if ad : bool then
    let att := or_empty att in
    let w1 :=
      if negb (truthy (get att "quartile"))
      then Log_warn "Called sendAdQuartile without { quartile: xxxxx }." w
      else w in
    d ← deltaTime "timeSinceLastAdQuartile" t w1;
    w2 ← Tracker.send fuel t "AD_QUARTILE" (Some (<["timeSinceLastAdQuartile" := d]> att)) w1;
    Some (modifyState t (TrackerState.goAdQuartile (now w2)) w2)
  else Some w.

(** Lines 810-816. *)
Definition sendAdClick (t : ref) (att : option Bag) (w : World) : option World :=
  ad ← isAd t w;
  if ad : bool then
    let att := or_empty att in
    let w1 :=
      if negb (truthy (get att "url"))
      then Log_warn "Called sendAdClick without { url: xxxxx }." w
      else w in
    Tracker.send fuel t "AD_CLICK" (Some att) w1
  else Some w.

End Sending.

(** ** Construction and call sequences *)

(** Lines 24-51: a new tracker has a fresh state, no ads tracker and a null
    [_lastBufferType]; [parentTracker] and the rendition slots are not
    assigned.  The object is stored under the reference [r]; the options
    of the constructor are applied by a [setOptions] that follows.  The
    notice that the constructor logs is not recorded. *)
Definition newTracker (now : Z) : VideoTracker :=
  {| state := TrackerState.new now; adsTracker := None; parentTracker := None;
     _lastBufferType := JNull; _lastRendition := None; _lastAdRendition := None;
     renditionBitrate := None; listeners := []; heartbeatOn := false;
     player := false |}.

Definition construct (r : ref) (w : World) : World :=
  set_trackers (<[r := newTracker (now w)]> (trackers w)) w.

(** The world before any tracker exists. *)
Definition emptyWorld : World :=
  {| trackers := ∅; now := 0; randoms := []; sink := []; log := [] |}.

(** What can happen to the trackers of a page: the clock advances, a
    tracker is constructed (under a reference that is not in use), the
    player switches rendition, the heartbeat timer fires, or the host calls
    a method. *)
Inductive Call : Type :=
| Tick (d : N)
| New (r : ref)
| PlayerRendition (t : ref) (bitrate : option Z)
| HeartbeatTimer (t : ref)
| CallSetIsAd (t : ref) (b : bool)
| CallSetAdsTracker (t : ref) (tracker : option ref)
| CallSetOptions (t : ref) (options : option Options)
| CallSendCustom (t : ref) (actionName timeSinceAttName : string) (att : option Bag)
| CallSendPlayerReady (t : ref) (att : option Bag)
| CallSendRequest (t : ref) (att : option Bag)
| CallSendStart (t : ref) (att : option Bag)
| CallSendEnd (t : ref) (att : option Bag)
| CallSendPause (t : ref) (att : option Bag)
| CallSendResume (t : ref) (att : option Bag)
| CallSendBufferStart (t : ref) (att : option Bag)
| CallSendBufferEnd (t : ref) (att : option Bag)
| CallSendSeekStart (t : ref) (att : option Bag)
| CallSendSeekEnd (t : ref) (att : option Bag)
| CallSendDownload (t : ref) (att : option Bag)
| CallSendError (t : ref) (att : option Bag)
| CallSendRenditionChanged (t : ref) (att : option Bag)
| CallSendHeartbeat (t : ref) (att : option Bag)
| CallSendAdBreakStart (t : ref) (att : option Bag)
| CallSendAdBreakEnd (t : ref) (att : option Bag)
| CallSendAdQuartile (t : ref) (att : option Bag)
| CallSendAdClick (t : ref) (att : option Bag).

Definition step (fuel : nat) (c : Call) (w : World) : option World :=
  match c with
  | Tick d => Some (set_now (now w + Z.of_N d) w)
  | New r =>
      match trackers w !! r with
      | None => Some (construct r w)
      | Some _ => None
      end
  | PlayerRendition t b => Some (modify t (set_renditionBitrate b) w)
  | HeartbeatTimer t =>
      tr ← trackers w !! t;
      if heartbeatOn tr then sendHeartbeat fuel t None w else Some w
  | CallSetIsAd t b => Some (setIsAd t b w)
  | CallSetAdsTracker t a => setAdsTracker fuel t a w
  | CallSetOptions t o => setOptions fuel t o w
  | CallSendCustom t a n att => sendCustom fuel t a n att w
  | CallSendPlayerReady t att => sendPlayerReady fuel t att w
  | CallSendRequest t att => sendRequest fuel t att w
  | CallSendStart t att => sendStart fuel t att w
  | CallSendEnd t att => sendEnd fuel t att w
  | CallSendPause t att => sendPause fuel t att w
  | CallSendResume t att => sendResume fuel t att w
  | CallSendBufferStart t att => sendBufferStart fuel t att w
  | CallSendBufferEnd t att => sendBufferEnd fuel t att w
  | CallSendSeekStart t att => sendSeekStart fuel t att w
  | CallSendSeekEnd t att => sendSeekEnd fuel t att w
  | CallSendDownload t att => sendDownload fuel t att w
  | CallSendError t att => sendError fuel t att w
  | CallSendRenditionChanged t att => sendRenditionChanged fuel t att w
  | CallSendHeartbeat t att => sendHeartbeat fuel t att w
  | CallSendAdBreakStart t att => sendAdBreakStart fuel t att w
  | CallSendAdBreakEnd t att => sendAdBreakEnd fuel t att w
  | CallSendAdQuartile t att => sendAdQuartile fuel t att w
  | CallSendAdClick t att => sendAdClick fuel t att w
  end.

Fixpoint run (fuel : nat) (cs : list Call) (w : World) : option World :=
  match cs with
  | [] => Some w
  | c :: cs' => w' ← step fuel c w; run fuel cs' w'
  end.

(** ** Observations on the sink *)

(** The deliveries made since the sink held [n] entries. *)
Definition deliveredSince (n : nat) (w : World) : list Delivery := drop n (sink w).

Definition isRequestEvent (ev : string) : bool :=
  String.eqb ev "AD_REQUEST" || String.eqb ev "CONTENT_REQUEST".

(** The number of [*_REQUEST] events that tracker [t] delivered in [l]. *)
Definition countRequests (t : ref) (l : list Delivery) : nat :=
  length (filter (λ d : Delivery, d.1.1 = t ∧ isRequestEvent d.1.2 = true) l).

(** The funnel subscriptions are acyclic: every listener is the funnel of a
    tracker of the store that ranks below the emitting one.  This is the
    invariant that no tracker is its own ancestor. *)
Definition listenerOk (rank : ref → nat) (w : World) (t : ref) (cb : Callback)
  : bool :=
  match cb with
  | FunnelAdEvents (Some p) =>
      bool_decide (rank p < rank t)%nat && bool_decide (is_Some (trackers w !! p))
  | FunnelAdEvents None => false
  end.

Definition funnelAcyclic (rank : ref → nat) (w : World) : Prop :=
  map_Forall (λ t tr, forallb (listenerOk rank w t) (listeners tr) = true)
             (trackers w).

(** A small page: a content tracker [0] that has requested and started its
    video, with an ads tracker [1] attached. *)
Definition demoCalls : list Call :=
  [New 0%nat; New 1%nat; CallSendRequest 0%nat None; Tick 20;
   CallSendStart 0%nat None; CallSetAdsTracker 0%nat (Some 1%nat)].

Definition demoWorld : World := default emptyWorld (run 5 demoCalls emptyWorld).

(** ** Notions used by the properties *)

(** The last bitrate recorded for the role the tracker plays. *)
Definition roleLast (tr : VideoTracker) : option Z :=
  if TrackerState.isAd (state tr) then _lastAdRendition tr else _lastRendition tr.

(** The rendition shift as the specification words it: up when the current
    bitrate is greater than the last one, down when it is smaller, null when
    they are equal or when either value is absent. *)
Definition claimedShift (current last : option Z) : JsVal :=
  match current, last with
  | Some c, Some l =>
      if c >? l then JStr "up" else if c <? l then JStr "down" else JNull
  | _, _ => JNull
  end.

(** A content tracker whose player reports [bitrate] and whose last recorded
    bitrate is [last]. *)
Definition trackerWithRenditions (bitrate last : option Z) : VideoTracker :=
  set_renditionBitrate bitrate (set_lastRendition last (newTracker 0)).

(** [rootOf w t r n]: following [parentTracker] from [t] for [n] links ends
    at [r], which has no parent. *)
Inductive rootOf (w : World) : ref → ref → nat → Prop :=
| rootOf_self (t : ref) (tr : VideoTracker) :
    trackers w !! t = Some tr → parentTracker tr = None → rootOf w t t 0
| rootOf_parent (t p r : ref) (n : nat) (tr : VideoTracker) :
    trackers w !! t = Some tr → parentTracker tr = Some p →
    rootOf w p r n → rootOf w t r (S n).

(** The clock is monotonic: no stopwatch of the store was marked, and no
    state was created, after the present instant. *)
Definition stateClockOk (n : Z) (s : TrackerState) : Prop :=
  createdAt s ≤ n ∧ map_Forall (λ _ c, Chrono.markedAt c ≤ n) (chronos s).

Definition clockOk (w : World) : Prop :=
  map_Forall (λ _ tr, stateClockOk (now w) (state tr)) (trackers w).

(** The page of [demoWorld] just before the ads tracker is attached. *)
Definition demoWorldBeforeAds : World :=
  default emptyWorld (run 5 (take 5 demoCalls) emptyWorld).

(** What may happen between two consecutive calls of the host: time passes
    and timers fire. *)
Definition idle (c : Call) : bool :=
  match c with
  | Tick _ | HeartbeatTimer _ => true
  | _ => false
  end.

(** A content tracker that has already requested its video. *)
Definition requestedWorld : World :=
  default emptyWorld (run 3 [New 0%nat; CallSendRequest 0%nat None] emptyWorld).

(** The tracker behind [t] is in a view that has been requested. *)
Definition requestedAt (t : ref) (w : World) : Prop :=
  ∃ tr, trackers w !! t = Some tr ∧ TrackerState.isRequested (state tr) = true.

(** A page with one freshly constructed tracker. *)
Definition freshWorld : World := construct 0%nat emptyWorld.

(** The value of [_lastBufferType] of the tracker behind [t]. *)
Definition lastBufferTypeOf (t : ref) (w : World) : option JsVal :=
  _lastBufferType <$> trackers w !! t.

(** The call is a [sendBufferStart] on [t] that the guard accepts. *)
Definition acceptsBufferStart (t : ref) (c : Call) (w : World) : Prop :=
  match c with
  | CallSendBufferStart x _ =>
      x = t ∧ ∃ tr, trackers w !! t = Some tr
                    ∧ (TrackerState.goBufferStart (now w) (state tr)).1 = true
  | _ => False
  end.

(** No call of the sequence, run from [w], is an accepted [sendBufferStart]
    on [t]. *)
Fixpoint noBufferStart (fuel : nat) (t : ref) (cs : list Call) (w : World) : Prop :=
  match cs with
  | [] => True
  | c :: cs' =>
      ¬ acceptsBufferStart t c w
      ∧ ∀ w', step fuel c w = Some w' → noBufferStart fuel t cs' w'
  end.

(** The timing test of [buildBufferAttributes]: [att.timeSinceStarted] is
    undefined (or null), or less than 100. *)
Definition timingAllowsInitial (att : Bag) : bool :=
  is_nullish (get att "timeSinceStarted") || lt_num (get att "timeSinceStarted") 100.

(** The buffer type of a buffering episode that starts in state [s] with
    attributes [att]. *)
Definition startBufferType (att : Bag) (s : TrackerState) : string :=
  if timingAllowsInitial att && negb (initialBufferingHappened s) then "initial"
  else if bool_decide (phase s = SEEKING) then "seek"
  else "other".

(** The classification of a buffering episode as the specification words
    it: initial when the episode begins within 50 ms of the start and no
    buffering has completed for the view, seek when a seek-start preceded it
    with no playback in between, other otherwise. *)
Definition claimedBufferType (sinceStart : Z) (bufferingCompleted seekPreceded : bool)
  : string :=
  if (sinceStart <=? 50) && negb bufferingCompleted then "initial"
  else if seekPreceded then "seek"
  else "other".

(** The name and an attribute of the latest delivery. *)
Definition latestEvent (w : World) : option string :=
  d ← last (sink w); Some d.1.2.

Definition latestAttribute (key : string) (w : World) : option JsVal :=
  d ← last (sink w); bag ← d.2; bag !! key.

(** A content tracker whose first buffering starts one minute after the
    video started, and one whose first buffering starts with
    [att.timeSinceStarted] given as 70. *)
Definition lateBufferingWorld : World :=
  default emptyWorld
    (run 3 [New 0%nat; CallSendRequest 0%nat None; CallSendStart 0%nat None;
            Tick 60000; CallSendBufferStart 0%nat None] emptyWorld).

Definition bufferingAt70World : World :=
  default emptyWorld
    (run 3 [New 0%nat; CallSendRequest 0%nat None; CallSendStart 0%nat None;
            Tick 70;
            CallSendBufferStart 0%nat (Some (<["timeSinceStarted" := JNum 70]> ∅))]
       emptyWorld).

(** The names of the buffering events of a tracker in state [s]. *)
Definition bufferStartEvent (s : TrackerState) : string :=
  if TrackerState.isAd s then "AD_BUFFER_START" else "CONTENT_BUFFER_START".

Definition bufferEndEvent (s : TrackerState) : string :=
  if TrackerState.isAd s then "AD_BUFFER_END" else "CONTENT_BUFFER_END".

(** A content tracker that plays, the same tracker once it has started to
    buffer, and later on, after a duplicate [sendBufferStart]. *)
Definition playingWorld : World :=
  default emptyWorld
    (run 3 [New 0%nat; CallSendRequest 0%nat None; CallSendStart 0%nat None;
            Tick 10] emptyWorld).

Definition bufferingWorld : World :=
  default emptyWorld (sendBufferStart 3 0%nat None playingWorld).

Definition whileBuffering : list Call :=
  [Tick 500; HeartbeatTimer 0%nat; CallSendBufferStart 0%nat None; Tick 40].

Definition stillBufferingWorld : World :=
  default emptyWorld (run 3 whileBuffering bufferingWorld).

(** ** The operations a tracker performs on a state object *)

(** Every change that [videotracker.js] makes to a [TrackerState]: the
    transitions it calls and the fields it assigns. *)
Inductive StateOp : Type :=
| OpPlayerReady | OpRequest | OpStart | OpEnd | OpPause | OpResume
| OpBufferStart | OpBufferEnd | OpSeekStart | OpSeekEnd
| OpAdBreakStart | OpAdBreakEnd | OpHeartbeat
| OpViewCountUp | OpLastAd | OpAdQuartile | OpDownload | OpError
| OpRenditionChange
| OpTimeSince (name : string)
| OpIsAd (b : bool)
| OpIsPlaying (b : bool)
| OpInitialBufferingHappened (b : bool)
| OpTotalPlaytime (v : Z)
| OpTotalAdPlaytime (v : Z).

Definition runOp (op : StateOp) (n : Z) (s : TrackerState) : TrackerState :=
  match op with
  | OpPlayerReady => (TrackerState.goPlayerReady s).2
  | OpRequest => (TrackerState.goRequest n s).2
  | OpStart => (TrackerState.goStart n s).2
  | OpEnd => (TrackerState.goEnd n s).2
  | OpPause => (TrackerState.goPause n s).2
  | OpResume => (TrackerState.goResume n s).2
  | OpBufferStart => (TrackerState.goBufferStart n s).2
  | OpBufferEnd => (TrackerState.goBufferEnd n s).2
  | OpSeekStart => (TrackerState.goSeekStart n s).2
  | OpSeekEnd => (TrackerState.goSeekEnd n s).2
  | OpAdBreakStart => (TrackerState.goAdBreakStart n s).2
  | OpAdBreakEnd => (TrackerState.goAdBreakEnd n s).2
  | OpHeartbeat => (TrackerState.goHeartbeat n s).2
  | OpViewCountUp => TrackerState.goViewCountUp s
  | OpLastAd => TrackerState.goLastAd n s
  | OpAdQuartile => TrackerState.goAdQuartile n s
  | OpDownload => TrackerState.goDownload s
  | OpError => TrackerState.goError s
  | OpRenditionChange => TrackerState.goRenditionChange n s
  | OpTimeSince name => TrackerState.setTimeSinceAttribute name n s
  | OpIsAd b => TrackerState.setIsAd b s
  | OpIsPlaying b => TrackerState.set_isPlaying b s
  | OpInitialBufferingHappened b => TrackerState.set_initialBufferingHappened b s
  | OpTotalPlaytime v => TrackerState.set_totalPlaytime v s
  | OpTotalAdPlaytime v => TrackerState.set_totalAdPlaytime v s
  end.

(** A property of the state objects, by reference and instant, holds
    throughout the store; [None] is a reference that names no tracker. *)
Definition statesHold (P : ref → Z → option TrackerState → Prop) (w : World) : Prop :=
  ∀ x, P x (now w) (state <$> trackers w !! x).

(** [sendEnd] is called only on the trackers that [endOk] allows. *)
Definition callOk (endOk : ref → Prop) (c : Call) : Prop :=
  match c with
  | CallSendEnd x _ => endOk x
  | _ => True
  end.

(** The world [w'] was reached from [w] at the same instant, keeping the
    property. *)
Definition keeping (P : ref → Z → option TrackerState → Prop) (w w' : World) : Prop :=
  now w' = now w ∧ (statesHold P w → statesHold P w').

(** ** Well-formed phases *)

(** A phase in which a view is active. *)
Definition activePhase (p : PlaybackPhase) : bool :=
  match p with
  | REQUESTED | STARTED | PLAYING | PAUSED | BUFFERING | SEEKING => true
  | IDLE | READY | ENDED => false
  end.

(** The phases kept to return to after buffering and seeking are phases of
    an active view, or still the initial IDLE, and a tracker that is
    buffering or seeking has a phase to return to. *)
Definition phaseInv3 (p bR sR : PlaybackPhase) : bool :=
  (activePhase bR || bool_decide (bR = IDLE))
  && (activePhase sR || bool_decide (sR = IDLE))
  && (negb (bool_decide (bR = IDLE))
      || negb (bool_decide (p = BUFFERING)) && negb (bool_decide (sR = BUFFERING)))
  && (negb (bool_decide (sR = IDLE))
      || negb (bool_decide (p = SEEKING)) && negb (bool_decide (bR = SEEKING))).

Definition phaseInv (s : TrackerState) : bool :=
  phaseInv3 (phase s) (bufferReturn s) (seekReturn s).

Definition phaseOk (w : World) : Prop :=
  map_Forall (λ _ tr, phaseInv (state tr) = true) (trackers w).

(** The two properties of states that the call sequences keep. *)
Definition clockProp (x : ref) (n : Z) (o : option TrackerState) : Prop :=
  ∀ s, o = Some s → stateClockOk n s.

Definition requestedProp (t x : ref) (n : Z) (o : option TrackerState) : Prop :=
  (∀ s, o = Some s → phaseInv s = true)
  ∧ (x = t → ∃ s, o = Some s ∧ TrackerState.isRequested s = true).

(** The call is not a [sendEnd] on [t]. *)
Definition notSendEnd (t : ref) (c : Call) : Prop := callOk (λ x, x ≠ t) c.

(** The end-to-end scenario of the specification: a content tracker
    requests and starts, an ads tracker is attached and plays one ad, and
    the content ends 90 s later. *)
Definition scenarioCalls : list Call :=
  [New 0%nat; CallSendRequest 0%nat None; CallSendStart 0%nat None;
   New 1%nat; CallSetAdsTracker 0%nat (Some 1%nat);
   CallSendRequest 1%nat None; CallSendStart 1%nat None; Tick 30000;
   CallSendEnd 1%nat None; Tick 60000; CallSendEnd 0%nat None].

(** The names of the events delivered for tracker [t], oldest first. *)
Definition eventsOf (t : ref) (w : World) : list string :=
  (λ d : Delivery, d.1.2) <$> filter (λ d : Delivery, d.1.1 = t) (sink w).

(** The funnel bound to [p] is among the listeners of the tracker behind
    [c]. *)
Definition funnelsTo (c p : ref) (w : World) : Prop :=
  ∃ tr, trackers w !! c = Some tr ∧ FunnelAdEvents (Some p) ∈ listeners tr.

(** ** The guard of a call *)

(** The transition that guards a call of the [send*] family, with the
    tracker it is called on: the body of the method runs only when the
    transition returns true.  The two ad-break methods test [isAd()] first
    (lines 764 and 777).  The other calls have no guard. *)
Definition guardOf (c : Call) : option (ref * (Z → TrackerState → bool * TrackerState)) :=
  match c with
  | CallSendPlayerReady t _ => Some (t, λ _, TrackerState.goPlayerReady)
  | CallSendRequest t _ => Some (t, TrackerState.goRequest)
  | CallSendStart t _ => Some (t, TrackerState.goStart)
  | CallSendEnd t _ => Some (t, TrackerState.goEnd)
  | CallSendPause t _ => Some (t, TrackerState.goPause)
  | CallSendResume t _ => Some (t, TrackerState.goResume)
  | CallSendBufferStart t _ => Some (t, TrackerState.goBufferStart)
  | CallSendBufferEnd t _ => Some (t, TrackerState.goBufferEnd)
  | CallSendSeekStart t _ => Some (t, TrackerState.goSeekStart)
  | CallSendSeekEnd t _ => Some (t, TrackerState.goSeekEnd)
  | CallSendAdBreakStart t _ =>
      Some (t, λ n s, if TrackerState.isAd s
                      then TrackerState.goAdBreakStart n s else (false, s))
  | CallSendAdBreakEnd t _ =>
      Some (t, λ n s, if TrackerState.isAd s
                      then TrackerState.goAdBreakEnd n s else (false, s))
  | _ => None
  end.

(** The name under which a tracker with state [s] reports an error. *)
Definition errorEventOf (s : TrackerState) : string :=
  if TrackerState.isAd s then "AD_ERROR" else "CONTENT_ERROR".

(** ** What a call leaves of a world *)

(** The world [w'] continues [w]: the clock has not gone back, the sink and
    the log have only been appended to, and every tracker of [w] is still
    in the store, related by [R] to what it was. *)
Definition continues (R : ref → VideoTracker → VideoTracker → Prop)
    (w w' : World) : Prop :=
  now w ≤ now w'
  ∧ sink w `prefix_of` sink w'
  ∧ log w `prefix_of` log w'
  ∧ ∀ x tr, trackers w !! x = Some tr →
            ∃ tr', trackers w' !! x = Some tr' ∧ R x tr tr'.

(** The links between trackers are kept: one that had an ads tracker has
    one, and one that had a parent has one. *)
Definition linksKept (x : ref) (tr tr' : VideoTracker) : Prop :=
  (is_Some (adsTracker tr) → is_Some (adsTracker tr'))
  ∧ (is_Some (parentTracker tr) → is_Some (parentTracker tr')).

(** ** The chain of ads trackers *)

(** [adsChain w x y]: the tracker [y] is [x] or is reached from it through
    [adsTracker] fields. *)
Inductive adsChain (w : World) : ref → ref → Prop :=
| adsChain_here (x : ref) : adsChain w x x
| adsChain_below (x : ref) (tr : VideoTracker) (a y : ref) :
    trackers w !! x = Some tr → adsTracker tr = Some a →
    adsChain w a y → adsChain w x y.

Definition adsLinkOk (rank : ref → nat) (w : World) (x : ref) (tr : VideoTracker)
  : bool :=
  match adsTracker tr with
  | Some a =>
      bool_decide (rank a < rank x)%nat && bool_decide (is_Some (trackers w !! a))
  | None => true
  end.

(** The chains of ads trackers are finite: every ads tracker is in the
    store and ranks below the tracker that holds it. *)
Definition adsAcyclic (rank : ref → nat) (w : World) : Prop :=
  map_Forall (λ x tr, adsLinkOk rank w x tr = true) (trackers w).

(** The tracker behind [y] is disposed of: its heartbeat timer is stopped
    and it holds neither player nor tag. *)
Definition disposedAt (y : ref) (w : World) : Prop :=
  ∃ tr, trackers w !! y = Some tr ∧ heartbeatOn tr = false ∧ player tr = false.

(** What a disposal keeps of a tracker: the state, the links, the cached
    buffer type and renditions and the funnels bound to a parent; and it
    starts no timer, binds no player and adds no listener. *)
Definition disposeKeeps (x : ref) (tr tr' : VideoTracker) : Prop :=
  state tr' = state tr
  ∧ adsTracker tr' = adsTracker tr
  ∧ parentTracker tr' = parentTracker tr
  ∧ _lastBufferType tr' = _lastBufferType tr
  ∧ _lastRendition tr' = _lastRendition tr
  ∧ _lastAdRendition tr' = _lastAdRendition tr
  ∧ renditionBitrate tr' = renditionBitrate tr
  ∧ (∀ p, FunnelAdEvents (Some p) ∈ listeners tr →
          FunnelAdEvents (Some p) ∈ listeners tr')
  ∧ (∀ cb, cb ∈ listeners tr' → cb ∈ listeners tr)
  ∧ (heartbeatOn tr = false → heartbeatOn tr' = false)
  ∧ (player tr = false → player tr' = false).

(** The unbound [funnelAdEvents] is not among the listeners of [y]. *)
Definition unboundFree (y : ref) (w : World) : Prop :=
  ∃ tr, trackers w !! y = Some tr ∧ FunnelAdEvents None ∉ listeners tr.

(** ** Binding a player *)

(** Lines 81-94.  [playerGiven] and [tagGiven] tell whether the two
    arguments, once strings are resolved through [document.getElementById],
    are objects; the [player] field of a tracker is true when [this.player]
    or [this.tag] is set, which is what the guard of the first line tests
    and, since the tag defaults to the player, what the two assignments
    yield.  [registerListeners] does nothing at this layer. *)
Definition setPlayer (fuel : nat) (t : ref) (playerGiven tagGiven : bool)
    (w : World) : option World :=
  tr ← trackers w !! t;
  w1 ← (if player tr then dispose fuel t w else Some w);
  Some (modify t (set_player (playerGiven || tagGiven)) w1).

(** A content tracker with a player bound, in a requested view. *)
Definition boundWorld : World :=
  default emptyWorld
    (w ← run 3 [New 0%nat; CallSendRequest 0%nat None] emptyWorld;
     setPlayer 3 0%nat true false w).

(** The name of the heartbeat of a tracker with state [s]. *)
Definition heartbeatEventOf (s : TrackerState) : string :=
  if TrackerState.isAd s then "AD_HEARTBEAT" else "CONTENT_HEARTBEAT".

(** The small page after its ads tracker has requested an ad. *)
Definition requestedAdWorld : World :=
  default emptyWorld (run 5 (demoCalls ++ [CallSendRequest 1%nat None]) emptyWorld).

(** The name of the rendition change of a tracker with state [s]. *)
Definition renditionEventOf (s : TrackerState) : string :=
  if TrackerState.isAd s then "AD_RENDITION_CHANGE" else "CONTENT_RENDITION_CHANGE".

(** The small page in an ad break, with an ad requested. *)
Definition adBreakWorld : World :=
  default emptyWorld
    (run 5 (demoCalls ++ [CallSendAdBreakStart 1%nat None;
                          CallSendRequest 1%nat None]) emptyWorld).

(** ** Nested ads trackers *)

(** [funnelReach w c p]: the events of [c] are funnelled to [p], directly
    or through the trackers in between. *)
Inductive funnelReach (w : World) : ref → ref → Prop :=
| funnelReach_one (c p : ref) : funnelsTo c p w → funnelReach w c p
| funnelReach_more (c q p : ref) :
    funnelsTo c q w → funnelReach w q p → funnelReach w c p.

(** A page with three levels: a content tracker [0], its ads tracker [1],
    and an ads tracker [2] of that one. *)
Definition nestedWorld : World :=
  default emptyWorld
    (run 5 [New 0%nat; New 1%nat; New 2%nat;
            CallSetAdsTracker 0%nat (Some 1%nat);
            CallSetAdsTracker 1%nat (Some 2%nat)] emptyWorld).

(** ** Within a view *)

(** The operations that [sendEnd], and no other method, performs on the
    state of the tracker it is called on. *)
Definition viewOp (op : StateOp) : bool :=
  match op with
  | OpEnd | OpViewCountUp | OpTotalPlaytime _ => true
  | _ => false
  end.

(** [initialBufferingHappened] is only ever assigned true (line 635). *)
Definition unusedOp (op : StateOp) : bool :=
  match op with
  | OpInitialBufferingHappened false => true
  | _ => false
  end.

(** The phases are well formed, and the view of [t] is requested and has
    completed a buffering. *)
Definition bufferedProp (t x : ref) (n : Z) (o : option TrackerState) : Prop :=
  (∀ s, o = Some s → phaseInv s = true)
  ∧ (x = t → ∃ s, o = Some s ∧ TrackerState.isRequested s = true
                  ∧ initialBufferingHappened s = true).

(** ** The event of a call *)

(** The name of the event that a guarded call delivers, by the ad flag of
    the tracker: the constants of [VideoTracker.Events] that the methods
    pass to [send] (lines 826-894). *)
Definition eventNameOf (c : Call) (ad : bool) : string :=
  match c with
  | CallSendPlayerReady _ _ => "PLAYER_READY"
  | CallSendRequest _ _ => if ad then "AD_REQUEST" else "CONTENT_REQUEST"
  | CallSendStart _ _ => if ad then "AD_START" else "CONTENT_START"
  | CallSendEnd _ _ => if ad then "AD_END" else "CONTENT_END"
  | CallSendPause _ _ => if ad then "AD_PAUSE" else "CONTENT_PAUSE"
  | CallSendResume _ _ => if ad then "AD_RESUME" else "CONTENT_RESUME"
  | CallSendBufferStart _ _ => if ad then "AD_BUFFER_START" else "CONTENT_BUFFER_START"
  | CallSendBufferEnd _ _ => if ad then "AD_BUFFER_END" else "CONTENT_BUFFER_END"
  | CallSendSeekStart _ _ => if ad then "AD_SEEK_START" else "CONTENT_SEEK_START"
  | CallSendSeekEnd _ _ => if ad then "AD_SEEK_END" else "CONTENT_SEEK_END"
  | CallSendAdBreakStart _ _ => "AD_BREAK_START"
  | CallSendAdBreakEnd _ _ => "AD_BREAK_END"
  | _ => ""
  end.

(** ** Duplicated calls *)

(** What the guards read of a state: the phase and the flags [isStarted],
    [isAdBreak] and [isAd]. *)
Definition guardView (s : TrackerState) : PlaybackPhase * bool * bool * bool :=
  (phase s, isStarted s, isAdBreak s, st_isAd s).

(** The phase kept for the end of a buffering is not BUFFERING itself, and
    the one kept for the end of a seek is not SEEKING. *)
Definition returnsOk (s : TrackerState) : bool :=
  negb (bool_decide (bufferReturn s = BUFFERING))
  && negb (bool_decide (seekReturn s = SEEKING)).

(** The same call with other attributes. *)
Definition withAtt (att : option Bag) (c : Call) : Call :=
  match c with
  | CallSendCustom t a n _ => CallSendCustom t a n att
  | CallSendPlayerReady t _ => CallSendPlayerReady t att
  | CallSendRequest t _ => CallSendRequest t att
  | CallSendStart t _ => CallSendStart t att
  | CallSendEnd t _ => CallSendEnd t att
  | CallSendPause t _ => CallSendPause t att
  | CallSendResume t _ => CallSendResume t att
  | CallSendBufferStart t _ => CallSendBufferStart t att
  | CallSendBufferEnd t _ => CallSendBufferEnd t att
  | CallSendSeekStart t _ => CallSendSeekStart t att
  | CallSendSeekEnd t _ => CallSendSeekEnd t att
  | CallSendDownload t _ => CallSendDownload t att
  | CallSendError t _ => CallSendError t att
  | CallSendRenditionChanged t _ => CallSendRenditionChanged t att
  | CallSendHeartbeat t _ => CallSendHeartbeat t att
  | CallSendAdBreakStart t _ => CallSendAdBreakStart t att
  | CallSendAdBreakEnd t _ => CallSendAdBreakEnd t att
  | CallSendAdQuartile t _ => CallSendAdQuartile t att
  | CallSendAdClick t _ => CallSendAdClick t att
  | _ => c
  end.

(** * Properties *)

(** ** Assignments through references *)

Lemma set_trackers_same (w : World) : set_trackers (trackers w) w = w.
Proof. by destruct w. Qed.

Lemma set_state_same (tr : VideoTracker) : set_state (state tr) tr = tr.
Proof. by destruct tr. Qed.

Lemma modify_same (t : ref) (f : VideoTracker → VideoTracker) (w : World)
    (tr : VideoTracker) :
  trackers w !! t = Some tr → f tr = tr → modify t f w = w.
Proof.
  intros Hl Hf. unfold modify.
  rewrite alter_id; [apply set_trackers_same|].
  intros x Hx. congruence.
Qed.

Lemma modifyState_same (t : ref) (f : TrackerState → TrackerState) (w : World)
    (tr : VideoTracker) :
  trackers w !! t = Some tr → f (state tr) = state tr → modifyState t f w = w.
Proof.
  intros Hl Hf. apply (modify_same t _ w tr Hl).
  rewrite Hf. apply set_state_same.
Qed.

Lemma lookup_modify (t t' : ref) (f : VideoTracker → VideoTracker) (w : World) :
  trackers (modify t f w) !! t'
  = if decide (t = t') then f <$> trackers w !! t else trackers w !! t'.
Proof. unfold modify. simpl. apply lookup_alter. Qed.

Lemma lookup_modify_eq (t : ref) (f : VideoTracker → VideoTracker) (w : World) :
  trackers (modify t f w) !! t = f <$> trackers w !! t.
Proof. rewrite lookup_modify. by rewrite decide_True. Qed.

Lemma lookup_modify_ne (t t' : ref) (f : VideoTracker → VideoTracker) (w : World) :
  t ≠ t' → trackers (modify t f w) !! t' = trackers w !! t'.
Proof. intros. rewrite lookup_modify. by rewrite decide_False. Qed.

Lemma go_rejected (g : TrackerState → bool * TrackerState) (t : ref) (w : World)
    (tr : VideoTracker) :
  trackers w !! t = Some tr → g (state tr) = (false, state tr) →
  go g t w = Some (false, w).
Proof.
  intros Hl Hg. unfold go. rewrite Hl. simpl. rewrite Hg. simpl.
  rewrite (modifyState_same t _ w tr Hl); [done|]. by rewrite Hg.
Qed.

(** ** The ad flag gates the ad-only operations *)

(** C6.  On a tracker whose [isAd] flag is false, [sendAdQuartile] and
    [sendAdClick] return at once: the world after the call is the world
    before it, so nothing is delivered or logged and no state changes. *)
Theorem C6_ad_only_gated (fuel : nat) (t : ref) (att : option Bag) (w : World)
    (tr : VideoTracker) :
  trackers w !! t = Some tr →
  TrackerState.isAd (state tr) = false →
  sendAdQuartile fuel t att w = Some w ∧ sendAdClick fuel t att w = Some w.
Proof.
  intros Hl Had. unfold sendAdQuartile, sendAdClick, isAd.
  rewrite Hl. simpl. by rewrite Had.
Qed.

Lemma C6_ad_only_gated_witness :
  sendAdQuartile 3 0%nat (Some (<["quartile" := JNum 2]> ∅)) demoWorld
    = Some demoWorld
  ∧ sendAdClick 3 0%nat (Some (<["quartile" := JNum 2]> ∅)) demoWorld
    = Some demoWorld.
Proof.
  apply (C6_ad_only_gated 3 0%nat _ demoWorld
           (default (newTracker 0) (trackers demoWorld !! 0%nat)));
    vm_compute; reflexivity.
Defined.

(** ** Rendition shift *)

Lemma falsy_false (v : option Z) :
  falsy v = false → ∃ n, v = Some n ∧ n ≠ 0.
Proof.
  destruct v as [n|]; simpl; [|discriminate].
  intros H. exists n. split; [done|]. by apply Z.eqb_neq.
Qed.

Lemma getRenditionShift_value (save : bool) (tr : VideoTracker) :
  (getRenditionShift save tr).1
  = if falsy (getRenditionBitrate tr) || falsy (roleLast tr) then JNull
    else if default 0 (getRenditionBitrate tr) >? default 0 (roleLast tr)
         then JStr "up"
    else if default 0 (getRenditionBitrate tr) <? default 0 (roleLast tr)
         then JStr "down"
    else JNull.
Proof.
  unfold getRenditionShift, roleLast.
  destruct (TrackerState.isAd (state tr)); simpl;
    repeat (match goal with |- context [if ?b then _ else _] => destruct b end;
            simpl; try reflexivity).
Qed.

Lemma getRenditionShift_tracker (save : bool) (tr : VideoTracker) :
  (getRenditionShift save tr).2
  = if save
    then if TrackerState.isAd (state tr)
         then set_lastAdRendition (getRenditionBitrate tr) tr
         else set_lastRendition (getRenditionBitrate tr) tr
    else tr.
Proof.
  unfold getRenditionShift.
  destruct (TrackerState.isAd (state tr)), save; simpl;
    repeat (match goal with |- context [if ?b then _ else _] => destruct b end;
            simpl; try reflexivity).
Qed.

(** C4, the claim as stated fails: with a current bitrate of 0 and a last
    bitrate of 500 both values are present and the current one is smaller,
    yet the method returns null, not down, because [!current] holds for 0. *)
Lemma C4_zero_bitrate_is_not_down :
  (getRenditionShift false (trackerWithRenditions (Some 0) (Some 500))).1 = JNull
  ∧ claimedShift (Some 0) (Some 500) = JStr "down".
Proof. split; reflexivity. Qed.

(** C4, amended.  For every tracker and every value of [saveNewRendition],
    [getRenditionShift] compares the current rendition bitrate with the last
    bitrate recorded for the tracker's role: it returns up when both are
    present and not 0 and the current one is greater, down when it is
    smaller, and null when they are equal or when either is absent or 0.
    When [saveNewRendition] is true the current bitrate becomes the
    baseline of that role and the slot of the other role is left alone;
    when it is false the tracker is unchanged.  With a prior bitrate of 500
    and a current bitrate of 800 saved, the result is up; a next call at
    800 gives null, and a call at 300 gives down. *)
Theorem C4_rendition_shift (save : bool) (tr : VideoTracker) :
  (∀ c l, getRenditionBitrate tr = Some c → roleLast tr = Some l →
          c ≠ 0 → l ≠ 0 →
          (l < c → (getRenditionShift save tr).1 = JStr "up")
          ∧ (c < l → (getRenditionShift save tr).1 = JStr "down")
          ∧ (c = l → (getRenditionShift save tr).1 = JNull))
  ∧ (falsy (getRenditionBitrate tr) = true ∨ falsy (roleLast tr) = true →
     (getRenditionShift save tr).1 = JNull)
  ∧ (getRenditionShift save tr).2
    = (if save
       then if TrackerState.isAd (state tr)
            then set_lastAdRendition (getRenditionBitrate tr) tr
            else set_lastRendition (getRenditionBitrate tr) tr
       else tr)
  ∧ (save = true →
     roleLast (getRenditionShift save tr).2 = getRenditionBitrate tr)
  ∧ (roleLast tr = Some 500 →
     ∀ save2 save3,
       let r1 := getRenditionShift true (set_renditionBitrate (Some 800) tr) in
       let r2 := getRenditionShift save2 r1.2 in
       let r3 := getRenditionShift save3 (set_renditionBitrate (Some 300) r2.2) in
       r1.1 = JStr "up" ∧ r2.1 = JNull ∧ r3.1 = JStr "down").
Proof.
  repeat split.
  - intros Hlt. rewrite getRenditionShift_value, H, H0. simpl.
    destruct (Z.eqb_spec c 0), (Z.eqb_spec l 0); try lia. simpl.
    destruct (Z.gtb_spec c l); [done|lia].
  - intros Hlt. rewrite getRenditionShift_value, H, H0. simpl.
    destruct (Z.eqb_spec c 0), (Z.eqb_spec l 0); try lia. simpl.
    destruct (Z.gtb_spec c l); [lia|].
    destruct (Z.ltb_spec c l); [done|lia].
  - intros Heq. rewrite getRenditionShift_value, H, H0. simpl.
    destruct (Z.eqb_spec c 0), (Z.eqb_spec l 0); try lia. simpl.
    destruct (Z.gtb_spec c l); [lia|].
    destruct (Z.ltb_spec c l); [lia|done].
  - intros Hf. rewrite getRenditionShift_value.
    destruct Hf as [-> | ->]; [done|]. by rewrite orb_true_r.
  - apply getRenditionShift_tracker.
  - intros ->. rewrite getRenditionShift_tracker. unfold roleLast.
    by destruct tr as [[[] ? ? ? ? ? ? ? ? ? ? ? ? ? ?] ? ? ? ? ? ? ? ? ?].
  - rewrite getRenditionShift_value.
    replace (roleLast (set_renditionBitrate (Some 800) tr)) with (Some 500)
      by (rewrite <- H; unfold roleLast; by destruct (TrackerState.isAd _)).
    reflexivity.
  - rewrite getRenditionShift_value, !getRenditionShift_tracker.
    unfold roleLast.
    by destruct tr as [[[] ? ? ? ? ? ? ? ? ? ? ? ? ? ?] ? ? ? ? ? ? ? ? ?].
  - rewrite getRenditionShift_value, !getRenditionShift_tracker.
    unfold roleLast.
    by destruct save2, tr as [[[] ? ? ? ? ? ? ? ? ? ? ? ? ? ?] ? ? ? ? ? ? ? ? ?].
Qed.

Lemma C4_rendition_shift_witness :
  (getRenditionShift true (trackerWithRenditions (Some 800) (Some 500))).1
  = JStr "up".
Proof.
  destruct (C4_rendition_shift true (trackerWithRenditions (Some 800) (Some 500)))
    as [H _].
  apply (H 800 500); [reflexivity | reflexivity | lia | lia | lia].
Defined.

(** ** What [send] does to the world *)

Lemma set_sink_set_sink (l1 l2 : list Delivery) (w : World) :
  set_sink l2 (set_sink l1 w) = set_sink l2 w.
Proof. reflexivity. Qed.

Lemma set_sink_same (w : World) : set_sink (sink w) w = w.
Proof. by destruct w. Qed.

Lemma foldl_bind_None {A B : Type} (f : A → B → option A) (l : list B) :
  foldl (λ acc b, a ← acc; f a b) None l = None.
Proof. induction l; simpl; auto. Qed.

(** The listeners only ever see the event that was sent: every delivery of
    a [send] carries its name and its attributes, and nothing but the sink
    changes. *)
Lemma send_sink (fuel : nat) :
  ∀ (t : ref) (ev : string) (att : option Bag) (w w' : World),
    Tracker.send fuel t ev att w = Some w' →
    ∃ l, w' = set_sink (sink w ++ (t, ev, att) :: l) w
         ∧ Forall (λ d : Delivery, d.1.2 = ev ∧ d.2 = att) l.
Proof.
  induction fuel as [|f IH]; intros t ev att w w' Hs; [discriminate|].
  simpl in Hs. destruct (trackers w !! t) as [tr|]; [|discriminate].
  simpl in Hs.
  assert (Hfold : ∀ (ls : list Callback) (l0 : list Delivery),
    foldl (λ acc cb, w1 ← acc; invoke (Tracker.send f) cb (MkEvent ev att t) w1)
          (Some (set_sink (sink w ++ l0) w)) ls = Some w' →
    Forall (λ d : Delivery, d.1.2 = ev ∧ d.2 = att) l0 →
    ∃ l, w' = set_sink (sink w ++ l) w
         ∧ Forall (λ d : Delivery, d.1.2 = ev ∧ d.2 = att) l
         ∧ ∃ k : list Delivery, l = l0 ++ k).
  { induction ls as [|cb ls IHls]; intros l0 Hf Hl0; simpl in Hf.
    - inversion Hf; subst. exists l0. split; [done|]. split; [done|].
      exists []. by rewrite app_nil_r.
    - destruct cb as [[p|]]; simpl in Hf.
      + destruct (Tracker.send f p ev att (set_sink (sink w ++ l0) w))
          as [w2|] eqn:Hp; [|by rewrite foldl_bind_None in Hf].
        apply IH in Hp as (l & -> & Hl). simpl in Hf.
        rewrite <- app_assoc in Hf.
        apply IHls in Hf as (l' & -> & Hl' & k & ->).
        * exists (l0 ++ (p, ev, att) :: l ++ k). split; [|split].
          -- by rewrite <- !app_assoc.
          -- by rewrite <- app_assoc in Hl'.
          -- by exists ((p, ev, att) :: l ++ k).
        * apply Forall_app. split; [done|]. by constructor.
      + by rewrite foldl_bind_None in Hf. }
  unfold Tracker.deliver in Hs.
  apply (Hfold _ [(t, ev, att)]) in Hs as (l & -> & Hl & k & ->).
  - exists k. split; [done|]. by inversion Hl.
  - by constructor.
Qed.

Lemma send_trackers (fuel : nat) (t : ref) (ev : string) (att : option Bag)
    (w w' : World) :
  Tracker.send fuel t ev att w = Some w' →
  trackers w' = trackers w ∧ now w' = now w ∧ randoms w' = randoms w
  ∧ log w' = log w.
Proof. intros H. by apply send_sink in H as (l & -> & _). Qed.

Lemma funnelAcyclic_set_sink (rank : ref → nat) (l : list Delivery) (w : World) :
  funnelAcyclic rank w → funnelAcyclic rank (set_sink l w).
Proof. done. Qed.

(** With acyclic funnels and fuel above the rank of the emitter, [send]
    returns: it delivers the event for the emitter first, and then only for
    trackers that rank below it. *)
Lemma send_returns (rank : ref → nat) (fuel : nat) :
  ∀ (t : ref) (ev : string) (att : option Bag) (w : World),
    funnelAcyclic rank w → is_Some (trackers w !! t) → (rank t < fuel)%nat →
    ∃ l, Tracker.send fuel t ev att w
         = Some (set_sink (sink w ++ (t, ev, att) :: l) w)
         ∧ Forall (λ d : Delivery,
                     (rank d.1.1 < rank t)%nat ∧ d.1.2 = ev ∧ d.2 = att) l.
Proof.
  induction fuel as [|f IH]; intros t ev att w Hac [tr Htr] Hr; [lia|].
  cbn [Tracker.send]. rewrite Htr. cbn [mbind option_bind].
  pose proof (map_Forall_lookup_1 _ _ _ _ Hac Htr) as Hls. simpl in Hls.
  apply Is_true_true_2, forallb_True in Hls.
  unfold Tracker.deliver.
  assert (Hfold : ∀ (ls : list Callback) (l0 : list Delivery),
    Forall (λ cb, listenerOk rank w t cb) ls →
    ∃ k, foldl (λ acc cb, w1 ← acc;
                  invoke (Tracker.send f) cb (MkEvent ev att t) w1)
               (Some (set_sink (sink w ++ l0) w)) ls
         = Some (set_sink (sink w ++ l0 ++ k) w)
         ∧ Forall (λ d : Delivery,
                     (rank d.1.1 < rank t)%nat ∧ d.1.2 = ev ∧ d.2 = att) k).
  { induction ls as [|cb ls IHls]; intros l0 Hok; cbn [foldl].
    - exists []. by rewrite app_nil_r.
    - inversion Hok as [|? ? Hcb Hrest]; subst.
      destruct cb as [[p|]]; simpl in Hcb; [|done].
      apply andb_True in Hcb as [Hrk Hex].
      apply bool_decide_unpack in Hrk. apply bool_decide_unpack in Hex.
      destruct (IH p ev att (set_sink (sink w ++ l0) w)) as (l & Hsend & Hl);
        [done | done | lia |].
      assert (Hsend' : Tracker.send f p ev att (set_sink (sink w ++ l0) w)
                       = Some (set_sink (sink w ++ l0 ++ (p, ev, att) :: l) w)).
      { rewrite Hsend. simpl. by rewrite <- app_assoc. }
      destruct (IHls (l0 ++ (p, ev, att) :: l) Hrest) as (k & Hk1 & Hk).
      exists ((p, ev, att) :: l ++ k). split.
      + cbn [mbind option_bind invoke funnelAdEvents type data].
        rewrite Hsend', Hk1. by rewrite <- !app_assoc.
      + constructor; [done|]. apply Forall_app. split; [|done].
        eapply Forall_impl; [exact Hl|]. simpl. intros d (? & ? & ?).
        split; [lia|done]. }
  destruct (Hfold (listeners tr) [(t, ev, att)] Hls) as (k & Hk1 & Hk).
  exists k. split; [|done]. exact Hk1.
Qed.

(** ** Missing required fields *)

Lemma get_missing (att : Bag) (k : string) :
  att !! k = None → truthy (get att k) = false.
Proof. intros H. unfold get. by rewrite H. Qed.

(** C7.  [sendDownload] without [att.state], and on an ad tracker
    [sendAdQuartile] without [att.quartile] and [sendAdClick] without
    [att.url], return normally (given acyclic funnels and enough fuel),
    append exactly one warning to the log and still deliver their event;
    the delivered bag has no entry for the missing field. *)
Theorem C7_missing_field_warns_and_emits (rank : ref → nat) (fuel : nat)
    (t : ref) (att : option Bag) (w : World) (tr : VideoTracker) :
  funnelAcyclic rank w → trackers w !! t = Some tr → (rank t < fuel)%nat →
  (or_empty att !! "state" = None →
   ∃ w' l,
     sendDownload fuel t att w = Some w'
     ∧ log w' = log w ++ [Warn "Called sendDownload without { state: xxxxx }."]
     ∧ sink w' = sink w ++ (t, "DOWNLOAD", Some (or_empty att)) :: l)
  ∧ (TrackerState.isAd (state tr) = true → or_empty att !! "quartile" = None →
     ∃ w' l bag,
       sendAdQuartile fuel t att w = Some w'
       ∧ log w' = log w ++ [Warn "Called sendAdQuartile without { quartile: xxxxx }."]
       ∧ sink w' = sink w ++ (t, "AD_QUARTILE", Some bag) :: l
       ∧ bag !! "quartile" = None)
  ∧ (TrackerState.isAd (state tr) = true → or_empty att !! "url" = None →
     ∃ w' l,
       sendAdClick fuel t att w = Some w'
       ∧ log w' = log w ++ [Warn "Called sendAdClick without { url: xxxxx }."]
       ∧ sink w' = sink w ++ (t, "AD_CLICK", Some (or_empty att)) :: l).
Proof.
  intros Hac Htr Hfuel. split; [|split].
  - intros Hmiss. unfold sendDownload.
    rewrite (get_missing _ _ Hmiss). simpl negb. cbv iota.
    destruct (send_returns rank fuel t "DOWNLOAD" (Some (or_empty att))
                (Log_warn "Called sendDownload without { state: xxxxx }." w))
      as (l & Hs & _); [done | by exists tr | done |].
    rewrite Hs. eexists _, l. split; [reflexivity|]. by split.
  - intros Had Hmiss. unfold sendAdQuartile, isAd, deltaTime.
    rewrite Htr. simpl. rewrite Had.
    rewrite (get_missing _ _ Hmiss). simpl negb. cbv iota.
    simpl. rewrite Htr. simpl.
    match goal with |- context [Tracker.send fuel t ?e ?b ?w0] =>
      destruct (send_returns rank fuel t e b w0) as (l & Hs & _);
        [done | by exists tr | done |]; rewrite Hs end.
    eexists _, l, _. split; [reflexivity|]. split; [done|]. split; [done|].
    by rewrite lookup_insert_ne.
  - intros Had Hmiss. unfold sendAdClick, isAd.
    rewrite Htr. simpl. rewrite Had.
    rewrite (get_missing _ _ Hmiss). simpl negb. cbv iota.
    destruct (send_returns rank fuel t "AD_CLICK" (Some (or_empty att))
                (Log_warn "Called sendAdClick without { url: xxxxx }." w))
      as (l & Hs & _); [done | by exists tr | done |].
    rewrite Hs. by eexists _, l.
Qed.

Lemma demoWorld_acyclic : funnelAcyclic (λ r, r) demoWorld.
Proof. apply (bool_decide_unpack _). vm_compute. exact I. Qed.

Lemma C7_missing_field_warns_and_emits_witness :
  (∃ w' l,
     sendDownload 3 1%nat None demoWorld = Some w'
     ∧ log w' = log demoWorld
                ++ [Warn "Called sendDownload without { state: xxxxx }."]
     ∧ sink w' = sink demoWorld ++ (1%nat, "DOWNLOAD", Some ∅) :: l)
  ∧ (∃ w' l bag,
       sendAdQuartile 3 1%nat None demoWorld = Some w'
       ∧ log w' = log demoWorld
                  ++ [Warn "Called sendAdQuartile without { quartile: xxxxx }."]
       ∧ sink w' = sink demoWorld ++ (1%nat, "AD_QUARTILE", Some bag) :: l
       ∧ bag !! "quartile" = None).
Proof.
  destruct (C7_missing_field_warns_and_emits (λ r, r) 3 1%nat None demoWorld
              (default (newTracker 0) (trackers demoWorld !! 1%nat)))
    as (H1 & H2 & _).
  - exact demoWorld_acyclic.
  - vm_compute. reflexivity.
  - lia.
  - split; [apply H1 | apply H2]; reflexivity.
Defined.

(** ** View identity along the parent chain *)

Lemma getViewId_root (w : World) (t r : ref) (n : nat) :
  rootOf w t r n → ∀ fuel, (n < fuel)%nat →
  getViewId fuel t w = state_getViewId r w
  ∧ getViewSession fuel t w = state_getViewSession r w.
Proof.
  induction 1 as [t tr Htr Hp | t p r n tr Htr Hp _ IH];
    intros [|fuel] Hf; try lia; simpl; rewrite Htr; simpl; rewrite Hp.
  - done.
  - apply IH. lia.
Qed.

Lemma state_getViewId_known (w : World) (r : ref) (rtr : VideoTracker)
    (s : SessionId) :
  trackers w !! r = Some rtr → viewSession (state rtr) = Some s →
  state_getViewId r w = Some ((s, viewCount (state rtr)), w)
  ∧ state_getViewSession r w = Some (s, w).
Proof.
  intros Hr Hs. unfold state_getViewId, state_getViewSession.
  rewrite Hr. simpl. unfold TrackerState.getViewId, TrackerState.getViewSession.
  rewrite Hs. simpl. by rewrite (modifyState_same r _ w rtr Hr).
Qed.



(** ** Reading the world after assignments *)

Lemma go_Some (g : TrackerState → bool * TrackerState) (t : ref) (w : World)
    (tr : VideoTracker) :
  trackers w !! t = Some tr →
  go g t w = Some ((g (state tr)).1, modifyState t (λ s, (g s).2) w).
Proof. intros Hl. unfold go. by rewrite Hl. Qed.

Lemma lookup_modifyState_eq (t : ref) (f : TrackerState → TrackerState) (w : World) :
  trackers (modifyState t f w) !! t
  = (λ tr, set_state (f (state tr)) tr) <$> trackers w !! t.
Proof. apply lookup_modify_eq. Qed.


Ltac wsimpl :=
  cbn [fst snd mbind option_bind fmap option_fmap option_map default
       state adsTracker parentTracker _lastBufferType _lastRendition
       _lastAdRendition renditionBitrate listeners heartbeatOn player
       set_state set_adsTracker set_parentTracker set_lastBufferType
       set_lastRendition set_lastAdRendition set_renditionBitrate set_listeners
       set_heartbeatOn set_player
       trackers now randoms sink log set_trackers set_now set_randoms set_sink
       set_log Log_warn Tracker.deliver].

Lemma isAd_goEnd (n : Z) (s : TrackerState) :
  TrackerState.isAd (TrackerState.goEnd n s).2 = TrackerState.isAd s.
Proof. unfold TrackerState.goEnd. by destruct (TrackerState.isRequested s). Qed.

Lemma is_Some_lookup_modify (t t' : ref) (f : VideoTracker → VideoTracker) (w : World) :
  is_Some (trackers (modify t f w) !! t') ↔ is_Some (trackers w !! t').
Proof.
  rewrite lookup_modify. destruct (decide (t = t')) as [->|]; [|done].
  by rewrite fmap_is_Some.
Qed.

Lemma funnelAcyclic_alt (rank : ref → nat) (w : World) :
  funnelAcyclic rank w ↔
  ∀ t tr cb, trackers w !! t = Some tr → cb ∈ listeners tr →
             ∃ p, cb = FunnelAdEvents (Some p) ∧ (rank p < rank t)%nat
                  ∧ is_Some (trackers w !! p).
Proof.
  unfold funnelAcyclic. rewrite map_Forall_lookup. split.
  - intros H t tr cb Ht Hcb. specialize (H t tr Ht). simpl in H.
    apply Is_true_true_2, forallb_True in H.
    rewrite Forall_forall in H. specialize (H cb Hcb).
    destruct cb as [[p|]]; simpl in H; [|done].
    apply andb_True in H as [H1 H2].
    apply bool_decide_unpack in H1. apply bool_decide_unpack in H2.
    by exists p.
  - intros H t tr Ht. simpl. apply Is_true_true_1, forallb_True.
    rewrite Forall_forall. intros cb Hcb.
    destruct (H t tr cb Ht Hcb) as (p & -> & H1 & H2). simpl.
    apply andb_True. split; by apply bool_decide_pack.
Qed.

Lemma funnelAcyclic_modify (f : VideoTracker → VideoTracker) (rank : ref → nat)
    (t : ref) (w : World) :
  (∀ tr, listeners (f tr) = listeners tr) →
  funnelAcyclic rank w → funnelAcyclic rank (modify t f w).
Proof.
  intros Hf. rewrite !funnelAcyclic_alt. intros Hac t' tr' cb.
  rewrite lookup_modify. intros Ht Hcb.
  assert (∃ tr0, trackers w !! t' = Some tr0 ∧ cb ∈ listeners tr0)
    as (tr0 & Ht0 & Hcb0).
  { destruct (decide (t = t')) as [->|]; [|by exists tr'].
    destruct (trackers w !! t') as [tr0|]; [|done].
    simpl in Ht. injection Ht as <-. exists tr0. by rewrite <- Hf. }
  destruct (Hac t' tr0 cb Ht0 Hcb0) as (p & -> & Hr & Hp).
  exists p. split; [done|]. split; [done|]. by apply is_Some_lookup_modify.
Qed.

Lemma funnelAcyclic_modifyState (g : TrackerState → TrackerState)
    (rank : ref → nat) (t : ref) (w : World) :
  funnelAcyclic rank w → funnelAcyclic rank (modifyState t g w).
Proof. by apply funnelAcyclic_modify. Qed.


Lemma now_modify t f w : now (modify t f w) = now w.
Proof. reflexivity. Qed.
Lemma sink_modify t f w : sink (modify t f w) = sink w.
Proof. reflexivity. Qed.
Lemma log_modify t f w : log (modify t f w) = log w.
Proof. reflexivity. Qed.
Lemma randoms_modify t f w : randoms (modify t f w) = randoms w.
Proof. reflexivity. Qed.
Lemma trackers_set_sink l w : trackers (set_sink l w) = trackers w.
Proof. reflexivity. Qed.
Lemma modify_set_sink t f l w : modify t f (set_sink l w) = set_sink l (modify t f w).
Proof. reflexivity. Qed.

Ltac wunfold :=
  unfold Tracker.stopHeartbeat, Tracker.startHeartbeat, Tracker.on, Tracker.off,
    setIsAd, modifyState in *.

Ltac wrew :=
  repeat first
    [ rewrite now_modify | rewrite sink_modify | rewrite log_modify
    | rewrite randoms_modify | rewrite modify_set_sink
    | rewrite trackers_set_sink | rewrite lookup_modify_eq
    | progress wsimpl ].

Lemma viewCount_goEnd (n : Z) (s : TrackerState) :
  TrackerState.isRequested s = true →
  viewCount (TrackerState.goEnd n s).2 = (viewCount s + 1)%N.
Proof. intros H. unfold TrackerState.goEnd. by rewrite H. Qed.

(** ** Ending the content view *)

(** C2.  On a content tracker whose state accepts [goEnd], [sendEnd]
    returns (given acyclic funnels and enough fuel), delivers CONTENT_END,
    and leaves the tracker's state as [goViewCountUp] made it with
    [totalPlaytime] set to 0: the number of the view, and with it the view
    id of the state, is new. *)
Theorem C2_content_end (rank : ref → nat) (fuel : nat) (t : ref)
    (att : option Bag) (w : World) (tr : VideoTracker) :
  funnelAcyclic rank w → trackers w !! t = Some tr → (rank t < fuel)%nat →
  TrackerState.isAd (state tr) = false →
  (TrackerState.goEnd (now w) (state tr)).1 = true →
  ∃ w' tr' bag l,
    sendEnd fuel t att w = Some w'
    ∧ sink w' = sink w ++ (t, "CONTENT_END", Some bag) :: l
    ∧ trackers w' !! t = Some tr'
    ∧ state tr'
      = TrackerState.set_totalPlaytime 0
          (TrackerState.goViewCountUp (TrackerState.goEnd (now w) (state tr)).2)
    ∧ totalPlaytime (state tr') = 0
    ∧ viewCount (state tr') ≠ viewCount (state tr)
    ∧ ∀ n r, (TrackerState.getViewId n r (state tr')).1
             ≠ (TrackerState.getViewId n r (state tr)).1.
Proof.
  intros Hac Htr Hf Had Hacc.
  assert (Hrq : TrackerState.isRequested (state tr) = true).
  { unfold TrackerState.goEnd in Hacc.
    by destruct (TrackerState.isRequested (state tr)). }
  unfold sendEnd. rewrite (go_Some _ t w tr Htr), Hacc. wsimpl.
  unfold deltaTime. wunfold. wrew. rewrite Htr. wsimpl.
  rewrite isAd_goEnd, Had.
  match goal with |- context [Tracker.send fuel t ?e ?b ?w0] =>
      destruct (send_returns rank fuel t e b w0) as (l & Hs & _);
        [ | | done |]; [ | | rewrite Hs] end.
  { by repeat apply funnelAcyclic_modify. }
  { repeat apply is_Some_lookup_modify. by exists tr. }
  wrew. rewrite Htr. wsimpl. rewrite isAd_goEnd, Had.
  assert (Hvc : viewCount (TrackerState.set_totalPlaytime 0
            (TrackerState.goViewCountUp (TrackerState.goEnd (now w) (state tr)).2))
          = (viewCount (state tr) + 2)%N).
  { simpl. rewrite viewCount_goEnd by done. lia. }
  assert (Hvs : viewSession (TrackerState.set_totalPlaytime 0
            (TrackerState.goViewCountUp (TrackerState.goEnd (now w) (state tr)).2))
          = viewSession (state tr)).
  { unfold TrackerState.goEnd. by rewrite Hrq. }
  destruct (parentTracker tr) as [p|];
    (eexists _, _, _, l; split; [reflexivity|]; wrew;
     split; [reflexivity|]; rewrite Htr; wsimpl;
     split; [reflexivity|]; wsimpl; split; [reflexivity|];
     split; [reflexivity|];
     split; [rewrite Hvc; lia|];
     intros n r; unfold TrackerState.getViewId, TrackerState.getViewSession;
     rewrite Hvs; destruct (viewSession (state tr)); wsimpl;
     cbn [viewCount TrackerState.set_viewSession]; rewrite ?Hvc;
     intros [=]; lia).
Qed.


Lemma C2_content_end_witness :
  ∃ w' tr' bag l,
    sendEnd 3 0%nat None demoWorld = Some w'
    ∧ sink w' = sink demoWorld ++ (0%nat, "CONTENT_END", Some bag) :: l
    ∧ trackers w' !! 0%nat = Some tr'
    ∧ totalPlaytime (state tr') = 0
    ∧ viewCount (state tr') ≠ 1%N.
Proof.
  destruct (C2_content_end (λ r, r) 3 0%nat None demoWorld
              (default (newTracker 0) (trackers demoWorld !! 0%nat)))
    as (w' & tr' & bag & l & H1 & H2 & H3 & _ & H5 & H6 & _).
  - exact demoWorld_acyclic.
  - vm_compute. reflexivity.
  - lia.
  - vm_compute. reflexivity.
  - vm_compute. reflexivity.
  - exists w', tr', bag, l. exact (conj H1 (conj H2 (conj H3 (conj H5 H6)))).
Defined.

Lemma chrono_le (n : Z) (s : TrackerState) (name : string) :
  stateClockOk n s → Chrono.markedAt (TrackerState.chrono name s) ≤ n.
Proof.
  intros [Hc Hm]. unfold TrackerState.chrono.
  destruct (chronos s !! name) as [c|] eqn:Hl; simpl; [|done].
  by apply (map_Forall_lookup_1 _ _ _ _ Hm Hl).
Qed.

Lemma lookup_modify_Some (t t' : ref) (f : VideoTracker → VideoTracker)
    (w : World) (tr : VideoTracker) :
  trackers w !! t' = Some tr →
  trackers (modify t f w) !! t' = Some (if decide (t = t') then f tr else tr).
Proof.
  intros H. rewrite lookup_modify.
  destruct (decide (t = t')) as [->|]; by rewrite ?H.
Qed.

Lemma lookup_modify_same_Some (t : ref) (f : VideoTracker → VideoTracker)
    (w : World) (tr : VideoTracker) :
  trackers w !! t = Some tr → trackers (modify t f w) !! t = Some (f tr).
Proof. intros H. by rewrite lookup_modify_eq, H. Qed.

Lemma lookup_modify_ne_Some (t t' : ref) (f : VideoTracker → VideoTracker)
    (w : World) (tr : VideoTracker) :
  t ≠ t' → trackers w !! t' = Some tr → trackers (modify t f w) !! t' = Some tr.
Proof. intros Hne H. by rewrite lookup_modify_ne. Qed.

Ltac wlook :=
  repeat first [ apply lookup_modify_same_Some
               | apply lookup_modify_ne_Some; [congruence|]
               | apply lookup_modify_Some | rewrite trackers_set_sink
               | progress cbn [trackers set_sink set_log Log_warn set_now
                               set_randoms] ];
  eassumption.

Ltac wlookup :=
  match goal with
  | |- context [trackers ?W !! ?x] =>
      lazymatch W with
      | context [modify] => idtac
      | context [set_sink] => idtac
      end;
      let H := fresh "Hlk" in
      eassert (H : trackers W !! x = Some _) by wlook;
      rewrite H; clear H
  end.

Ltac ssimpl :=
  cbn [TrackerState.isAd st_isAd phase bufferReturn seekReturn isStarted
       isPlaying isAdBreak initialBufferingHappened totalPlaytime
       totalAdPlaytime viewSession viewCount numberOfAds createdAt chronos
       TrackerState.set_isAd TrackerState.set_phase
       TrackerState.set_bufferReturn TrackerState.set_seekReturn
       TrackerState.set_isStarted TrackerState.set_isPlaying
       TrackerState.set_isAdBreak TrackerState.set_initialBufferingHappened
       TrackerState.set_totalPlaytime TrackerState.set_totalAdPlaytime
       TrackerState.set_viewSession TrackerState.set_viewCount
       TrackerState.set_numberOfAds TrackerState.set_chronos
       TrackerState.markChrono TrackerState.goLastAd].

(** ** Ad breaks *)

(** C3.  On an ad tracker with a parent, an accepted [sendAdBreakStart]
    returns, delivers AD_BREAK_START with the attributes it was given, leaves
    [totalAdPlaytime] at 0 and the parent's [isPlaying] false; an accepted
    [sendAdBreakEnd] returns, leaves the parent's [isPlaying] true and
    delivers AD_BREAK_END with [timeSinceAdBreakBegin] set to a number that
    is not negative when the clock is monotonic. *)
Theorem C3_ad_break (rank : ref → nat) (fuel : nat) (t p : ref)
    (att : option Bag) (w : World) (tr ptr : VideoTracker) :
  funnelAcyclic rank w → clockOk w →
  trackers w !! t = Some tr → (rank t < fuel)%nat →
  TrackerState.isAd (state tr) = true →
  parentTracker tr = Some p → trackers w !! p = Some ptr →
  ((TrackerState.goAdBreakStart (now w) (state tr)).1 = true →
   ∃ w' tr' ptr' l,
     sendAdBreakStart fuel t att w = Some w'
     ∧ sink w' = sink w ++ (t, "AD_BREAK_START", att) :: l
     ∧ trackers w' !! t = Some tr'
     ∧ totalAdPlaytime (state tr') = 0
     ∧ trackers w' !! p = Some ptr'
     ∧ isPlaying (state ptr') = false)
  ∧ ((TrackerState.goAdBreakEnd (now w) (state tr)).1 = true →
     ∃ w' ptr' l d,
       sendAdBreakEnd fuel t att w = Some w'
       ∧ sink w' = sink w ++ (t, "AD_BREAK_END",
                              Some (<["timeSinceAdBreakBegin" := JNum d]>
                                      (or_empty att))) :: l
       ∧ 0 ≤ d
       ∧ trackers w' !! p = Some ptr'
       ∧ isPlaying (state ptr') = true).
Proof.
  intros Hac Hck Htr Hf Had Hp Hptr. split.
  - intros Hacc. unfold sendAdBreakStart, isAd. rewrite Htr. wsimpl.
    rewrite Had, (go_Some _ t w tr Htr), Hacc. wsimpl. wunfold. wlookup. wsimpl.
    unfold setParentIsPlaying. wsimpl. rewrite Hp. wunfold.
    match goal with |- context [Tracker.send fuel t ?e ?b ?w0] =>
      destruct (send_returns rank fuel t e b w0) as (l & Hs & _);
        [ | | done |]; [ | | rewrite Hs] end.
    { by repeat apply funnelAcyclic_modify. }
    { repeat apply is_Some_lookup_modify. by exists tr. }
    destruct (decide (p = t)) as [->|Hne];
      [assert (ptr = tr) as -> by congruence|];
      (eexists _, _, _, l; split; [reflexivity|];
       split; [by wrew|]; cbn [trackers set_sink];
       split; [wlook|]; split; [done|]; split; [wlook|done]).
  - intros Hacc. unfold sendAdBreakEnd, isAd. rewrite Htr. wsimpl.
    rewrite Had, (go_Some _ t w tr Htr), Hacc. wsimpl.
    unfold deltaTime. wunfold. wlookup. wsimpl.
    match goal with |- context [Tracker.send fuel t ?e ?b ?w0] =>
      destruct (send_returns rank fuel t e b w0) as (l & Hs & _);
        [ | | done |]; [ | | rewrite Hs] end.
    { by repeat apply funnelAcyclic_modify. }
    { repeat apply is_Some_lookup_modify. by exists tr. }
    wsimpl. wlookup. wsimpl. unfold setParentIsPlaying.
    wsimpl. rewrite Hp. wunfold.
    assert (Hd : 0 ≤ Chrono.getDeltaTime (now w)
                   (TrackerState.chrono "timeSinceAdBreakStart"
                      (TrackerState.goAdBreakEnd (now w) (state tr)).2)).
    { pose proof (map_Forall_lookup_1 _ _ _ _ Hck Htr) as Hst. simpl in Hst.
      pose proof (chrono_le (now w) (state tr) "timeSinceAdBreakStart" Hst).
      unfold TrackerState.goAdBreakEnd.
      destruct (isAdBreak (state tr)); unfold Chrono.getDeltaTime, Chrono.elapsed;
        simpl; unfold TrackerState.chrono in *; simpl; lia. }
    assert (Had' : st_isAd
                     (TrackerState.goAdBreakEnd (now w) (state tr)).2 = true).
    { unfold TrackerState.goAdBreakEnd.
      destruct (isAdBreak (state tr)); by rewrite <- Had. }
    destruct (decide (p = t)) as [->|Hne];
      [assert (ptr = tr) as -> by congruence|];
      (wlookup; wsimpl; rewrite ?Hp; wsimpl; ssimpl;
       unfold TrackerState.isAd; rewrite Had';
       eexists _, _, l, _; split; [reflexivity|];
       split; [by wrew|]; split; [exact Hd|];
       cbn [trackers set_sink]; split; [wlook|done]).
Qed.

Lemma demoWorld_clockOk : clockOk demoWorld.
Proof. apply (bool_decide_unpack _). vm_compute. exact I. Qed.

Lemma C3_ad_break_witness :
  ∃ w' tr' ptr' l,
    sendAdBreakStart 3 1%nat None demoWorld = Some w'
    ∧ sink w' = sink demoWorld ++ (1%nat, "AD_BREAK_START", None) :: l
    ∧ trackers w' !! 1%nat = Some tr'
    ∧ totalAdPlaytime (state tr') = 0
    ∧ trackers w' !! 0%nat = Some ptr'
    ∧ isPlaying (state ptr') = false.
Proof.
  destruct (C3_ad_break (λ r, r) 3 1%nat 0%nat None demoWorld
              (default (newTracker 0) (trackers demoWorld !! 1%nat))
              (default (newTracker 0) (trackers demoWorld !! 0%nat)))
    as (H & _).
  - exact demoWorld_acyclic.
  - exact demoWorld_clockOk.
  - vm_compute. reflexivity.
  - lia.
  - vm_compute. reflexivity.
  - vm_compute. reflexivity.
  - vm_compute. reflexivity.
  - apply H. vm_compute. reflexivity.
Defined.

(** ** Listeners *)

(** The listeners of a [send], run in order from a given world. *)
Lemma notify_sink (f : nat) (ev : string) (att : option Bag) (t : ref) :
  ∀ (ls : list Callback) (w0 w' : World),
    foldl (λ acc cb, w1 ← acc; invoke (Tracker.send f) cb (MkEvent ev att t) w1)
          (Some w0) ls = Some w' →
    ∃ k, w' = set_sink (sink w0 ++ k) w0.
Proof.
  induction ls as [|cb ls IH]; intros w0 w' Hf; cbn [foldl] in Hf.
  - injection Hf as <-. exists []. rewrite app_nil_r. by rewrite set_sink_same.
  - destruct cb as [[p|]]; cbn [mbind option_bind invoke funnelAdEvents type data] in Hf;
      [|by rewrite foldl_bind_None in Hf].
    destruct (Tracker.send f p ev att w0) as [w2|] eqn:Hp;
      [|by rewrite foldl_bind_None in Hf].
    apply send_sink in Hp as (l & -> & _).
    apply IH in Hf as (k & ->). cbn [sink set_sink].
    exists (((p, ev, att) :: l) ++ k). by rewrite <- !app_assoc.
Qed.

Lemma notify_forwards (f : nat) (ev : string) (att : option Bag) (t p : ref) :
  ∀ (ls : list Callback) (w0 w' : World),
    foldl (λ acc cb, w1 ← acc; invoke (Tracker.send f) cb (MkEvent ev att t) w1)
          (Some w0) ls = Some w' →
    FunnelAdEvents (Some p) ∈ ls →
    ∃ k1 k2, w' = set_sink (sink w0 ++ k1 ++ (p, ev, att) :: k2) w0.
Proof.
  induction ls as [|cb ls IH]; intros w0 w' Hf Hin; [by apply elem_of_nil in Hin|].
  cbn [foldl] in Hf.
  destruct cb as [[q|]]; cbn [mbind option_bind invoke funnelAdEvents type data] in Hf;
    [|by rewrite foldl_bind_None in Hf].
  destruct (Tracker.send f q ev att w0) as [w2|] eqn:Hq;
    [|by rewrite foldl_bind_None in Hf].
  apply send_sink in Hq as (l & -> & _).
  apply elem_of_cons in Hin as [Heq|Hin].
  - injection Heq as <-. apply notify_sink in Hf as (k & ->).
    cbn [sink set_sink]. exists [], (l ++ k). by rewrite <- !app_assoc.
  - apply IH in Hf as (k1 & k2 & ->); [|done]. cbn [sink set_sink].
    exists (((q, ev, att) :: l) ++ k1), k2. by rewrite <- !app_assoc.
Qed.

Lemma send_forwards (fuel : nat) (t p : ref) (ev : string) (att : option Bag)
    (w w' : World) (tr : VideoTracker) :
  Tracker.send fuel t ev att w = Some w' →
  trackers w !! t = Some tr → FunnelAdEvents (Some p) ∈ listeners tr →
  ∃ l1 l2, w' = set_sink (sink w ++ (t, ev, att) :: l1 ++ (p, ev, att) :: l2) w.
Proof.
  destruct fuel as [|f]; [discriminate|]. intros Hs Htr Hin.
  cbn [Tracker.send] in Hs. rewrite Htr in Hs. cbn [mbind option_bind] in Hs.
  apply (notify_forwards f ev att t p) in Hs as (k1 & k2 & ->); [|done].
  exists k1, k2. unfold Tracker.deliver. cbn [sink set_sink].
  by rewrite <- !app_assoc.
Qed.

Lemma dispose_exists (fuel : nat) :
  ∀ (t : ref) (w w' : World),
    dispose fuel t w = Some w' →
    ∀ x, is_Some (trackers w' !! x) ↔ is_Some (trackers w !! x).
Proof.
  induction fuel as [|f IH]; intros t w w' Hd x; [discriminate|].
  cbn [dispose] in Hd. unfold disposeAdsTracker_with in Hd.
  destruct (trackers (Tracker.stopHeartbeat t w) !! t) as [tr|]; [|discriminate].
  cbn [mbind option_bind] in Hd.
  destruct (adsTracker tr) as [a|].
  - destruct (dispose f a _) as [w1|] eqn:Ha; [|discriminate].
    injection Hd as <-. apply IH with (x := x) in Ha.
    rewrite is_Some_lookup_modify, Ha. wunfold.
    by rewrite !is_Some_lookup_modify.
  - injection Hd as <-. wunfold. by rewrite !is_Some_lookup_modify.
Qed.

Lemma disposeAdsTracker_exists (fuel : nat) (t : ref) (w w' : World) :
  disposeAdsTracker fuel t w = Some w' →
  ∀ x, is_Some (trackers w' !! x) ↔ is_Some (trackers w !! x).
Proof.
  unfold disposeAdsTracker, disposeAdsTracker_with. intros Hd x.
  destruct (trackers w !! t) as [tr|]; [|discriminate].
  cbn [mbind option_bind] in Hd. destruct (adsTracker tr) as [a|].
  - apply dispose_exists with (x := x) in Hd. rewrite Hd. wunfold.
    by rewrite is_Some_lookup_modify.
  - by injection Hd as <-.
Qed.


(** ** Duplicate requests *)

Lemma goRequest_isRequested (n : Z) (s : TrackerState) :
  (TrackerState.goRequest n s).1 = negb (TrackerState.isRequested s).
Proof. unfold TrackerState.goRequest, TrackerState.isRequested. by destruct (phase s). Qed.

Lemma goRequest_rejected (n : Z) (s : TrackerState) :
  TrackerState.isRequested s = true → TrackerState.goRequest n s = (false, s).
Proof. unfold TrackerState.goRequest, TrackerState.isRequested. by destruct (phase s). Qed.

Lemma goRequest_accepted (n : Z) (s : TrackerState) :
  TrackerState.isRequested s = false →
  (TrackerState.goRequest n s).1 = true
  ∧ TrackerState.isRequested (TrackerState.goRequest n s).2 = true
  ∧ TrackerState.isAd (TrackerState.goRequest n s).2 = TrackerState.isAd s.
Proof. unfold TrackerState.goRequest, TrackerState.isRequested. by destruct (phase s). Qed.

Lemma goHeartbeat_isRequested (n : Z) (s : TrackerState) :
  TrackerState.isRequested (TrackerState.goHeartbeat n s).2
  = TrackerState.isRequested s.
Proof. unfold TrackerState.goHeartbeat. by destruct (TrackerState.isRequested s) eqn:E. Qed.

(** A second [sendRequest] is rejected by the guard. *)
Lemma sendRequest_rejected (fuel : nat) (t : ref) (att : option Bag) (w : World)
    (tr : VideoTracker) :
  trackers w !! t = Some tr → TrackerState.isRequested (state tr) = true →
  sendRequest fuel t att w = Some w.
Proof.
  intros Htr Hrq. unfold sendRequest.
  by rewrite (go_rejected _ t w tr Htr (goRequest_rejected _ _ Hrq)).
Qed.

Lemma sendRequest_accepted (rank : ref → nat) (fuel : nat) (t : ref)
    (att : option Bag) (w : World) (tr : VideoTracker) :
  funnelAcyclic rank w → (rank t < fuel)%nat →
  trackers w !! t = Some tr → TrackerState.isRequested (state tr) = false →
  ∃ w1 l,
    sendRequest fuel t att w = Some w1
    ∧ sink w1 = sink w ++ (t, if TrackerState.isAd (state tr)
                              then "AD_REQUEST" else "CONTENT_REQUEST", att) :: l
    ∧ Forall (λ d : Delivery, (rank d.1.1 < rank t)%nat) l
    ∧ requestedAt t w1.
Proof.
  intros Hac Hf Htr Hrq. unfold sendRequest, isAd.
  destruct (goRequest_accepted (now w) _ Hrq) as (Hacc & Hrq' & Had).
  rewrite (go_Some _ t w tr Htr), Hacc. wsimpl. wunfold. wlookup. wsimpl.
  rewrite Had.
  match goal with |- context [Tracker.send fuel t ?e ?b ?w0] =>
      destruct (send_returns rank fuel t e b w0) as (l & Hs & Hl);
        [ | | done |]; [ | | rewrite Hs] end.
  { by repeat apply funnelAcyclic_modify. }
  { repeat apply is_Some_lookup_modify. by exists tr. }
  wsimpl. unfold go. wlookup. wsimpl.
  eexists _, l. split; [reflexivity|]. split; [by wrew|]. split.
  - eapply Forall_impl; [exact Hl|]. by intros d (? & _).
  - eexists. split; [wunfold; wlook|]. wsimpl.
    by rewrite goHeartbeat_isRequested.
Qed.

Lemma countRequests_app (t : ref) (l1 l2 : list Delivery) :
  countRequests t (l1 ++ l2) = (countRequests t l1 + countRequests t l2)%nat.
Proof. unfold countRequests. by rewrite filter_app, length_app. Qed.

Lemma countRequests_other (t : ref) (l : list Delivery) :
  Forall (λ d : Delivery, d.1.1 ≠ t ∨ isRequestEvent d.1.2 = false) l →
  countRequests t l = 0%nat.
Proof.
  unfold countRequests. induction 1 as [|d l Hd _ IH]; [done|].
  rewrite filter_cons. case_decide as Hc; [|done].
  destruct Hc as [? Hr]. destruct Hd as [?|Hd]; [done|congruence].
Qed.

Lemma countRequests_emitted (rank : ref → nat) (t : ref) (ev : string)
    (att : option Bag) (l : list Delivery) :
  Forall (λ d : Delivery, (rank d.1.1 < rank t)%nat) l →
  countRequests t ((t, ev, att) :: l) = if isRequestEvent ev then 1%nat else 0%nat.
Proof.
  intros Hl.
  change ((t, ev, att) :: l) with ([(t, ev, att)] ++ l).
  rewrite countRequests_app, (countRequests_other t l).
  - unfold countRequests. rewrite filter_cons. simpl.
    destruct (isRequestEvent ev) eqn:E; case_decide as Hc; simpl; try done.
    + destruct Hc. by split.
    + by destruct Hc.
  - eapply Forall_impl; [exact Hl|]. intros d Hd. left. intros Heq.
    apply (f_equal rank) in Heq. simpl in Hd. lia.
Qed.

(** Time passing and timers firing leave a requested tracker requested and
    deliver no request event. *)
Lemma idle_step (fuel : nat) (t : ref) (c : Call) (w w' : World) :
  idle c = true → step fuel c w = Some w' →
  (requestedAt t w → requestedAt t w')
  ∧ ∃ l, sink w' = sink w ++ l
         ∧ Forall (λ d : Delivery, isRequestEvent d.1.2 = false) l.
Proof.
  destruct c; try discriminate; intros _ Hs; cbn [step] in Hs.
  - injection Hs as <-. split; [done|]. exists []. by rewrite app_nil_r.
  - destruct (trackers w !! t0) as [tr0|] eqn:Ht0; [|discriminate].
    cbn [mbind option_bind] in Hs.
    destruct (heartbeatOn tr0);
      [|injection Hs as <-; split; [done|]; exists []; by rewrite app_nil_r].
    unfold sendHeartbeat in Hs. rewrite Ht0 in Hs. cbn [mbind option_bind] in Hs.
    destruct (TrackerState.isRequested (state tr0)) eqn:Hrq0;
      [|injection Hs as <-; split; [done|]; exists []; by rewrite app_nil_r].
    match type of Hs with context [Tracker.send fuel t0 ?e ?b ?w0] =>
      destruct (Tracker.send fuel t0 e b w0) as [w1|] eqn:Hsend;
        [|discriminate] end.
    apply send_sink in Hsend as (l & -> & Hl).
    cbn [mbind option_bind] in Hs. unfold go in Hs. wunfold.
    rewrite trackers_set_sink, Ht0 in Hs. cbn [mbind option_bind] in Hs.
    injection Hs as <-. split.
    + intros (tr & Htr & Hrq). destruct (decide (t0 = t)) as [->|Hne].
      * eexists. split; [wlook|]. wsimpl.
        rewrite goHeartbeat_isRequested. congruence.
      * eexists. split; [wlook|]. done.
    + eexists. split; [by wrew|]. constructor.
      * simpl. by destruct (TrackerState.isAd (state tr0)).
      * eapply Forall_impl; [exact Hl|]. intros d [-> _].
        by destruct (TrackerState.isAd (state tr0)).
Qed.

Lemma idle_run (fuel : nat) (t : ref) (cs : list Call) :
  forallb idle cs = true → ∀ w w', run fuel cs w = Some w' →
  (requestedAt t w → requestedAt t w')
  ∧ ∃ l, sink w' = sink w ++ l
         ∧ Forall (λ d : Delivery, isRequestEvent d.1.2 = false) l.
Proof.
  induction cs as [|c cs IH]; intros Hidle w w' Hr; cbn [run] in Hr.
  - injection Hr as <-. split; [done|]. exists []. by rewrite app_nil_r.
  - cbn [forallb] in Hidle. apply andb_true_iff in Hidle as [Hc Hcs].
    destruct (step fuel c w) as [w1|] eqn:Hs; [|discriminate].
    cbn [mbind option_bind] in Hr.
    destruct (idle_step fuel t c w w1 Hc Hs) as (H1 & l1 & E1 & F1).
    destruct (IH Hcs w1 w' Hr) as (H2 & l2 & E2 & F2).
    split; [auto|]. exists (l1 ++ l2). split.
    + by rewrite E2, E1, <- app_assoc.
    + by apply Forall_app.
Qed.

(** C1, the claim as stated fails: on a tracker whose view is already
    requested, two consecutive [sendRequest] calls deliver no request event
    at all, not exactly one. *)
Lemma C1_already_requested_emits_none :
  sink requestedWorld = [(0%nat, "CONTENT_REQUEST", None)]
  ∧ run 3 [CallSendRequest 0%nat None; CallSendRequest 0%nat None] requestedWorld
    = Some requestedWorld
  ∧ countRequests 0%nat
      (deliveredSince (length (sink requestedWorld)) requestedWorld) = 0%nat.
Proof. vm_compute. repeat split. Qed.


(** ** What a call leaves of [_lastBufferType] *)

Lemma lbt_modify (t x : ref) (f : VideoTracker → VideoTracker) (w : World) :
  (∀ tr, _lastBufferType (f tr) = _lastBufferType tr) →
  lastBufferTypeOf t (modify x f w) = lastBufferTypeOf t w.
Proof.
  intros Hf. unfold lastBufferTypeOf. rewrite lookup_modify.
  case_decide as Hx; [subst|done].
  destruct (trackers w !! t); simpl; [|done]. by rewrite Hf.
Qed.

Lemma lbt_send (t : ref) (fuel : nat) (x : ref) (ev : string) (att : option Bag)
    (w w' : World) :
  Tracker.send fuel x ev att w = Some w' →
  lastBufferTypeOf t w' = lastBufferTypeOf t w.
Proof. intros H. by apply send_sink in H as (l & -> & _). Qed.

Lemma lbt_go (t : ref) (g : TrackerState → bool * TrackerState) (x : ref)
    (w w' : World) (ok : bool) :
  go g x w = Some (ok, w') → lastBufferTypeOf t w' = lastBufferTypeOf t w.
Proof.
  unfold go. destruct (trackers w !! x); [|discriminate].
  cbn [mbind option_bind]. intros [= _ <-]. by apply lbt_modify.
Qed.

Ltac inv_all :=
  repeat match goal with
  | H : mbind _ ?m = Some _ |- _ =>
      let E := fresh "E" in
      destruct m eqn:E; cbn [mbind option_bind] in H; [|discriminate H]
  | H : (if ?b then _ else _) = Some _ |- _ =>
      let E := fresh "E" in destruct b eqn:E
  | H : match ?p with _ => _ end = Some _ |- _ =>
      let E := fresh "E" in destruct p eqn:E
  | H : None = Some _ |- _ => discriminate H
  | H : (if ?b then _ else _) = (_, _) |- _ =>
      let E := fresh "E" in destruct b eqn:E
  | H : (_, _) = (_, _) |- _ => inversion H; subst; clear H
  end.

Lemma lbt_getRenditionShift (b : bool) (tr : VideoTracker) :
  _lastBufferType (getRenditionShift b tr).2 = _lastBufferType tr.
Proof.
  rewrite getRenditionShift_tracker.
  by destruct b, (TrackerState.isAd (state tr)).
Qed.

Lemma lbt_setParentIsPlaying (t : ref) (b : bool) (v : VideoTracker) (w : World) :
  lastBufferTypeOf t (setParentIsPlaying b v w) = lastBufferTypeOf t w.
Proof.
  unfold setParentIsPlaying. destruct (parentTracker v); [|done].
  by apply lbt_modify.
Qed.

Lemma lbt_Log_warn (t : ref) (m : string) (w : World) :
  lastBufferTypeOf t (Log_warn m w) = lastBufferTypeOf t w.
Proof. reflexivity. Qed.

Ltac lbt_chain t :=
  repeat match goal with
  | H : Tracker.send _ _ _ _ _ = Some _ |- _ => apply (lbt_send t) in H
  | H : go _ _ _ = Some (_, _) |- _ => apply (lbt_go t) in H
  | H : Some _ = Some _ |- _ => injection H as <-
  end;
  wunfold;
  repeat match goal with
  | |- context [match ?o with Some _ => _ | None => _ end] => destruct o
  | |- context [if ?b then _ else _] => destruct b
  end;
  repeat match goal with
  | H : context [if ?b then _ else _] |- _ => destruct b
  end;
  repeat match goal with
  | H : lastBufferTypeOf t _ = _ |- _ =>
      first [ rewrite lbt_setParentIsPlaying in H
            | rewrite lbt_Log_warn in H
            | rewrite lbt_modify in H by (done || apply lbt_getRenditionShift) ]
  end;
  repeat first [ rewrite lbt_setParentIsPlaying
               | rewrite lbt_modify by (done || apply lbt_getRenditionShift) ];
  try congruence; try reflexivity.

Lemma dispose_lbt (t : ref) (fuel : nat) :
  ∀ (x : ref) (w w' : World),
    dispose fuel x w = Some w' → lastBufferTypeOf t w' = lastBufferTypeOf t w.
Proof.
  induction fuel as [|f IH]; intros x w w' H; [discriminate|].
  cbn [dispose] in H. unfold disposeAdsTracker_with in H. inv_all.
  - match goal with H : dispose f _ _ = Some _ |- _ => apply IH in H end.
    lbt_chain t.
  - lbt_chain t.
Qed.

Lemma lbt_modify_ne (t x : ref) (f : VideoTracker → VideoTracker) (w : World) :
  x ≠ t → lastBufferTypeOf t (modify x f w) = lastBufferTypeOf t w.
Proof. intros Hx. unfold lastBufferTypeOf. by rewrite lookup_modify_ne. Qed.

Lemma step_lbt (fuel : nat) (t : ref) (c : Call) (w w' : World) (v : JsVal) :
  step fuel c w = Some w' → ¬ acceptsBufferStart t c w →
  lastBufferTypeOf t w = Some v → lastBufferTypeOf t w' = Some v.
Proof.
  intros Hs Hna Hv. cut (lastBufferTypeOf t w' = lastBufferTypeOf t w);
    [congruence|].
  destruct c; cbn [step] in Hs;
    unfold sendCustom, sendPlayerReady, sendRequest, sendStart, sendEnd,
      sendPause, sendResume, sendBufferEnd, sendSeekStart, sendSeekEnd,
      sendDownload, sendError, sendRenditionChanged, sendHeartbeat,
      sendAdBreakStart, sendAdBreakEnd, sendAdQuartile, sendAdClick,
      setOptions, Tracker.setOptions, setAdsTracker, disposeAdsTracker,
      disposeAdsTracker_with in Hs;
    try (inv_all;
         repeat match goal with
         | H : dispose _ _ _ = Some _ |- _ => apply (dispose_lbt t) in H
         end;
         lbt_chain t; fail).
  all: inv_all; lbt_chain t.
  - unfold lastBufferTypeOf in *. unfold construct. cbn [trackers set_trackers].
    rewrite lookup_insert_ne; [done|]. intros ->. by rewrite E in Hv.
  - unfold sendBufferStart in Hs.
    destruct (go _ t0 w) as [[ok w0]|] eqn:Hgo; [|discriminate].
    cbn [mbind option_bind] in Hs. destruct ok.
    + destruct (decide (t0 = t)) as [->|Hne].
      * exfalso. apply Hna. split; [done|]. unfold go in Hgo.
        destruct (trackers w !! t) as [tr|]; [|discriminate].
        cbn [mbind option_bind] in Hgo. injection Hgo as Hok _.
        by exists tr.
      * inv_all. lbt_chain t. rewrite lbt_modify_ne in Hs by done. congruence.
    + injection Hs as <-. by apply (lbt_go t) in Hgo.
Qed.

Lemma run_lbt (fuel : nat) (t : ref) (v : JsVal) (cs : list Call) :
  ∀ w w', run fuel cs w = Some w' → noBufferStart fuel t cs w →
          lastBufferTypeOf t w = Some v → lastBufferTypeOf t w' = Some v.
Proof.
  induction cs as [|c cs IH]; intros w w' Hr Hq Hv; cbn [run] in Hr.
  - by injection Hr as <-.
  - destruct (step fuel c w) as [w1|] eqn:Hs; [|discriminate].
    cbn [mbind option_bind] in Hr. destruct Hq as [Hna Hq].
    apply (IH w1 w' Hr (Hq w1 Hs)). by apply (step_lbt fuel t c w).
Qed.

(** ** Buffering *)

Ltac wsimpl_in H :=
  cbn [fst snd mbind option_bind fmap option_fmap option_map default
       state adsTracker parentTracker _lastBufferType _lastRendition
       _lastAdRendition renditionBitrate listeners heartbeatOn player
       set_state set_adsTracker set_parentTracker set_lastBufferType
       set_lastRendition set_lastAdRendition set_renditionBitrate set_listeners
       set_heartbeatOn set_player
       trackers now randoms sink log set_trackers set_now set_randoms set_sink
       set_log Log_warn Tracker.deliver] in H.

Lemma goBufferStart_accepted (n : Z) (s : TrackerState) :
  (TrackerState.goBufferStart n s).1 = true →
  TrackerState.isAd (TrackerState.goBufferStart n s).2 = TrackerState.isAd s
  ∧ initialBufferingHappened (TrackerState.goBufferStart n s).2
    = initialBufferingHappened s
  ∧ TrackerState.seekOpen (TrackerState.goBufferStart n s).2
    = bool_decide (phase s = SEEKING).
Proof.
  unfold TrackerState.goBufferStart.
  destruct (TrackerState.isRequested s && negb (bool_decide (phase s = BUFFERING)));
    [|discriminate]. done.
Qed.

Lemma buildBufferAttributes_bufferType (t : ref) (att : Bag) (w : World)
    (tr : VideoTracker) (bag : Bag) :
  trackers w !! t = Some tr →
  buildBufferAttributes t att w = Some bag →
  bag !! "bufferType"
  = Some (JStr (if timingAllowsInitial att
                     && negb (initialBufferingHappened (state tr))
                then "initial"
                else if TrackerState.seekOpen (state tr) then "seek"
                else "other")).
Proof.
  intros Htr Hb. unfold buildBufferAttributes, deltaTime in Hb.
  rewrite Htr in Hb. cbn [mbind option_bind] in Hb. injection Hb as <-.
  rewrite !lookup_insert_ne by done. rewrite lookup_insert_eq.
  unfold timingAllowsInitial, TrackerState.calculateBufferType.
  destruct (is_nullish _ || lt_num _ 100); unfold get;
    rewrite lookup_insert_eq; simpl; [|done].
  by destruct (initialBufferingHappened (state tr)).
Qed.

(** What an accepted [sendBufferStart] that returned has done. *)
Lemma sendBufferStart_inv (fuel : nat) (t : ref) (att : option Bag)
    (w w' : World) (tr : VideoTracker) :
  trackers w !! t = Some tr →
  (TrackerState.goBufferStart (now w) (state tr)).1 = true →
  sendBufferStart fuel t att w = Some w' →
  ∃ bag l,
    sink w' = sink w ++ (t, bufferStartEvent (state tr), Some bag) :: l
    ∧ bag !! "bufferType"
      = Some (JStr (startBufferType (or_empty att) (state tr)))
    ∧ lastBufferTypeOf t w'
      = Some (JStr (startBufferType (or_empty att) (state tr))).
Proof.
  intros Htr Hacc Hs. unfold sendBufferStart, isAd in Hs.
  rewrite (go_Some _ t w tr Htr), Hacc in Hs. wsimpl_in Hs. wunfold.
  destruct (goBufferStart_accepted _ _ Hacc) as (Had & Hib & Hso).
  match type of Hs with context [trackers ?W !! t] =>
    eassert (Hl1 : trackers W !! t = Some _) by wlook
  end.
  cbn beta in Hl1. rewrite Hl1 in Hs. wsimpl_in Hs. rewrite Had in Hs.
  destruct (buildBufferAttributes t (or_empty att) _) as [bag|] eqn:Hb;
    [|discriminate]. cbn [mbind option_bind] in Hs.
  apply (buildBufferAttributes_bufferType _ _ _ _ _ Hl1) in Hb.
  wsimpl_in Hb. rewrite Hib, Hso in Hb. fold (startBufferType (or_empty att) (state tr)) in Hb.
  apply send_sink in Hs as (l & -> & _).
  exists bag, l. split; [|split].
  - unfold bufferStartEvent. by destruct (TrackerState.isAd (state tr)).
  - done.
  - unfold lastBufferTypeOf. cbn [trackers set_sink].
    erewrite lookup_modify_same_Some by exact Hl1. wsimpl.
    unfold get. by rewrite Hb.
Qed.

Lemma buildBufferAttributes_returns (t : ref) (att : Bag) (w : World) :
  is_Some (trackers w !! t) → is_Some (buildBufferAttributes t att w).
Proof.
  intros [tr Htr]. unfold buildBufferAttributes, deltaTime. rewrite Htr.
  cbn [mbind option_bind]. by eexists.
Qed.

Lemma sendBufferStart_returns (rank : ref → nat) (fuel : nat) (t : ref)
    (att : option Bag) (w : World) (tr : VideoTracker) :
  funnelAcyclic rank w → (rank t < fuel)%nat → trackers w !! t = Some tr →
  (TrackerState.goBufferStart (now w) (state tr)).1 = true →
  is_Some (sendBufferStart fuel t att w).
Proof.
  intros Hac Hf Htr Hacc. unfold sendBufferStart, isAd.
  rewrite (go_Some _ t w tr Htr), Hacc. wsimpl. wunfold. wlookup. wsimpl.
  match goal with |- context [buildBufferAttributes t ?a ?w0] =>
    destruct (buildBufferAttributes_returns t a w0) as [bag Hb];
      [repeat apply is_Some_lookup_modify; by exists tr|]; rewrite Hb end.
  wsimpl.
  match goal with |- context [Tracker.send fuel t ?e ?b ?w0] =>
      destruct (send_returns rank fuel t e b w0) as (l & Hs & _);
        [ | | done |]; [ | | rewrite Hs] end.
  { by repeat apply funnelAcyclic_modify. }
  { repeat apply is_Some_lookup_modify. by exists tr. }
  by eexists.
Qed.

Lemma goBufferEnd_isAd (n : Z) (s : TrackerState) :
  TrackerState.isAd (TrackerState.goBufferEnd n s).2 = TrackerState.isAd s.
Proof. unfold TrackerState.goBufferEnd. by destruct (phase s). Qed.

(** An accepted [sendBufferEnd] returns and delivers its event with the
    buffer type that [_lastBufferType] holds. *)
Lemma sendBufferEnd_accepted (rank : ref → nat) (fuel : nat) (t : ref)
    (att : option Bag) (w : World) (tr : VideoTracker) :
  funnelAcyclic rank w → (rank t < fuel)%nat → trackers w !! t = Some tr →
  (TrackerState.goBufferEnd (now w) (state tr)).1 = true →
  is_nullish (_lastBufferType tr) = false →
  ∃ w' bag l,
    sendBufferEnd fuel t att w = Some w'
    ∧ sink w' = sink w ++ (t, bufferEndEvent (state tr), Some bag) :: l
    ∧ bag !! "bufferType" = Some (_lastBufferType tr).
Proof.
  intros Hac Hf Htr Hacc Hnn. unfold sendBufferEnd, isAd.
  rewrite (go_Some _ t w tr Htr), Hacc. wsimpl. wunfold. wlookup. wsimpl.
  unfold deltaTime. wlookup. wsimpl. rewrite goBufferEnd_isAd.
  unfold bufferEndEvent.
  destruct (TrackerState.isAd (state tr));
    (match goal with |- context [buildBufferAttributes t ?a ?w0] =>
       destruct (buildBufferAttributes_returns t a w0) as [bag Hb];
         [repeat apply is_Some_lookup_modify; by exists tr|]; rewrite Hb end;
     wsimpl; rewrite Hnn; cbn [negb];
     match goal with |- context [Tracker.send fuel t ?e ?b ?w0] =>
       destruct (send_returns rank fuel t e b w0) as (l & Hs & _);
         [ | | done |]; [ | | rewrite Hs] end;
     [ by repeat apply funnelAcyclic_modify
     | repeat apply is_Some_lookup_modify; by exists tr
     | wsimpl; eexists _, _, l; split; [reflexivity|]; split; [by wrew|];
       by rewrite lookup_insert_eq ]).
Qed.

(** ** Classification of a buffering episode *)



Lemma playingWorld_acyclic : funnelAcyclic (λ r, r) playingWorld.
Proof. apply (bool_decide_unpack _). vm_compute. exact I. Qed.


(** C9.  When an accepted [sendBufferStart] is followed, after any calls
    none of which is an accepted [sendBufferStart] on the same tracker, by an
    accepted [sendBufferEnd], the latter returns and delivers *_BUFFER_END
    with the very [bufferType] that the *_BUFFER_START carried. *)
Theorem C9_buffer_end_repeats_buffer_type (rank : ref → nat) (fuel : nat)
    (t : ref) (a1 a2 : option Bag) (cs : list Call) (w w1 w2 : World)
    (tr tr2 : VideoTracker) :
  trackers w !! t = Some tr →
  (TrackerState.goBufferStart (now w) (state tr)).1 = true →
  sendBufferStart fuel t a1 w = Some w1 →
  run fuel cs w1 = Some w2 → noBufferStart fuel t cs w1 →
  trackers w2 !! t = Some tr2 →
  (TrackerState.goBufferEnd (now w2) (state tr2)).1 = true →
  funnelAcyclic rank w2 → (rank t < fuel)%nat →
  ∃ bt bag1 l1 w3 bag2 l2,
    sink w1 = sink w ++ (t, bufferStartEvent (state tr), Some bag1) :: l1
    ∧ bag1 !! "bufferType" = Some bt
    ∧ sendBufferEnd fuel t a2 w2 = Some w3
    ∧ sink w3 = sink w2 ++ (t, bufferEndEvent (state tr2), Some bag2) :: l2
    ∧ bag2 !! "bufferType" = Some bt.
Proof.
  intros Htr Hacc Hs Hrun Hq Htr2 Hacc2 Hac Hf.
  destruct (sendBufferStart_inv fuel t a1 w w1 tr Htr Hacc Hs)
    as (bag1 & l1 & Hsink1 & Hbt1 & Hlbt1).
  pose proof (run_lbt fuel t _ cs w1 w2 Hrun Hq Hlbt1) as Hlbt2.
  unfold lastBufferTypeOf in Hlbt2. rewrite Htr2 in Hlbt2.
  injection Hlbt2 as Hlbt2.
  destruct (sendBufferEnd_accepted rank fuel t a2 w2 tr2 Hac Hf Htr2 Hacc2)
    as (w3 & bag2 & l2 & Hs3 & Hsink3 & Hbt2); [by rewrite Hlbt2|].
  exists (JStr (startBufferType (or_empty a1) (state tr))), bag1, l1, w3, bag2, l2.
  rewrite Hlbt2 in Hbt2. done.
Qed.

Lemma bufferingWorld_quiet : noBufferStart 3 0%nat whileBuffering bufferingWorld.
Proof.
  unfold whileBuffering. cbn [noBufferStart acceptsBufferStart].
  split; [tauto|]. intros w1 H1. vm_compute in H1. injection H1 as <-.
  split; [tauto|]. intros w2 H2. vm_compute in H2. injection H2 as <-.
  split.
  { intros (_ & tr & Hl & Hg). vm_compute in Hl. injection Hl as <-.
    vm_compute in Hg. discriminate. }
  intros w3 H3. vm_compute in H3. injection H3 as <-.
  split; [tauto|]. intros w4 H4. exact I.
Qed.

Lemma stillBufferingWorld_acyclic : funnelAcyclic (λ r, r) stillBufferingWorld.
Proof. apply (bool_decide_unpack _). vm_compute. exact I. Qed.

Lemma C9_buffer_end_repeats_buffer_type_witness :
  ∃ bt bag1 l1 w3 bag2 l2,
    sink bufferingWorld
    = sink playingWorld ++ (0%nat, "CONTENT_BUFFER_START", Some bag1) :: l1
    ∧ bag1 !! "bufferType" = Some bt
    ∧ sendBufferEnd 3 0%nat None stillBufferingWorld = Some w3
    ∧ sink w3 = sink stillBufferingWorld
                ++ (0%nat, "CONTENT_BUFFER_END", Some bag2) :: l2
    ∧ bag2 !! "bufferType" = Some bt.
Proof.
  destruct (C9_buffer_end_repeats_buffer_type (λ r, r) 3 0%nat None None
           whileBuffering playingWorld bufferingWorld stillBufferingWorld
           (default (newTracker 0) (trackers playingWorld !! 0%nat))
           (default (newTracker 0) (trackers stillBufferingWorld !! 0%nat)))
    as (bt & bag1 & l1 & w3 & bag2 & l2 & H1 & H2 & H3 & H4 & H5).
  - vm_compute. reflexivity.
  - vm_compute. reflexivity.
  - vm_compute. reflexivity.
  - vm_compute. reflexivity.
  - exact bufferingWorld_quiet.
  - vm_compute. reflexivity.
  - vm_compute. reflexivity.
  - exact stillBufferingWorld_acyclic.
  - lia.
  - exists bt, bag1, l1, w3, bag2, l2.
    exact (conj H1 (conj H2 (conj H3 (conj H4 H5)))).
Defined.

(** ** Properties of the states that every call keeps *)

Lemma now_modifyState x f w : now (modifyState x f w) = now w.
Proof. reflexivity. Qed.

Lemma now_setParentIsPlaying b tr w : now (setParentIsPlaying b tr w) = now w.
Proof. unfold setParentIsPlaying. by destruct (parentTracker tr). Qed.

Lemma now_stopHeartbeat x w : now (Tracker.stopHeartbeat x w) = now w.
Proof. reflexivity. Qed.

Lemma now_startHeartbeat x w : now (Tracker.startHeartbeat x w) = now w.
Proof. reflexivity. Qed.

Lemma now_Log_warn m w : now (Log_warn m w) = now w.
Proof. reflexivity. Qed.

Lemma now_if_warn (b : bool) m w : now (if b then Log_warn m w else w) = now w.
Proof. by destruct b. Qed.

Lemma send_now fuel x ev att w w' :
  Tracker.send fuel x ev att w = Some w' → now w' = now w.
Proof. intros H. by apply send_trackers in H as (_ & ? & _). Qed.

Lemma go_now g x w ok w' : go g x w = Some (ok, w') → now w' = now w.
Proof.
  unfold go. destruct (trackers w !! x); [|discriminate].
  cbn [mbind option_bind]. by intros [= _ <-].
Qed.

Ltac now_norm :=
  repeat first
    [ rewrite now_modifyState | rewrite now_modify
    | rewrite now_setParentIsPlaying | rewrite now_stopHeartbeat
    | rewrite now_startHeartbeat | rewrite now_Log_warn
    | rewrite now_if_warn ].

Ltac now_norm_in H :=
  repeat first
    [ rewrite now_modifyState in H | rewrite now_modify in H
    | rewrite now_setParentIsPlaying in H | rewrite now_stopHeartbeat in H
    | rewrite now_startHeartbeat in H | rewrite now_Log_warn in H
    | rewrite now_if_warn in H ].

(** The instants of the worlds a method went through. *)
Ltac now_facts :=
  repeat match goal with
  | H : Tracker.send _ _ _ _ ?w = Some ?w' |- _ =>
      lazymatch goal with
      | _ : now w' = _ |- _ => fail
      | _ => let N := fresh "Hnow" in
             pose proof (send_now _ _ _ _ _ _ H) as N; now_norm_in N
      end
  | H : go _ _ ?w = Some (_, ?w') |- _ =>
      lazymatch goal with
      | _ : now w' = _ |- _ => fail
      | _ => let N := fresh "Hnow" in
             pose proof (go_now _ _ _ _ _ H) as N; now_norm_in N
      end
  end.

Section StateInvariant.

Variable P : ref → Z → option TrackerState → Prop.
Variable endOk : ref → Prop.

Hypothesis P_tick : ∀ x n (d : N) o, P x n o → P x (n + Z.of_N d) o.
Hypothesis P_new : ∀ x n, P x n None → P x n (Some (TrackerState.new n)).
Hypothesis P_op :
  ∀ op x n o, (op = OpEnd → endOk x) → P x n o → P x n (runOp op n <$> o).

Lemma keeping_refl (w : World) : keeping P w w.
Proof. by split. Qed.

Lemma keeping_modifyState (op : StateOp) (w0 w : World) (x : ref)
    (f : TrackerState → TrackerState) :
  (∀ s, f s = runOp op (now w0) s) → (op = OpEnd → endOk x) →
  keeping P w0 w → keeping P w0 (modifyState x f w).
Proof.
  intros Hf Hend [Hn Hk]. split; [done|]. intros H0 y.
  specialize (Hk H0 y). unfold modifyState. rewrite lookup_modify.
  cbn [now modify set_trackers]. destruct (decide (x = y)) as [->|]; [|done].
  rewrite Hn in *. destruct (trackers w !! y) as [tr|]; simpl in *.
  - rewrite Hf. by apply (P_op op y _ (Some (state tr))).
  - done.
Qed.

Lemma keeping_modify (w0 w : World) (x : ref) (f : VideoTracker → VideoTracker) :
  (∀ tr, state (f tr) = state tr) →
  keeping P w0 w → keeping P w0 (modify x f w).
Proof.
  intros Hf [Hn Hk]. split; [done|]. intros H0 y.
  specialize (Hk H0 y). rewrite lookup_modify. cbn [now modify set_trackers].
  destruct (decide (x = y)) as [->|]; [|done].
  destruct (trackers w !! y) as [tr|]; simpl in *; [|done]. by rewrite Hf.
Qed.

Lemma keeping_send (w0 w w' : World) (fuel : nat) (x : ref) (ev : string)
    (att : option Bag) :
  Tracker.send fuel x ev att w = Some w' → keeping P w0 w → keeping P w0 w'.
Proof. intros Hs Hk. by apply send_sink in Hs as (l & -> & _). Qed.

Lemma keeping_go (op : StateOp) (w0 w w' : World) (x : ref) (ok : bool)
    (g : TrackerState → bool * TrackerState) :
  go g x w = Some (ok, w') →
  (∀ s, (g s).2 = runOp op (now w0) s) → (op = OpEnd → endOk x) →
  keeping P w0 w → keeping P w0 w'.
Proof.
  unfold go. destruct (trackers w !! x); [|discriminate].
  cbn [mbind option_bind]. intros [= _ <-] Hg Hend Hk.
  by apply (keeping_modifyState op).
Qed.

Lemma keeping_setParentIsPlaying (w0 w : World) (b : bool) (tr : VideoTracker) :
  keeping P w0 w → keeping P w0 (setParentIsPlaying b tr w).
Proof.
  intros Hk. unfold setParentIsPlaying. destruct (parentTracker tr); [|done].
  by apply (keeping_modifyState (OpIsPlaying b)).
Qed.

Lemma keeping_Log_warn (w0 w : World) (m : string) :
  keeping P w0 w → keeping P w0 (Log_warn m w).
Proof. done. Qed.

Lemma keeping_getRenditionShift (w0 w : World) (x : ref) (b : bool) :
  keeping P w0 w →
  keeping P w0 (modify x (λ tr, (getRenditionShift b tr).2) w).
Proof.
  apply keeping_modify. intros tr. rewrite getRenditionShift_tracker.
  by destruct b, (TrackerState.isAd (state tr)).
Qed.

Ltac keep_fun :=
  intros ?; cbn [runOp]; now_norm;
  repeat match goal with H : now _ = now _ |- _ => progress rewrite H end;
  reflexivity.

Ltac keep_end := first [ discriminate | intros _; assumption ].

Ltac ms_with op :=
  eapply (keeping_modifyState op); [ solve [keep_fun] | solve [keep_end] | ].

Ltac go_with op H :=
  eapply (keeping_go op _ _ _ _ _ _ H); [ solve [keep_fun] | solve [keep_end] | ].

Ltac all_ops k :=
  first
    [ k OpPlayerReady | k OpRequest | k OpStart | k OpEnd | k OpPause
    | k OpResume | k OpBufferStart | k OpBufferEnd | k OpSeekStart
    | k OpSeekEnd | k OpAdBreakStart | k OpAdBreakEnd | k OpHeartbeat
    | k OpViewCountUp | k OpLastAd | k OpAdQuartile | k OpDownload
    | k OpError | k OpRenditionChange | k uconstr:(OpTimeSince _)
    | k uconstr:(OpIsAd _) | k uconstr:(OpIsPlaying _)
    | k uconstr:(OpInitialBufferingHappened _)
    | k uconstr:(OpTotalPlaytime _) | k uconstr:(OpTotalAdPlaytime _) ].

Lemma keeping_dispose (fuel : nat) :
  ∀ (w0 w w' : World) (x : ref),
    dispose fuel x w = Some w' → keeping P w0 w → keeping P w0 w'.
Proof.
  induction fuel as [|f IH]; intros w0 w w' x H Hk; [discriminate|].
  cbn [dispose] in H. unfold disposeAdsTracker_with in H. inv_all.
  - injection H as <-. apply keeping_modify; [done|].
    eapply IH; [eassumption|]. unfold Tracker.off, Tracker.stopHeartbeat.
    by repeat (apply keeping_modify; [done|]).
  - injection H as <-. match goal with H : Some _ = Some _ |- _ => injection H as <- end.
    unfold Tracker.stopHeartbeat. by repeat (apply keeping_modify; [done|]).
Qed.

Ltac solve_keeping :=
  repeat lazymatch goal with
  | |- keeping _ ?w ?w => apply keeping_refl
  | |- keeping _ _ (modifyState ?x ?f ?w) =>
      all_ops ltac:(fun op => ms_with op)
  | |- keeping _ _ (modify _ (λ tr, (getRenditionShift _ tr).2) _) =>
      apply keeping_getRenditionShift
  | |- keeping _ _ (modify _ _ _) => apply keeping_modify; [done|]
  | |- keeping _ _ (setParentIsPlaying _ _ _) => apply keeping_setParentIsPlaying
  | |- keeping _ _ (Log_warn _ _) => apply keeping_Log_warn
  | |- keeping _ _ (Tracker.stopHeartbeat _ _) => unfold Tracker.stopHeartbeat
  | |- keeping _ _ (Tracker.startHeartbeat _ _) => unfold Tracker.startHeartbeat
  | |- keeping _ _ (Tracker.on _ _ _) => unfold Tracker.on
  | |- keeping _ _ (Tracker.off _ _ _) => unfold Tracker.off
  | |- keeping _ _ (setIsAd _ _ _) => unfold setIsAd
  | |- keeping _ _ (if ?b then _ else _) => destruct b
  | |- keeping _ _ (match ?o with _ => _ end) => destruct o
  | |- keeping _ _ ?wj =>
      is_var wj;
      match goal with
      | H : Tracker.send _ _ _ _ _ = Some wj |- _ => eapply keeping_send; [exact H|]
      | H : go _ _ _ = Some (_, wj) |- _ =>
          all_ops ltac:(fun op => go_with op H)
      | H : dispose _ _ _ = Some wj |- _ => eapply keeping_dispose; [exact H|]
      end
  end.

Lemma step_keeping (fuel : nat) (c : Call) (w w' : World) :
  callOk endOk c → step fuel c w = Some w' →
  match c with Tick _ | New _ => True | _ => keeping P w w' end.
Proof.
  intros Hc Hs. destruct c; [done|done|..]; cbn [step callOk] in *;
    unfold sendCustom, sendPlayerReady, sendRequest, sendStart, sendEnd,
      sendPause, sendResume, sendBufferStart, sendBufferEnd, sendSeekStart,
      sendSeekEnd, sendDownload, sendError, sendRenditionChanged, sendHeartbeat,
      sendAdBreakStart, sendAdBreakEnd, sendAdQuartile, sendAdClick,
      setOptions, Tracker.setOptions, setAdsTracker, disposeAdsTracker,
      disposeAdsTracker_with in Hs;
    inv_all; now_facts;
    repeat match goal with H : Some _ = Some _ |- _ => injection H as <- end;
    solve_keeping.
Qed.

Theorem step_statesHold (fuel : nat) (c : Call) (w w' : World) :
  callOk endOk c → step fuel c w = Some w' →
  statesHold P w → statesHold P w'.
Proof.
  intros Hc Hs Hw. pose proof (step_keeping fuel c w w' Hc Hs) as Hk.
  destruct c; try (by apply Hk); cbn [step] in Hs.
  - injection Hs as <-. intros x. cbn [now trackers set_now]. apply P_tick, Hw.
  - destruct (trackers w !! r) eqn:Hr; [discriminate|]. injection Hs as <-.
    intros x. unfold construct. cbn [now trackers set_trackers].
    destruct (decide (r = x)) as [->|Hne].
    + rewrite lookup_insert_eq. simpl. apply P_new.
      specialize (Hw x). by rewrite Hr in Hw.
    + rewrite lookup_insert_ne by done. apply Hw.
Qed.

Theorem run_statesHold (fuel : nat) (cs : list Call) :
  ∀ w w', Forall (callOk endOk) cs → run fuel cs w = Some w' →
          statesHold P w → statesHold P w'.
Proof.
  induction cs as [|c cs IH]; intros w w' Hcs Hr Hw; cbn [run] in Hr.
  - by injection Hr as <-.
  - destruct (step fuel c w) as [w1|] eqn:Hs; [|discriminate].
    cbn [mbind option_bind] in Hr. inversion Hcs; subst.
    apply (IH w1 w'); [done|done|]. by apply (step_statesHold fuel c w).
Qed.


End StateInvariant.

Lemma stateClockOk_mono (n m : Z) (s : TrackerState) :
  n ≤ m → stateClockOk n s → stateClockOk m s.
Proof.
  intros Hnm [Hc Hm]. split; [lia|].
  eapply map_Forall_impl; [exact Hm|]. simpl. intros; lia.
Qed.

Lemma stateClockOk_new (n : Z) : stateClockOk n (TrackerState.new n).
Proof. split; simpl; [lia|]. apply map_Forall_empty. Qed.

Lemma stateClockOk_mark (name : string) (n : Z) (s : TrackerState) :
  stateClockOk n s → stateClockOk n (TrackerState.markChrono name n s).
Proof.
  intros [Hc Hm]. split; [done|]. simpl.
  apply map_Forall_insert_2; [simpl; lia|done].
Qed.

Lemma stateClockOk_fields (n : Z) (s s' : TrackerState) :
  createdAt s' = createdAt s → chronos s' = chronos s →
  stateClockOk n s → stateClockOk n s'.
Proof. intros Hc Hm [? ?]. split; by rewrite ?Hc, ?Hm. Qed.

Lemma stateClockOk_op (op : StateOp) (n : Z) (s : TrackerState) :
  stateClockOk n s → stateClockOk n (runOp op n s).
Proof.
  intros Hs.
  destruct op; cbn [runOp];
    unfold TrackerState.goPlayerReady, TrackerState.goRequest,
      TrackerState.goStart, TrackerState.goEnd, TrackerState.goPause,
      TrackerState.goResume, TrackerState.goBufferStart,
      TrackerState.goBufferEnd, TrackerState.goSeekStart,
      TrackerState.goSeekEnd, TrackerState.goAdBreakStart,
      TrackerState.goAdBreakEnd, TrackerState.goHeartbeat,
      TrackerState.goViewCountUp, TrackerState.goLastAd,
      TrackerState.goAdQuartile, TrackerState.goDownload, TrackerState.goError,
      TrackerState.goRenditionChange, TrackerState.setTimeSinceAttribute,
      TrackerState.setIsAd, TrackerState.enter;
    repeat match goal with
    | |- context [match ?p with _ => _ end] => destruct p
    end;
    cbn [fst snd]; try assumption;
    repeat first
      [ assumption
      | apply stateClockOk_mark
      | eapply stateClockOk_fields; [reflexivity | reflexivity |] ].
Qed.

Lemma isRequested_activePhase (s : TrackerState) :
  TrackerState.isRequested s = activePhase (phase s).
Proof. reflexivity. Qed.

(** No operation breaks the well-formedness of the phases, and none but
    [goEnd] leaves a requested view. *)
Lemma phaseInv_op (op : StateOp) (n : Z) (s : TrackerState) :
  phaseInv s = true →
  phaseInv (runOp op n s) = true
  ∧ (op ≠ OpEnd → TrackerState.isRequested s = true →
     TrackerState.isRequested (runOp op n s) = true).
Proof.
  destruct s as [ad p bR sR started playing adBreak ibh tp tap vs vc na ca ch].
  unfold phaseInv, TrackerState.isRequested. cbn [phase bufferReturn seekReturn].
  intros Hs.
  destruct op; cbn [runOp];
    unfold TrackerState.goPlayerReady, TrackerState.goRequest,
      TrackerState.goStart, TrackerState.goEnd, TrackerState.goPause,
      TrackerState.goResume, TrackerState.goBufferStart,
      TrackerState.goBufferEnd, TrackerState.goSeekStart,
      TrackerState.goSeekEnd, TrackerState.goAdBreakStart,
      TrackerState.goAdBreakEnd, TrackerState.goHeartbeat,
      TrackerState.isRequested;
    cbn [phase bufferReturn seekReturn isStarted isAdBreak];
    try (split; [exact Hs | intros _ H; exact H]);
    try (destruct adBreak; (split; [exact Hs | intros _ H; exact H]));
    destruct p, bR, sR; try discriminate Hs; try destruct started;
    (split; [reflexivity
            | intros Hne H; first [ exact H | reflexivity | by destruct Hne ] ]).
Qed.

(** *** The clock stays monotonic *)

Lemma clockOk_statesHold (w : World) : clockOk w ↔ statesHold clockProp w.
Proof.
  unfold clockOk, statesHold, clockProp. rewrite map_Forall_lookup. split.
  - intros H x s Hs. apply fmap_Some in Hs as (tr & Htr & ->). by apply (H x).
  - intros H x tr Htr. apply (H x). by rewrite Htr.
Qed.

Lemma callOk_True (cs : list Call) : Forall (callOk (λ _, True)) cs.
Proof. apply Forall_forall. intros c _. by destruct c. Qed.

(** Every call sequence keeps the clock monotonic: the instants recorded in
    the states never lie in the future. *)
Theorem run_clockOk (fuel : nat) (cs : list Call) (w w' : World) :
  run fuel cs w = Some w' → clockOk w → clockOk w'.
Proof.
  rewrite !clockOk_statesHold.
  apply (run_statesHold clockProp (λ _, True)); [| | |apply callOk_True].
  - intros x n d o H s Hs. apply (stateClockOk_mono n); [lia|by apply H].
  - intros x n _ s [= <-]. apply stateClockOk_new.
  - intros op x n o _ H s Hs. apply fmap_Some in Hs as (s0 & -> & ->).
    by apply stateClockOk_op, H.
Qed.

Lemma emptyWorld_clockOk : clockOk emptyWorld.
Proof. apply map_Forall_empty. Qed.

(** *** A requested view stays requested until its end *)

Lemma requested_statesHold (t : ref) (w : World) :
  phaseOk w ∧ requestedAt t w ↔ statesHold (requestedProp t) w.
Proof.
  unfold phaseOk, requestedAt, statesHold, requestedProp.
  rewrite map_Forall_lookup. split.
  - intros [Hp (tr & Htr & Hrq)] x. split.
    + intros s Hs. apply fmap_Some in Hs as (tr' & Htr' & ->). by apply (Hp x).
    + intros ->. exists (state tr). by rewrite Htr.
  - intros H. split.
    + intros x tr Htr. apply (H x). by rewrite Htr.
    + destruct (H t) as [_ Ht]. destruct (Ht eq_refl) as (s & Hs & Hrq).
      apply fmap_Some in Hs as (tr & Htr & ->). by exists tr.
Qed.

Theorem run_requested (fuel : nat) (t : ref) (cs : list Call) (w w' : World) :
  Forall (notSendEnd t) cs → run fuel cs w = Some w' →
  phaseOk w → requestedAt t w → phaseOk w' ∧ requestedAt t w'.
Proof.
  intros Hcs Hr Hp Hrq. apply requested_statesHold.
  refine (run_statesHold (requestedProp t) (λ x, x ≠ t) _ _ _ fuel cs w w' Hcs Hr _).
  - intros x n d o H. exact H.
  - intros x n [_ H]. split.
    + intros s [= <-]. reflexivity.
    + intros ->. by destruct (H eq_refl) as (? & ? & _).
  - intros op x n o Hend [Hinv Hreq]. split.
    + intros s Hs. apply fmap_Some in Hs as (s0 & -> & ->).
      by apply phaseInv_op, Hinv.
    + intros ->. destruct (Hreq eq_refl) as (s & -> & Hrq'). exists (runOp op n s).
      split; [done|]. apply phaseInv_op; [by apply Hinv| |done].
      intros ->. by apply Hend.
  - by apply requested_statesHold.
Qed.

Theorem run_phaseOk (fuel : nat) (cs : list Call) (w w' : World) :
  run fuel cs w = Some w' → phaseOk w → phaseOk w'.
Proof.
  intros Hr Hp.
  assert (Hs : statesHold (λ _ _ o, ∀ s, o = Some s → phaseInv s = true) w).
  { intros x s Hs. apply fmap_Some in Hs as (tr & Htr & ->).
    by apply (map_Forall_lookup_1 _ _ _ _ Hp Htr). }
  cut (statesHold (λ _ _ o, ∀ s, o = Some s → phaseInv s = true) w').
  { intros Hs' x tr Htr. apply (Hs' x). by rewrite Htr. }
  refine (run_statesHold _ (λ _, True) _ _ _ fuel cs w w' (callOk_True cs) Hr Hs).
  - intros x n d o H. exact H.
  - intros x n _ s [= <-]. reflexivity.
  - intros op x n o _ H s Hs'. apply fmap_Some in Hs' as (s0 & -> & ->).
    by apply phaseInv_op, H.
Qed.

Lemma emptyWorld_phaseOk : phaseOk emptyWorld.
Proof. apply map_Forall_empty. Qed.

(** ** Duplicate requests, in any call sequence *)

(** C1, amended.  Of two [sendRequest] calls on a tracker with no [sendEnd]
    on it in between, whatever else is called meanwhile, the second is
    rejected by the [goRequest] guard: it delivers nothing and changes
    nothing.  The first delivers exactly one request event for the tracker
    when its view was not yet requested and none when it was, so the two
    calls deliver at most one; when only time passes and timers fire between
    them, that is all the request events the tracker delivers from the first
    call to the second. *)
Theorem C1_second_request_suppressed (rank : ref → nat) (fuel : nat) (t : ref)
    (a1 a2 : option Bag) (between : list Call) (w : World) (tr : VideoTracker) :
  funnelAcyclic rank w → (rank t < fuel)%nat →
  trackers w !! t = Some tr → phaseOk w → Forall (notSendEnd t) between →
  ∃ w1,
    sendRequest fuel t a1 w = Some w1
    ∧ countRequests t (deliveredSince (length (sink w)) w1)
      = (if TrackerState.isRequested (state tr) then 0%nat else 1%nat)
    ∧ ∀ w2, run fuel between w1 = Some w2 →
        sendRequest fuel t a2 w2 = Some w2
        ∧ (forallb idle between = true →
           countRequests t (deliveredSince (length (sink w)) w2)
           = if TrackerState.isRequested (state tr) then 0%nat else 1%nat).
Proof.
  intros Hac Hf Htr Hp Hbetween. unfold deliveredSince.
  assert (Hfirst : ∃ w1 l,
    sendRequest fuel t a1 w = Some w1
    ∧ sink w1 = sink w ++ l
    ∧ countRequests t l
      = (if TrackerState.isRequested (state tr) then 0%nat else 1%nat)
    ∧ requestedAt t w1).
  { destruct (TrackerState.isRequested (state tr)) eqn:Hrq.
    - exists w, []. split; [by apply (sendRequest_rejected _ _ _ _ tr)|].
      split; [by rewrite app_nil_r|]. split; [done|]. by exists tr.
    - destruct (sendRequest_accepted rank fuel t a1 w tr Hac Hf Htr Hrq)
        as (w1 & l & Hs & E1 & Hl & Hreq).
      exists w1, ((t, if TrackerState.isAd (state tr)
                      then "AD_REQUEST" else "CONTENT_REQUEST", a1) :: l).
      split; [done|]. split; [done|]. split; [|done].
      rewrite (countRequests_emitted rank) by done.
      by destruct (TrackerState.isAd (state tr)). }
  destruct Hfirst as (w1 & l & Hs & E1 & Hcount & Hreq).
  exists w1. split; [done|]. split.
  { by rewrite E1, drop_app_length. }
  intros w2 Hrun.
  assert (Hp1 : phaseOk w1).
  { apply (run_phaseOk fuel [CallSendRequest t a1] w w1); [|done].
    cbn [run step]. by rewrite Hs. }
  destruct (run_requested fuel t between w1 w2 Hbetween Hrun Hp1 Hreq)
    as (_ & tr2 & Htr2 & Hrq2).
  split; [by apply (sendRequest_rejected _ _ _ _ tr2)|].
  intros Hidle.
  destruct (idle_run fuel t between Hidle w1 w2 Hrun) as (_ & l2 & E2 & F2).
  rewrite E2, E1, <- app_assoc, drop_app_length, countRequests_app, Hcount.
  rewrite (countRequests_other t l2); [lia|].
  eapply Forall_impl; [exact F2|]. intros d ?. by right.
Qed.

Lemma freshWorld_acyclic : funnelAcyclic (λ r, r) freshWorld.
Proof. apply (bool_decide_unpack _). vm_compute. exact I. Qed.

Lemma freshWorld_phaseOk : phaseOk freshWorld.
Proof. apply (bool_decide_unpack _). vm_compute. exact I. Qed.

Lemma C1_second_request_suppressed_witness :
  ∃ w1,
    sendRequest 3 0%nat None freshWorld = Some w1
    ∧ countRequests 0%nat (deliveredSince (length (sink freshWorld)) w1) = 1%nat
    ∧ ∀ w2, run 3 [Tick 5; CallSendStart 0%nat None; HeartbeatTimer 0%nat] w1
            = Some w2 →
        sendRequest 3 0%nat None w2 = Some w2
        ∧ (forallb idle [Tick 5; CallSendStart 0%nat None; HeartbeatTimer 0%nat]
           = true →
           countRequests 0%nat (deliveredSince (length (sink freshWorld)) w2)
           = 1%nat).
Proof.
  apply (C1_second_request_suppressed (λ r, r) 3 0%nat None None
           [Tick 5; CallSendStart 0%nat None; HeartbeatTimer 0%nat]
           freshWorld (newTracker 0)).
  - exact freshWorld_acyclic.
  - lia.
  - vm_compute. reflexivity.
  - exact freshWorld_phaseOk.
  - repeat constructor.
Defined.

(** ** The scenario of the specification, run *)

Example scenario_events :
  ∃ w, run 3 scenarioCalls emptyWorld = Some w
       ∧ eventsOf 0%nat w
         = ["CONTENT_REQUEST"; "CONTENT_START"; "AD_REQUEST"; "AD_START";
            "AD_END"; "CONTENT_END"]
       ∧ eventsOf 1%nat w = ["AD_REQUEST"; "AD_START"; "AD_END"]
       ∧ latestAttribute "timeSinceStarted" w = Some (JNum 90000).
Proof. eexists. split; [vm_compute; reflexivity|]. vm_compute. repeat split. Qed.

(** ** Funnelling the events of the ads tracker *)

Section FunnelStays.

Variables c p : ref.

Lemma funnelsTo_modify (x : ref) (f : VideoTracker → VideoTracker) (w : World) :
  (∀ tr, FunnelAdEvents (Some p) ∈ listeners tr →
         FunnelAdEvents (Some p) ∈ listeners (f tr)) →
  funnelsTo c p w → funnelsTo c p (modify x f w).
Proof.
  intros Hf (tr & Htr & Hin). unfold funnelsTo. rewrite lookup_modify.
  destruct (decide (x = c)) as [->|]; [|by exists tr].
  rewrite Htr. exists (f tr). split; [done|]. by apply Hf.
Qed.

Lemma funnelsTo_modifyState (x : ref) (f : TrackerState → TrackerState) (w : World) :
  funnelsTo c p w → funnelsTo c p (modifyState x f w).
Proof. by apply funnelsTo_modify. Qed.

Lemma funnelsTo_send (fuel : nat) (x : ref) (ev : string) (att : option Bag)
    (w w' : World) :
  Tracker.send fuel x ev att w = Some w' → funnelsTo c p w → funnelsTo c p w'.
Proof. intros H. by apply send_sink in H as (l & -> & _). Qed.

Lemma funnelsTo_go (g : TrackerState → bool * TrackerState) (x : ref)
    (w w' : World) (ok : bool) :
  go g x w = Some (ok, w') → funnelsTo c p w → funnelsTo c p w'.
Proof.
  unfold go. destruct (trackers w !! x); [|discriminate].
  cbn [mbind option_bind]. intros [= _ <-]. apply funnelsTo_modifyState.
Qed.

Lemma funnelsTo_setParentIsPlaying (b : bool) (tr : VideoTracker) (w : World) :
  funnelsTo c p w → funnelsTo c p (setParentIsPlaying b tr w).
Proof.
  unfold setParentIsPlaying. destruct (parentTracker tr); [|done].
  apply funnelsTo_modifyState.
Qed.

Lemma funnelsTo_on (x : ref) (cb : Callback) (w : World) :
  funnelsTo c p w → funnelsTo c p (Tracker.on x cb w).
Proof.
  apply funnelsTo_modify. intros tr Hin. cbn [listeners set_listeners].
  apply elem_of_app. by left.
Qed.

(** [off] is given the unbound function, which is not the bound funnel. *)
Lemma funnelsTo_off (x : ref) (w : World) :
  funnelsTo c p w → funnelsTo c p (Tracker.off x (FunnelAdEvents None) w).
Proof.
  apply funnelsTo_modify. intros tr Hin. cbn [listeners set_listeners].
  apply list_elem_of_filter. by split.
Qed.

Lemma funnelsTo_getRenditionShift (x : ref) (b : bool) (w : World) :
  funnelsTo c p w →
  funnelsTo c p (modify x (λ tr, (getRenditionShift b tr).2) w).
Proof.
  apply funnelsTo_modify. intros tr Hin. rewrite getRenditionShift_tracker.
  by destruct b, (TrackerState.isAd (state tr)).
Qed.

Lemma funnelsTo_Log_warn (m : string) (w : World) :
  funnelsTo c p w → funnelsTo c p (Log_warn m w).
Proof. done. Qed.

Lemma funnelsTo_dispose (fuel : nat) :
  ∀ (x : ref) (w w' : World),
    dispose fuel x w = Some w' → funnelsTo c p w → funnelsTo c p w'.
Proof.
  induction fuel as [|f IH]; intros x w w' H Hw; [discriminate|].
  cbn [dispose] in H. unfold disposeAdsTracker_with in H. inv_all.
  - injection H as <-. apply funnelsTo_modify; [done|].
    eapply IH; [eassumption|]. apply funnelsTo_off.
    unfold Tracker.stopHeartbeat. by apply funnelsTo_modify.
  - injection H as <-.
    match goal with H : Some _ = Some _ |- _ => injection H as <- end.
    apply funnelsTo_modify; [done|].
    unfold Tracker.stopHeartbeat. by apply funnelsTo_modify.
Qed.

Ltac funnel_chain :=
  repeat match goal with
  | H : Tracker.send _ _ _ _ _ = Some _ |- _ =>
      let H' := fresh "Hf" in
      pose proof (funnelsTo_send _ _ _ _ _ _ H) as H'; clear H
  | H : go _ _ _ = Some (_, _) |- _ =>
      let H' := fresh "Hf" in
      pose proof (funnelsTo_go _ _ _ _ _ H) as H'; clear H
  | H : dispose _ _ _ = Some _ |- _ =>
      let H' := fresh "Hf" in
      pose proof (funnelsTo_dispose _ _ _ _ H) as H'; clear H
  | H : Some _ = Some _ |- _ => injection H as <-
  end;
  repeat lazymatch goal with
  | |- funnelsTo _ _ (modifyState _ _ _) => apply funnelsTo_modifyState
  | |- funnelsTo _ _ (setParentIsPlaying _ _ _) => apply funnelsTo_setParentIsPlaying
  | |- funnelsTo _ _ (Tracker.on _ _ _) => apply funnelsTo_on
  | |- funnelsTo _ _ (Tracker.off _ _ _) => apply funnelsTo_off
  | |- funnelsTo _ _ (modify _ (λ tr, (getRenditionShift _ tr).2) _) =>
      apply funnelsTo_getRenditionShift
  | |- funnelsTo _ _ (modify _ _ _) => apply funnelsTo_modify; [done|]
  | |- funnelsTo _ _ (Tracker.stopHeartbeat _ _) => unfold Tracker.stopHeartbeat
  | |- funnelsTo _ _ (Tracker.startHeartbeat _ _) => unfold Tracker.startHeartbeat
  | |- funnelsTo _ _ (setIsAd _ _ _) => unfold setIsAd
  | |- funnelsTo _ _ (Log_warn _ _) => apply funnelsTo_Log_warn
  | |- funnelsTo _ _ (if ?b then _ else _) => destruct b
  | |- funnelsTo _ _ (match ?o with _ => _ end) => destruct o
  | |- funnelsTo _ _ ?b =>
      is_var b;
      match goal with
      | H : funnelsTo _ _ b |- _ => exact H
      | H : funnelsTo _ _ ?a → funnelsTo _ _ b |- _ => apply H
      end
  end.

(** No call removes the funnel from the listeners of the ads tracker. *)
Lemma step_funnelsTo (fuel : nat) (call : Call) (w w' : World) :
  step fuel call w = Some w' → funnelsTo c p w → funnelsTo c p w'.
Proof.
  intros Hs Hw.
  destruct call; cbn [step] in Hs;
    unfold sendCustom, sendPlayerReady, sendRequest, sendStart, sendEnd,
      sendPause, sendResume, sendBufferStart, sendBufferEnd, sendSeekStart,
      sendSeekEnd, sendDownload, sendError, sendRenditionChanged, sendHeartbeat,
      sendAdBreakStart, sendAdBreakEnd, sendAdQuartile, sendAdClick,
      setOptions, Tracker.setOptions, setAdsTracker, disposeAdsTracker,
      disposeAdsTracker_with in Hs;
    inv_all; try (funnel_chain; fail).
  - injection Hs as <-. exact Hw.
  - injection Hs as <-. destruct Hw as (tr & Htr & Hin). exists tr.
    split; [|done]. unfold construct. cbn [trackers set_trackers].
    rewrite lookup_insert_ne; [done|]. intros ->. congruence.
Qed.

Lemma run_funnelsTo (fuel : nat) (cs : list Call) :
  ∀ w w', run fuel cs w = Some w' → funnelsTo c p w → funnelsTo c p w'.
Proof.
  induction cs as [|call cs IH]; intros w w' Hr Hw; cbn [run] in Hr.
  - by injection Hr as <-.
  - destruct (step fuel call w) as [w1|] eqn:Hs; [|discriminate].
    cbn [mbind option_bind] in Hr.
    apply (IH w1 w' Hr). by apply (step_funnelsTo fuel call w).
Qed.

End FunnelStays.




(** ** Calls that the state machine rejects *)

Lemma guard_rejected (c : Call) (t : ref)
    (g : Z → TrackerState → bool * TrackerState) (n : Z) (s : TrackerState) :
  guardOf c = Some (t, g) → (g n s).1 = false → g n s = (false, s).
Proof.
  destruct c; cbn [guardOf]; try discriminate; intros [= <- <-];
    unfold TrackerState.goPlayerReady, TrackerState.goRequest,
      TrackerState.goStart, TrackerState.goEnd, TrackerState.goPause,
      TrackerState.goResume, TrackerState.goBufferStart,
      TrackerState.goBufferEnd, TrackerState.goSeekStart,
      TrackerState.goSeekEnd, TrackerState.goAdBreakStart,
      TrackerState.goAdBreakEnd;
    repeat match goal with
    | |- context [match ?p with _ => _ end] => destruct p
    end; cbn [fst]; (discriminate || reflexivity).
Qed.

(** X1.  An invalid transition is silently ignored.  When the transition
    that guards a call of the [send*] family returns false on the state of
    the tracker, the call returns and the world after it is the world
    before it: no event is delivered, nothing is logged, no state, timer or
    listener changes. *)
Theorem rejected_call_changes_nothing (fuel : nat) (c : Call) (t : ref)
    (g : Z → TrackerState → bool * TrackerState) (w : World) (tr : VideoTracker) :
  guardOf c = Some (t, g) → trackers w !! t = Some tr →
  (g (now w) (state tr)).1 = false →
  step fuel c w = Some w.
Proof.
  intros Hg Htr Hrej. pose proof (guard_rejected c t g _ _ Hg Hrej) as Hs.
  destruct c; cbn [guardOf] in Hg; try discriminate; injection Hg as <- <-;
    cbn [step];
    unfold sendPlayerReady, sendRequest, sendStart, sendEnd, sendPause,
      sendResume, sendBufferStart, sendBufferEnd, sendSeekStart, sendSeekEnd,
      sendAdBreakStart, sendAdBreakEnd, isAd;
    rewrite ?Htr; cbn [mbind option_bind];
    try (by rewrite (go_rejected _ _ w tr Htr Hs)).
  all: destruct (TrackerState.isAd (state tr)); [|done].
  all: by rewrite (go_rejected _ _ w tr Htr Hs).
Qed.

Lemma rejected_call_changes_nothing_witness :
  step 3 (CallSendPause 0%nat None) freshWorld = Some freshWorld.
Proof.
  apply (rejected_call_changes_nothing 3 (CallSendPause 0%nat None) 0%nat
           TrackerState.goPause freshWorld (newTracker 0));
    vm_compute; reflexivity.
Defined.

(** ** Errors *)

(** X2.  [sendError] is never suppressed.  Whatever the state of the
    tracker, the call returns (given acyclic funnels and enough fuel) and
    delivers one event for it, AD_ERROR or CONTENT_ERROR by the ad flag,
    whose [isAd] attribute is the ad flag of the tracker, also when the
    caller passed an [isAd] of its own; the other attributes of the caller
    are delivered as given, and nothing is logged. *)
Theorem sendError_always_emits (rank : ref → nat) (fuel : nat) (t : ref)
    (att : option Bag) (w : World) (tr : VideoTracker) :
  funnelAcyclic rank w → trackers w !! t = Some tr → (rank t < fuel)%nat →
  ∃ w' l bag,
    sendError fuel t att w = Some w'
    ∧ sink w' = sink w ++ (t, errorEventOf (state tr), Some bag) :: l
    ∧ Forall (λ d : Delivery, d.1.1 ≠ t) l
    ∧ bag !! "isAd" = Some (JBool (TrackerState.isAd (state tr)))
    ∧ (∀ k, k ≠ "isAd" → bag !! k = or_empty att !! k)
    ∧ log w' = log w.
Proof.
  intros Hac Htr Hf. unfold sendError, isAd. rewrite Htr. wsimpl.
  rewrite (modifyState_same t _ w tr Htr) by reflexivity.
  rewrite Htr. wsimpl.
  match goal with |- context [Tracker.send fuel t ?e ?b ?w0] =>
    destruct (send_returns rank fuel t e b w0) as (l & Hs & Hl);
      [done | by exists tr | done |]; rewrite Hs end.
  eexists _, l, _. split; [reflexivity|]. wsimpl.
  split; [reflexivity|].
  split.
  { eapply Forall_impl; [exact Hl|]. intros d (Hd & _) Heq.
    rewrite Heq in Hd. lia. }
  split; [by rewrite lookup_insert_eq|]. split; [|done].
  intros k Hk. by rewrite lookup_insert_ne.
Qed.

Lemma sendError_always_emits_witness :
  ∃ w' l bag,
    sendError 3 1%nat (Some (<["isAd" := JBool false]> ∅)) demoWorld = Some w'
    ∧ sink w' = sink demoWorld ++ (1%nat, "AD_ERROR", Some bag) :: l
    ∧ bag !! "isAd" = Some (JBool true).
Proof.
  destruct (sendError_always_emits (λ r, r) 3 1%nat
              (Some (<["isAd" := JBool false]> ∅)) demoWorld
              (default (newTracker 0) (trackers demoWorld !! 1%nat)))
    as (w' & l & bag & H1 & H2 & _ & H3 & _).
  - exact demoWorld_acyclic.
  - vm_compute. reflexivity.
  - lia.
  - exists w', l, bag. exact (conj H1 (conj H2 H3)).
Defined.

(** ** Required fields that are present but falsy *)

Lemma get_present (att : Bag) (k : string) (v : JsVal) :
  att !! k = Some v → get att k = v.
Proof. intros H. unfold get. by rewrite H. Qed.

(** X3.  The check for a required field is a truthiness test, so a field
    that is present with a falsy value (quartile 0, an empty state label or
    url) is reported as missing, while the event is delivered all the same
    and carries the value that was given. *)
Theorem falsy_field_warned_and_delivered (rank : ref → nat) (fuel : nat)
    (t : ref) (att : option Bag) (w : World) (tr : VideoTracker) (v : JsVal) :
  funnelAcyclic rank w → trackers w !! t = Some tr → (rank t < fuel)%nat →
  truthy v = false →
  (or_empty att !! "state" = Some v →
   ∃ w' l bag,
     sendDownload fuel t att w = Some w'
     ∧ log w' = log w ++ [Warn "Called sendDownload without { state: xxxxx }."]
     ∧ sink w' = sink w ++ (t, "DOWNLOAD", Some bag) :: l
     ∧ bag !! "state" = Some v)
  ∧ (TrackerState.isAd (state tr) = true → or_empty att !! "quartile" = Some v →
     ∃ w' l bag,
       sendAdQuartile fuel t att w = Some w'
       ∧ log w' = log w ++ [Warn "Called sendAdQuartile without { quartile: xxxxx }."]
       ∧ sink w' = sink w ++ (t, "AD_QUARTILE", Some bag) :: l
       ∧ bag !! "quartile" = Some v)
  ∧ (TrackerState.isAd (state tr) = true → or_empty att !! "url" = Some v →
     ∃ w' l bag,
       sendAdClick fuel t att w = Some w'
       ∧ log w' = log w ++ [Warn "Called sendAdClick without { url: xxxxx }."]
       ∧ sink w' = sink w ++ (t, "AD_CLICK", Some bag) :: l
       ∧ bag !! "url" = Some v).
Proof.
  intros Hac Htr Hfuel Hv. split; [|split].
  - intros Hk. unfold sendDownload. rewrite (get_present _ _ _ Hk), Hv. cbn [negb].
    destruct (send_returns rank fuel t "DOWNLOAD" (Some (or_empty att))
                (Log_warn "Called sendDownload without { state: xxxxx }." w))
      as (l & Hs & _); [done | by exists tr | done |].
    rewrite Hs. by eexists _, l, _.
  - intros Had Hk. unfold sendAdQuartile, isAd, deltaTime.
    rewrite Htr. cbn [mbind option_bind]. rewrite Had, (get_present _ _ _ Hk), Hv. cbn [negb]. wsimpl. rewrite Htr. wsimpl.
    match goal with |- context [Tracker.send fuel t ?e ?b ?w0] =>
      destruct (send_returns rank fuel t e b w0) as (l & Hs & _);
        [done | by exists tr | done |]; rewrite Hs end.
    eexists _, l, _. split; [reflexivity|]. split; [done|]. split; [done|].
    by rewrite lookup_insert_ne.
  - intros Had Hk. unfold sendAdClick, isAd.
    rewrite Htr. cbn [mbind option_bind]. rewrite Had, (get_present _ _ _ Hk), Hv. cbn [negb].
    destruct (send_returns rank fuel t "AD_CLICK" (Some (or_empty att))
                (Log_warn "Called sendAdClick without { url: xxxxx }." w))
      as (l & Hs & _); [done | by exists tr | done |].
    rewrite Hs. by eexists _, l, _.
Qed.

Lemma falsy_field_warned_and_delivered_witness :
  ∃ w' l bag,
    sendAdQuartile 3 1%nat (Some (<["quartile" := JNum 0]> ∅)) demoWorld = Some w'
    ∧ log w' = log demoWorld
               ++ [Warn "Called sendAdQuartile without { quartile: xxxxx }."]
    ∧ sink w' = sink demoWorld ++ (1%nat, "AD_QUARTILE", Some bag) :: l
    ∧ bag !! "quartile" = Some (JNum 0).
Proof.
  destruct (falsy_field_warned_and_delivered (λ r, r) 3 1%nat
              (Some (<["quartile" := JNum 0]> ∅)) demoWorld
              (default (newTracker 0) (trackers demoWorld !! 1%nat)) (JNum 0))
    as (_ & H & _).
  - exact demoWorld_acyclic.
  - vm_compute. reflexivity.
  - lia.
  - reflexivity.
  - apply H; vm_compute; reflexivity.
Defined.

(** ** A tracker that is its own ads tracker *)

Lemma notify_self_funnel (f : nat) (p t : ref) (ev : string) (att : option Bag) :
  (∀ ev att w, funnelsTo p p w → Tracker.send f p ev att w = None) →
  ∀ (ls : list Callback) (w0 : World),
    funnelsTo p p w0 → FunnelAdEvents (Some p) ∈ ls →
    foldl (λ acc cb, w1 ← acc; invoke (Tracker.send f) cb (MkEvent ev att t) w1)
          (Some w0) ls = None.
Proof.
  intros IH. induction ls as [|cb ls IHls]; intros w0 Hw Hin;
    [by apply elem_of_nil in Hin|].
  cbn [foldl].
  destruct cb as [[q|]]; cbn [mbind option_bind invoke funnelAdEvents type data];
    [|apply foldl_bind_None].
  destruct (Tracker.send f q ev att w0) as [w2|] eqn:Hq; [|apply foldl_bind_None].
  apply elem_of_cons in Hin as [Heq|Hin].
  - injection Heq as <-. by rewrite IH in Hq.
  - apply IHls; [|done]. by apply (funnelsTo_send p p f q ev att w0).
Qed.

(** A tracker that funnels its events to itself never finishes a [send]. *)
Lemma send_self_funnel (fuel : nat) :
  ∀ (p : ref) (ev : string) (att : option Bag) (w : World),
    funnelsTo p p w → Tracker.send fuel p ev att w = None.
Proof.
  induction fuel as [|f IH]; intros p ev att w Hw; [reflexivity|].
  cbn [Tracker.send]. destruct Hw as (tr & Htr & Hin). rewrite Htr.
  cbn [mbind option_bind].
  apply (notify_self_funnel f p p ev att (IH p)); [|done]. by exists tr.
Qed.

Lemma getViewId_self_parent (fuel : nat) (p : ref) (w : World) (tr : VideoTracker) :
  trackers w !! p = Some tr → parentTracker tr = Some p →
  getViewId fuel p w = None ∧ getViewSession fuel p w = None.
Proof.
  intros Htr Hp. induction fuel as [|f [IH1 IH2]]; [done|].
  cbn [getViewId getViewSession]. rewrite Htr. cbn [mbind option_bind].
  by rewrite Hp.
Qed.

Lemma dispose_self_ads (fuel : nat) (p : ref) :
  ∀ w, (∃ tr, trackers w !! p = Some tr ∧ adsTracker tr = Some p) →
       dispose fuel p w = None.
Proof.
  induction fuel as [|f IH]; intros w (tr & Htr & Ha); [reflexivity|].
  cbn [dispose]. unfold disposeAdsTracker_with, Tracker.stopHeartbeat.
  rewrite lookup_modify_eq, Htr. wsimpl. rewrite Ha. rewrite IH; [done|].
  unfold Tracker.off. eexists. split; [wlook|]. by wsimpl.
Qed.

(** X4.  A tracker must not be made its own ads tracker.
    [t.setAdsTracker(t)] returns, but it subscribes the tracker to its own
    events and makes it its own parent: from then on, and whatever is
    called in between, no [send] on the tracker returns, whatever the fuel
    (the funnel re-enters [send] without end), so that no [sendError]
    returns either; and right after the call [getViewId] and
    [getViewSession] do not return, since each asks the parent, nor does
    [dispose], which disposes of the ads tracker. *)
Theorem self_ads_tracker_never_returns (fuel0 : nat) (p : ref) (w w' : World) :
  setAdsTracker fuel0 p (Some p) w = Some w' →
  (∀ fuel, getViewId fuel p w' = None ∧ getViewSession fuel p w' = None
           ∧ dispose fuel p w' = None)
  ∧ ∀ (fuel1 : nat) (later : list Call) (w1 : World),
      run fuel1 later w' = Some w1 →
      ∀ (fuel : nat) (ev : string) (att : option Bag),
        Tracker.send fuel p ev att w1 = None
        ∧ sendError fuel p att w1 = None.
Proof.
  intros Hset. unfold setAdsTracker in Hset.
  destruct (disposeAdsTracker fuel0 p w) as [w0|] eqn:Hd; [|discriminate].
  cbn [mbind option_bind] in Hset. injection Hset as <-.
  assert (Hp : is_Some (trackers w0 !! p)).
  { apply (disposeAdsTracker_exists _ _ _ _ Hd).
    unfold disposeAdsTracker, disposeAdsTracker_with in Hd.
    destruct (trackers w !! p); [by eexists|discriminate]. }
  destruct Hp as [tr0 Hp].
  assert (Hfinal : ∃ tr', trackers
      (Tracker.on p (FunnelAdEvents (Some p))
         (modify p (set_parentTracker (Some p))
            (setIsAd p true (modify p (set_adsTracker (Some p)) w0)))) !! p
      = Some tr'
      ∧ parentTracker tr' = Some p
      ∧ adsTracker tr' = Some p
      ∧ FunnelAdEvents (Some p) ∈ listeners tr').
  { wunfold. eexists. split; [wlook|]. wsimpl.
    split; [done|]. split; [done|]. apply elem_of_app; right.
    by apply list_elem_of_singleton. }
  destruct Hfinal as (tr' & Hl & Hpar & Hads & Hin). split.
  - intros fuel.
    destruct (getViewId_self_parent fuel p _ tr' Hl Hpar) as [H1 H2].
    split; [done|]. split; [done|]. apply dispose_self_ads. by exists tr'.
  - intros fuel1 later w1 Hrun fuel ev att.
    assert (Hw1 : funnelsTo p p w1).
    { apply (run_funnelsTo p p fuel1 later _ w1 Hrun). by exists tr'. }
    split; [by apply send_self_funnel|].
    unfold sendError, isAd. destruct Hw1 as (tr1 & Htr1 & Hin1).
    rewrite Htr1. wsimpl.
    rewrite (modifyState_same p _ w1 tr1 Htr1) by reflexivity.
    rewrite Htr1. wsimpl. apply send_self_funnel. by exists tr1.
Qed.

Lemma self_ads_tracker_never_returns_witness :
  Tracker.send 100 0%nat "CONTENT_REQUEST" None
    (default emptyWorld (setAdsTracker 1 0%nat (Some 0%nat) freshWorld)) = None.
Proof.
  destruct (self_ads_tracker_never_returns 1 0%nat freshWorld
              (default emptyWorld (setAdsTracker 1 0%nat (Some 0%nat) freshWorld)))
    as [_ H].
  - vm_compute. reflexivity.
  - apply (H 0%nat [] _ eq_refl 100%nat "CONTENT_REQUEST" None).
Defined.

(** ** What every call leaves of a world *)

Section Continuation.

Variable R : ref → VideoTracker → VideoTracker → Prop.

Hypothesis R_refl : ∀ x tr, R x tr tr.
Hypothesis R_state : ∀ x tr0 tr s, R x tr0 tr → R x tr0 (set_state s tr).
Hypothesis R_heartbeatOn :
  ∀ x tr0 tr b, R x tr0 tr → R x tr0 (set_heartbeatOn b tr).
Hypothesis R_player : ∀ x tr0 tr, R x tr0 tr → R x tr0 (set_player false tr).
Hypothesis R_on :
  ∀ x tr0 tr p, R x tr0 tr →
    R x tr0 (set_listeners (listeners tr ++ [FunnelAdEvents (Some p)]) tr).
Hypothesis R_off :
  ∀ x tr0 tr, R x tr0 tr →
    R x tr0 (set_listeners
               (filter (λ c, c ≠ FunnelAdEvents None) (listeners tr)) tr).
Hypothesis R_adsTracker :
  ∀ x tr0 tr a, R x tr0 tr → R x tr0 (set_adsTracker (Some a) tr).
Hypothesis R_parentTracker :
  ∀ x tr0 tr p, R x tr0 tr → R x tr0 (set_parentTracker (Some p) tr).
Hypothesis R_lastBufferType :
  ∀ x tr0 tr v, R x tr0 tr → R x tr0 (set_lastBufferType v tr).
Hypothesis R_lastRendition :
  ∀ x tr0 tr v, R x tr0 tr → R x tr0 (set_lastRendition v tr).
Hypothesis R_lastAdRendition :
  ∀ x tr0 tr v, R x tr0 tr → R x tr0 (set_lastAdRendition v tr).
Hypothesis R_renditionBitrate :
  ∀ x tr0 tr v, R x tr0 tr → R x tr0 (set_renditionBitrate v tr).

Lemma continues_refl (w : World) : continues R w w.
Proof.
  split; [lia|]. split; [done|]. split; [done|]. intros x tr Htr.
  by exists tr.
Qed.

Lemma continues_modify (w0 w : World) (x : ref) (f : VideoTracker → VideoTracker) :
  (∀ tr0 tr, R x tr0 tr → R x tr0 (f tr)) →
  continues R w0 w → continues R w0 (modify x f w).
Proof.
  intros Hf (Hn & Hs & Hl & Ht). split; [done|]. split; [done|].
  split; [done|]. intros y tr0 Htr0.
  destruct (Ht y tr0 Htr0) as (tr & Htr & HR). rewrite lookup_modify.
  destruct (decide (x = y)) as [->|]; [|by exists tr].
  rewrite Htr. exists (f tr). split; [done|]. by apply Hf.
Qed.

Lemma continues_modifyState (w0 w : World) (x : ref)
    (f : TrackerState → TrackerState) :
  continues R w0 w → continues R w0 (modifyState x f w).
Proof. apply continues_modify. intros tr0 tr. apply R_state. Qed.

Lemma continues_sink (w0 w : World) (l : list Delivery) :
  continues R w0 w → continues R w0 (set_sink (sink w ++ l) w).
Proof.
  intros (Hn & Hs & Hl & Ht). split; [done|]. split; [|by split].
  cbn [sink set_sink]. by apply prefix_app_r.
Qed.

Lemma continues_send (w0 w w' : World) (fuel : nat) (x : ref) (ev : string)
    (att : option Bag) :
  Tracker.send fuel x ev att w = Some w' →
  continues R w0 w → continues R w0 w'.
Proof.
  intros Hs Hc. apply send_sink in Hs as (l & -> & _).
  by apply continues_sink.
Qed.

Lemma continues_go (w0 w w' : World) (x : ref) (ok : bool)
    (g : TrackerState → bool * TrackerState) :
  go g x w = Some (ok, w') → continues R w0 w → continues R w0 w'.
Proof.
  unfold go. destruct (trackers w !! x); [|discriminate].
  cbn [mbind option_bind]. intros [= _ <-]. apply continues_modifyState.
Qed.

Lemma continues_setParentIsPlaying (w0 w : World) (b : bool) (tr : VideoTracker) :
  continues R w0 w → continues R w0 (setParentIsPlaying b tr w).
Proof.
  intros Hc. unfold setParentIsPlaying. destruct (parentTracker tr); [|done].
  by apply continues_modifyState.
Qed.

Lemma continues_Log_warn (w0 w : World) (m : string) :
  continues R w0 w → continues R w0 (Log_warn m w).
Proof.
  intros (Hn & Hs & Hl & Ht). split; [done|]. split; [done|]. split; [|done].
  cbn [log Log_warn set_log]. by apply prefix_app_r.
Qed.

Lemma continues_getRenditionShift (w0 w : World) (x : ref) (b : bool) :
  continues R w0 w →
  continues R w0 (modify x (λ tr, (getRenditionShift b tr).2) w).
Proof.
  apply continues_modify. intros tr0 tr HR. rewrite getRenditionShift_tracker.
  destruct b; [|done].
  destruct (TrackerState.isAd (state tr));
    [by apply R_lastAdRendition | by apply R_lastRendition].
Qed.

Ltac setter_ok :=
  let H := fresh in
  intros ? ? H;
  first [ apply R_heartbeatOn | apply R_player | apply R_on | apply R_off
        | apply R_adsTracker | apply R_parentTracker | apply R_lastBufferType
        | apply R_lastRendition | apply R_lastAdRendition
        | apply R_renditionBitrate | apply R_state ];
  exact H.

Lemma continues_dispose (fuel : nat) :
  ∀ (w0 w w' : World) (x : ref),
    dispose fuel x w = Some w' → continues R w0 w → continues R w0 w'.
Proof.
  induction fuel as [|f IH]; intros w0 w w' x H Hc; [discriminate|].
  cbn [dispose] in H. unfold disposeAdsTracker_with in H. inv_all.
  - injection H as <-. apply continues_modify; [setter_ok|].
    eapply IH; [eassumption|]. unfold Tracker.off, Tracker.stopHeartbeat.
    by repeat (apply continues_modify; [setter_ok|]).
  - injection H as <-.
    match goal with H : Some _ = Some _ |- _ => injection H as <- end.
    unfold Tracker.stopHeartbeat. by repeat (apply continues_modify; [setter_ok|]).
Qed.

Ltac solve_continues :=
  repeat lazymatch goal with
  | |- continues _ _ (modifyState _ _ _) => apply continues_modifyState
  | |- continues _ _ (modify _ (λ tr, (getRenditionShift _ tr).2) _) =>
      apply continues_getRenditionShift
  | |- continues _ _ (modify _ _ _) => apply continues_modify; [setter_ok|]
  | |- continues _ _ (setParentIsPlaying _ _ _) =>
      apply continues_setParentIsPlaying
  | |- continues _ _ (Log_warn _ _) => apply continues_Log_warn
  | |- continues _ _ (Tracker.stopHeartbeat _ _) => unfold Tracker.stopHeartbeat
  | |- continues _ _ (Tracker.startHeartbeat _ _) => unfold Tracker.startHeartbeat
  | |- continues _ _ (Tracker.on _ _ _) => unfold Tracker.on
  | |- continues _ _ (Tracker.off _ _ _) => unfold Tracker.off
  | |- continues _ _ (setIsAd _ _ _) => unfold setIsAd
  | |- continues _ _ (if ?b then _ else _) => destruct b
  | |- continues _ _ (match ?o with _ => _ end) => destruct o
  | |- continues _ _ ?wj =>
      is_var wj;
      first
        [ assumption
        | match goal with
          | H : Tracker.send _ _ _ _ _ = Some wj |- _ =>
              eapply continues_send; [exact H|]
          | H : go _ _ _ = Some (_, wj) |- _ => eapply continues_go; [exact H|]
          | H : dispose _ _ _ = Some wj |- _ =>
              eapply continues_dispose; [exact H|]
          end ]
  end.

Lemma step_continues (fuel : nat) (c : Call) (w0 w w' : World) :
  step fuel c w = Some w' → continues R w0 w → continues R w0 w'.
Proof.
  intros Hs Hc.
  destruct c; cbn [step] in Hs;
    unfold sendCustom, sendPlayerReady, sendRequest, sendStart, sendEnd,
      sendPause, sendResume, sendBufferStart, sendBufferEnd, sendSeekStart,
      sendSeekEnd, sendDownload, sendError, sendRenditionChanged, sendHeartbeat,
      sendAdBreakStart, sendAdBreakEnd, sendAdQuartile, sendAdClick,
      setOptions, Tracker.setOptions, setAdsTracker, disposeAdsTracker,
      disposeAdsTracker_with in Hs;
    inv_all;
    repeat match goal with H : Some _ = Some _ |- _ => injection H as <- end;
    try (solve_continues; fail).
  - destruct Hc as (Hn & Hk). split; [|done]. cbn [now set_now]. lia.
  - destruct Hc as (Hn & Hs' & Hl & Ht). split; [done|]. split; [done|].
    split; [done|]. intros x tr0 Htr0.
    destruct (Ht x tr0 Htr0) as (tr & Htr & HR). exists tr. split; [|done].
    unfold construct. cbn [trackers set_trackers].
    rewrite lookup_insert_ne; [done|]. intros ->. congruence.
Qed.

Theorem run_continues (fuel : nat) (cs : list Call) :
  ∀ w0 w w', run fuel cs w = Some w' → continues R w0 w → continues R w0 w'.
Proof.
  induction cs as [|c cs IH]; intros w0 w w' Hr Hc; cbn [run] in Hr.
  - by injection Hr as <-.
  - destruct (step fuel c w) as [w1|] eqn:Hs; [|discriminate].
    cbn [mbind option_bind] in Hr.
    apply (IH w0 w1 w' Hr). by apply (step_continues fuel c w0 w).
Qed.

End Continuation.



(** ** Attaching an ads tracker *)

Lemma run_linksKept (fuel : nat) (cs : list Call) (w w' : World) :
  run fuel cs w = Some w' → continues linksKept w w'.
Proof.
  intros Hr.
  apply (run_continues linksKept) with (fuel := fuel) (cs := cs) (w := w);
    [..|exact Hr|apply continues_refl; by split];
    intros;
    match goal with H : linksKept _ _ _ |- _ => destruct H as [H1 H2] end;
    (split; intros Hs; first [by apply H1 | by apply H2 | by eexists]).
Qed.



(** ** Disposal *)

Lemma disposeKeeps_refl (x : ref) (tr : VideoTracker) : disposeKeeps x tr tr.
Proof. by repeat split. Qed.

Ltac dispose_setter :=
  let H := fresh in
  intros ? ? H; unfold disposeKeeps in *; cbn;
  destruct H as (? & ? & ? & ? & ? & ? & ? & Hb & Hl & ? & ?);
  repeat split; try done;
  first
    [ by intros p Hp; apply list_elem_of_filter; split; [|apply Hb]
    | by intros cb Hcb; apply list_elem_of_filter in Hcb as [_ Hcb]; apply Hl ].

Lemma dispose_keeps_from (fuel : nat) :
  ∀ (w0 w w' : World) (x : ref),
    dispose fuel x w = Some w' →
    continues disposeKeeps w0 w → continues disposeKeeps w0 w'.
Proof.
  induction fuel as [|f IH]; intros w0 w w' x H Hc; [discriminate|].
  cbn [dispose] in H. unfold disposeAdsTracker_with in H. inv_all.
  - injection H as <-. apply continues_modify; [dispose_setter|].
    eapply IH; [eassumption|]. unfold Tracker.off, Tracker.stopHeartbeat.
    by repeat (apply continues_modify; [dispose_setter|]).
  - injection H as <-.
    match goal with H : Some _ = Some _ |- _ => injection H as <- end.
    unfold Tracker.stopHeartbeat.
    by repeat (apply continues_modify; [dispose_setter|]).
Qed.

Lemma dispose_keeps (fuel : nat) (t : ref) (w w' : World) :
  dispose fuel t w = Some w' → continues disposeKeeps w w'.
Proof.
  intros Hd. apply (dispose_keeps_from fuel w w w' t Hd).
  apply continues_refl, disposeKeeps_refl.
Qed.

(** A disposal delivers nothing, logs nothing and leaves the clock. *)
Lemma dispose_silent (fuel : nat) :
  ∀ (t : ref) (w w' : World),
    dispose fuel t w = Some w' →
    now w' = now w ∧ sink w' = sink w ∧ log w' = log w ∧ randoms w' = randoms w.
Proof.
  induction fuel as [|f IH]; intros t w w' H; [discriminate|].
  cbn [dispose] in H. unfold disposeAdsTracker_with in H. inv_all.
  - injection H as <-.
    match goal with H : dispose f _ _ = Some _ |- _ => apply IH in H end.
    by wrew.
  - injection H as <-.
    match goal with H : Some _ = Some _ |- _ => injection H as <- end. done.
Qed.

Lemma adsAcyclic_alt (rank : ref → nat) (w : World) :
  adsAcyclic rank w ↔
  ∀ x tr a, trackers w !! x = Some tr → adsTracker tr = Some a →
            (rank a < rank x)%nat ∧ is_Some (trackers w !! a).
Proof.
  unfold adsAcyclic, adsLinkOk. rewrite map_Forall_lookup. split.
  - intros H x tr a Hx Ha. specialize (H x tr Hx). cbn beta in H.
    rewrite Ha in H. apply andb_true_iff in H as [H1 H2].
    apply bool_decide_eq_true in H1. by apply bool_decide_eq_true in H2.
  - intros H x tr Hx. cbn beta. destruct (adsTracker tr) as [a|] eqn:Ha; [|done].
    destruct (H x tr a Hx Ha). apply andb_true_iff.
    split; by apply bool_decide_eq_true.
Qed.

Lemma adsAcyclic_modify (f : VideoTracker → VideoTracker) (rank : ref → nat)
    (z : ref) (w : World) :
  (∀ tr, adsTracker (f tr) = adsTracker tr) →
  adsAcyclic rank w → adsAcyclic rank (modify z f w).
Proof.
  intros Hf. rewrite !adsAcyclic_alt. intros Hac x tr' a.
  rewrite lookup_modify. intros Hx Ha.
  assert (∃ tr, trackers w !! x = Some tr ∧ adsTracker tr = Some a)
    as (tr & Htr & Ha').
  { destruct (decide (z = x)) as [->|]; [|by exists tr'].
    destruct (trackers w !! x) as [tr|]; [|done].
    cbn in Hx. injection Hx as <-. exists tr. by rewrite <- Hf. }
  destruct (Hac x tr a Htr Ha') as [Hr He]. split; [done|].
  by apply is_Some_lookup_modify.
Qed.

(** With finite chains of ads trackers and fuel above the rank of the
    tracker, [dispose] returns. *)
Lemma dispose_returns (rank : ref → nat) (fuel : nat) :
  ∀ (t : ref) (w : World),
    adsAcyclic rank w → is_Some (trackers w !! t) → (rank t < fuel)%nat →
    is_Some (dispose fuel t w).
Proof.
  induction fuel as [|f IH]; intros t w Hac [tr Htr] Hr; [lia|].
  cbn [dispose]. unfold disposeAdsTracker_with, Tracker.stopHeartbeat.
  rewrite lookup_modify_eq, Htr. wsimpl.
  destruct (adsTracker tr) as [a|] eqn:Ha; [|by eexists].
  destruct (proj1 (adsAcyclic_alt rank w) Hac t tr a Htr Ha) as [Hlt Hex].
  destruct (IH a (Tracker.off a (FunnelAdEvents None)
                    (modify t (set_heartbeatOn false) w))) as [wc Hc].
  - unfold Tracker.off. by repeat apply adsAcyclic_modify.
  - unfold Tracker.off. by rewrite !is_Some_lookup_modify.
  - lia.
  - rewrite Hc. by eexists.
Qed.

Lemma adsChain_transfer (w w' : World) (x y : ref) :
  (∀ z tr, trackers w !! z = Some tr →
           ∃ tr', trackers w' !! z = Some tr' ∧ adsTracker tr' = adsTracker tr) →
  adsChain w x y → adsChain w' x y.
Proof.
  intros Hk Hc. induction Hc as [x|x tr a y Hx Ha _ IH]; [constructor|].
  destruct (Hk x tr Hx) as (tr' & Hx' & Ha').
  apply (adsChain_below w' x tr' a y); [done|congruence|done].
Qed.

Lemma adsChain_keeps (w w' : World) (x y : ref) :
  continues disposeKeeps w w' → adsChain w x y → adsChain w' x y.
Proof.
  intros (_ & _ & _ & Hk). apply adsChain_transfer. intros z tr Hz.
  destruct (Hk z tr Hz) as (tr' & Hz' & _ & Ha & _). by exists tr'.
Qed.

Lemma disposeKeeps_off_stays (x : ref) (tr tr' : VideoTracker) :
  disposeKeeps x tr tr' →
  (heartbeatOn tr = false → heartbeatOn tr' = false)
  ∧ (player tr = false → player tr' = false).
Proof. by intros (_ & _ & _ & _ & _ & _ & _ & _ & _ & ? & ?). Qed.

Lemma disposeKeeps_trans (x : ref) (tr1 tr2 tr3 : VideoTracker) :
  disposeKeeps x tr1 tr2 → disposeKeeps x tr2 tr3 → disposeKeeps x tr1 tr3.
Proof.
  intros (? & ? & ? & ? & ? & ? & ? & Hb & Hl & Hh & Hp)
         (? & ? & ? & ? & ? & ? & ? & Hb' & Hl' & Hh' & Hp').
  repeat split; try congruence; auto.
Qed.

Lemma continues_disposeKeeps_trans (w1 w2 w3 : World) :
  continues disposeKeeps w1 w2 → continues disposeKeeps w2 w3 →
  continues disposeKeeps w1 w3.
Proof.
  intros (? & ? & ? & H12) (? & ? & ? & H23).
  split; [lia|]. split; [by etrans|]. split; [by etrans|].
  intros z tr1 Hz. destruct (H12 z tr1 Hz) as (tr2 & Hz2 & Hk2).
  destruct (H23 z tr2 Hz2) as (tr3 & Hz3 & Hk3). exists tr3. split; [done|].
  by apply (disposeKeeps_trans z tr1 tr2 tr3).
Qed.

Lemma disposedAt_keeps (w w' : World) (y : ref) :
  continues disposeKeeps w w' → disposedAt y w → disposedAt y w'.
Proof.
  intros (_ & _ & _ & Hk) (tr & Hy & Hh & Hp).
  destruct (Hk y tr Hy) as (tr' & Hy' & Hks). exists tr'. split; [done|].
  apply disposeKeeps_off_stays in Hks as [H1 H2]. by split; [apply H1|apply H2].
Qed.

Lemma continues_disposeKeeps_modify (w : World) (x : ref)
    (f : VideoTracker → VideoTracker) :
  (∀ tr, disposeKeeps x tr (f tr)) → continues disposeKeeps w (modify x f w).
Proof.
  intros Hf. split; [cbn; lia|]. split; [done|]. split; [done|].
  intros y tr Hy. rewrite lookup_modify.
  destruct (decide (x = y)) as [->|]; [|exists tr; split; [done|apply disposeKeeps_refl]].
  rewrite Hy. exists (f tr). by split.
Qed.

Lemma disposeKeeps_heartbeatOff (x : ref) (tr : VideoTracker) :
  disposeKeeps x tr (set_heartbeatOn false tr).
Proof. by repeat split. Qed.

Lemma disposeKeeps_playerOff (x : ref) (tr : VideoTracker) :
  disposeKeeps x tr (set_player false tr).
Proof. by repeat split. Qed.

Lemma disposeKeeps_off (x : ref) (tr : VideoTracker) :
  disposeKeeps x tr
    (set_listeners (filter (λ c, c ≠ FunnelAdEvents None) (listeners tr)) tr).
Proof.
  repeat split; try done; cbn.
  - intros p Hp. by apply list_elem_of_filter.
  - intros cb Hcb. by apply list_elem_of_filter in Hcb as [_ Hcb].
Qed.

(** The shape of a [dispose] that returned. *)
Lemma dispose_inv (f : nat) (t : ref) (w w' : World) :
  dispose (S f) t w = Some w' →
  ∃ tr, trackers w !! t = Some tr
        ∧ match adsTracker tr with
          | Some a =>
              ∃ wc, dispose f a (Tracker.off a (FunnelAdEvents None)
                                   (Tracker.stopHeartbeat t w)) = Some wc
                    ∧ w' = modify t (set_player false) wc
          | None => w' = modify t (set_player false) (Tracker.stopHeartbeat t w)
          end.
Proof.
  cbn [dispose]. unfold disposeAdsTracker_with. intros H.
  destruct (trackers (Tracker.stopHeartbeat t w) !! t) as [tr1|] eqn:H1;
    [|discriminate].
  unfold Tracker.stopHeartbeat in H1. rewrite lookup_modify_eq in H1.
  destruct (trackers w !! t) as [tr|] eqn:Htr; [|discriminate].
  cbn in H1. injection H1 as <-. exists tr. split; [done|].
  cbn [mbind option_bind adsTracker set_heartbeatOn] in H.
  destruct (adsTracker tr) as [a|].
  - destruct (dispose f a _) as [wc|] eqn:Hc; [|discriminate].
    injection H as <-. by exists wc.
  - by injection H as <-.
Qed.

Lemma dispose_disposedAt (fuel : nat) :
  ∀ (t : ref) (w w' : World),
    dispose fuel t w = Some w' → ∀ y, adsChain w t y → disposedAt y w'.
Proof.
  induction fuel as [|f IH]; intros t w w' H y Hy; [discriminate|].
  apply dispose_inv in H as (tr & Htr & H).
  assert (Hroot : ∀ wc, continues disposeKeeps (Tracker.stopHeartbeat t w) wc →
                        disposedAt t (modify t (set_player false) wc)).
  { intros wc (_ & _ & _ & Hk).
    destruct (Hk t (set_heartbeatOn false tr)) as (trc & Htc & Hks).
    { unfold Tracker.stopHeartbeat. by rewrite lookup_modify_eq, Htr. }
    exists (set_player false trc). rewrite lookup_modify_eq, Htc.
    split; [done|]. apply disposeKeeps_off_stays in Hks as [H1 _].
    split; [by apply H1|done]. }
  destruct (adsTracker tr) as [a|] eqn:Ha.
  - destruct H as (wc & Hc & ->).
    pose proof (dispose_keeps _ _ _ _ Hc) as Hkc.
    assert (Hkb : continues disposeKeeps (Tracker.stopHeartbeat t w)
                    (Tracker.off a (FunnelAdEvents None) (Tracker.stopHeartbeat t w))).
    { apply continues_disposeKeeps_modify, disposeKeeps_off. }
    inversion Hy as [|x tr0 a0 y0 Hx Ha0 Hch]; subst.
    + apply Hroot. by apply (continues_disposeKeeps_trans _ _ _ Hkb).
    + assert (a0 = a) as -> by congruence.
      eapply disposedAt_keeps; [apply continues_disposeKeeps_modify,
                                  disposeKeeps_playerOff|].
      apply (IH a _ wc Hc). eapply adsChain_keeps; [exact Hkb|].
      eapply adsChain_keeps; [|exact Hch].
      apply continues_disposeKeeps_modify, disposeKeeps_heartbeatOff.
  - subst w'. inversion Hy as [|x tr0 a0 y0 Hx Ha0 Hch]; subst; [|congruence].
    apply Hroot. apply continues_refl, disposeKeeps_refl.
Qed.

Lemma unboundFree_keeps (w w' : World) (y : ref) :
  continues disposeKeeps w w' → unboundFree y w → unboundFree y w'.
Proof.
  intros (_ & _ & _ & Hk) (tr & Hy & Hn).
  destruct (Hk y tr Hy) as (tr' & Hy' & Hks). exists tr'. split; [done|].
  destruct Hks as (_ & _ & _ & _ & _ & _ & _ & _ & Hl & _).
  intros Hin. by apply Hn, Hl.
Qed.

Lemma dispose_is_Some (fuel : nat) (t : ref) (w w' : World) :
  dispose fuel t w = Some w' → is_Some (trackers w !! t).
Proof.
  destruct fuel as [|f]; [discriminate|]. intros H.
  apply dispose_inv in H as (tr & Htr & _). by exists tr.
Qed.

Lemma dispose_unboundFree (fuel : nat) :
  ∀ (t : ref) (w w' : World),
    dispose fuel t w = Some w' →
    ∀ tr a y, trackers w !! t = Some tr → adsTracker tr = Some a →
              adsChain w a y → unboundFree y w'.
Proof.
  induction fuel as [|f IH]; intros t w w' H tr a y Htr Ha Hy; [discriminate|].
  apply dispose_inv in H as (tr' & Htr' & H).
  assert (tr' = tr) as -> by congruence. rewrite Ha in H.
  destruct H as (wc & Hc & ->).
  pose proof (dispose_keeps _ _ _ _ Hc) as Hkc.
  assert (Hks : continues disposeKeeps w (Tracker.stopHeartbeat t w)).
  { apply continues_disposeKeeps_modify, disposeKeeps_heartbeatOff. }
  assert (Hkb : continues disposeKeeps (Tracker.stopHeartbeat t w)
                  (Tracker.off a (FunnelAdEvents None) (Tracker.stopHeartbeat t w))).
  { apply continues_disposeKeeps_modify, disposeKeeps_off. }
  pose proof (continues_disposeKeeps_trans _ _ _ Hks Hkb) as Hwb.
  eapply unboundFree_keeps;
    [apply continues_disposeKeeps_modify, disposeKeeps_playerOff|].
  assert (Hua : unboundFree a (Tracker.off a (FunnelAdEvents None)
                                 (Tracker.stopHeartbeat t w))).
  { destruct (dispose_is_Some _ _ _ _ Hc) as [trb Hb].
    unfold Tracker.off in Hb. rewrite lookup_modify_eq in Hb.
    destruct (trackers (Tracker.stopHeartbeat t w) !! a) as [trs|] eqn:Hs;
      [|discriminate].
    exists (set_listeners (filter (λ c, c ≠ FunnelAdEvents None) (listeners trs)) trs).
    split; [unfold Tracker.off; by rewrite lookup_modify_eq, Hs|].
    cbn. intros Hin. by apply list_elem_of_filter in Hin as [Hne _]. }
  inversion Hy as [|x tra a2 y0 Hx Ha2 Hch]; subst.
  - by eapply unboundFree_keeps; [exact Hkc|].
  - destruct Hwb as (_ & _ & _ & Hk).
    destruct (Hk a tra Hx) as (trb & Hb & Hkeep).
    apply (IH a _ wc Hc trb a2 y Hb).
    + destruct Hkeep as (_ & -> & _). done.
    + eapply adsChain_keeps; [|exact Hch].
      by apply (continues_disposeKeeps_trans _ _ _ Hks).
Qed.

Lemma filter_all {A : Type} (P : A → Prop) `{∀ x, Decision (P x)} (l : list A) :
  Forall P l → filter P l = l.
Proof.
  induction 1 as [|x l Hx _ IH]; [done|].
  rewrite filter_cons, IH. by rewrite decide_True.
Qed.

(** Disposing of a chain that is already disposed of changes nothing. *)
Lemma dispose_quiet (rank : ref → nat) (fuel : nat) :
  ∀ (t : ref) (w : World),
    adsAcyclic rank w → (rank t < fuel)%nat →
    (∀ y, adsChain w t y → disposedAt y w) →
    (∀ tr a y, trackers w !! t = Some tr → adsTracker tr = Some a →
               adsChain w a y → unboundFree y w) →
    dispose fuel t w = Some w.
Proof.
  induction fuel as [|f IH]; intros t w Hac Hr Hd Hu; [lia|].
  destruct (Hd t (adsChain_here w t)) as (tr & Htr & Hh & Hp).
  cbn [dispose]. unfold disposeAdsTracker_with, Tracker.stopHeartbeat.
  rewrite (modify_same t _ w tr Htr)
    by (destruct tr; cbn in *; by subst).
  rewrite Htr. cbn [mbind option_bind].
  destruct (adsTracker tr) as [a|] eqn:Ha.
  - destruct (Hu tr a a Htr Ha (adsChain_here w a)) as (tra & Hla & Hn).
    unfold Tracker.off. rewrite (modify_same a _ w tra Hla).
    + rewrite (IH a w Hac).
      * cbn [mbind option_bind]. rewrite (modify_same t _ w tr Htr); [done|].
        destruct tr; cbn in *; by subst.
      * destruct (proj1 (adsAcyclic_alt rank w) Hac t tr a Htr Ha). lia.
      * intros y Hy. apply Hd. by apply (adsChain_below w t tr a y).
      * intros tr2 a2 y Hl2 Ha2 Hy. apply (Hu tr a y Htr Ha).
        by apply (adsChain_below w a tr2 a2 y).
    + rewrite filter_all; [by destruct tra|].
      apply Forall_forall. intros cb Hcb ->. done.
  - cbn [mbind option_bind]. rewrite (modify_same t _ w tr Htr); [done|].
    destruct tr; cbn in *; by subst.
Qed.

Lemma dispose_adsTracker_back (fuel : nat) (t : ref) (w w' : World) :
  dispose fuel t w = Some w' →
  ∀ z tr', trackers w' !! z = Some tr' →
           ∃ tr, trackers w !! z = Some tr ∧ adsTracker tr = adsTracker tr'.
Proof.
  intros Hd z tr' Hz.
  destruct (proj1 (dispose_exists fuel t w w' Hd z)) as [tr Htr]; [by eexists|].
  destruct (dispose_keeps _ _ _ _ Hd) as (_ & _ & _ & Hk).
  destruct (Hk z tr Htr) as (tr2 & Hz2 & _ & Ha & _).
  exists tr. split; [done|]. congruence.
Qed.

Lemma dispose_adsAcyclic (rank : ref → nat) (fuel : nat) (t : ref) (w w' : World) :
  dispose fuel t w = Some w' → adsAcyclic rank w → adsAcyclic rank w'.
Proof.
  intros Hd. rewrite !adsAcyclic_alt. intros Hac x tr' a Hx Ha.
  destruct (dispose_adsTracker_back _ _ _ _ Hd x tr' Hx) as (tr & Htr & Heq).
  destruct (Hac x tr a Htr) as [Hr He]; [congruence|]. split; [done|].
  by apply (dispose_exists fuel t w w' Hd).
Qed.

(** X7.  [dispose] reaches the whole chain of ads trackers.  When the
    chains of ads trackers are finite, [dispose] returns (given enough
    fuel), and afterwards the tracker, its ads tracker, the ads tracker of
    that one and so on all have their heartbeat timer stopped and hold no
    player or tag; nothing is delivered or logged by it. *)
Theorem dispose_stops_the_chain (rank : ref → nat) (fuel : nat) (t : ref)
    (w : World) :
  adsAcyclic rank w → is_Some (trackers w !! t) → (rank t < fuel)%nat →
  ∃ w', dispose fuel t w = Some w'
        ∧ (∀ y, adsChain w t y → disposedAt y w')
        ∧ now w' = now w ∧ sink w' = sink w ∧ log w' = log w.
Proof.
  intros Hac Ht Hr. destruct (dispose_returns rank fuel t w Hac Ht Hr) as [w' Hd].
  exists w'. split; [done|]. split.
  - by apply (dispose_disposedAt fuel t w w').
  - by destruct (dispose_silent fuel t w w' Hd) as (? & ? & ? & _).
Qed.

Lemma demoWorld_adsAcyclic : adsAcyclic (λ r, 1 - r)%nat demoWorld.
Proof. apply (bool_decide_unpack _). vm_compute. exact I. Qed.

Lemma dispose_stops_the_chain_witness :
  ∃ w', dispose 2 0%nat demoWorld = Some w' ∧ disposedAt 1%nat w'.
Proof.
  destruct (dispose_stops_the_chain (λ r, 1 - r)%nat 2 0%nat demoWorld)
    as (w' & Hd & Hc & _).
  - exact demoWorld_adsAcyclic.
  - eexists. vm_compute. reflexivity.
  - vm_compute. lia.
  - exists w'. split; [exact Hd|]. apply Hc.
    eapply (adsChain_below demoWorld 0%nat _ 1%nat 1%nat);
      [vm_compute; reflexivity | reflexivity | constructor].
Defined.

(** X8.  [dispose] detaches nothing.  A disposal that returns changes no
    state object, no [adsTracker] or [parentTracker] link, no cached buffer
    type or rendition, and it leaves every funnel bound to a parent among
    the listeners ([off] receives the unbound function): a disposed ads
    tracker is still an ad of its parent and its events still reach the
    parent. *)
Theorem dispose_detaches_nothing (fuel : nat) (t : ref) (w w' : World) :
  dispose fuel t w = Some w' →
  (∀ x tr, trackers w !! x = Some tr →
           ∃ tr', trackers w' !! x = Some tr' ∧ disposeKeeps x tr tr')
  ∧ (∀ c p, funnelsTo c p w → funnelsTo c p w').
Proof.
  intros Hd. destruct (dispose_keeps fuel t w w' Hd) as (_ & _ & _ & Hk).
  split; [exact Hk|]. intros c p (tr & Htr & Hin).
  destruct (Hk c tr Htr) as (tr' & Htr' & Hks). exists tr'. split; [done|].
  destruct Hks as (_ & _ & _ & _ & _ & _ & _ & Hb & _). by apply Hb.
Qed.

Lemma dispose_detaches_nothing_witness :
  funnelsTo 1%nat 0%nat (default emptyWorld (dispose 2 0%nat demoWorld)).
Proof.
  destruct (dispose_detaches_nothing 2 0%nat demoWorld
              (default emptyWorld (dispose 2 0%nat demoWorld))) as [_ H].
  - vm_compute. reflexivity.
  - apply H. eexists. split; [vm_compute; reflexivity|].
    apply list_elem_of_singleton. reflexivity.
Defined.

(** X9.  [dispose] is idempotent.  With finite chains of ads trackers, a
    second [dispose] on the same tracker returns and leaves the world
    exactly as the first one left it. *)
Theorem dispose_is_idempotent (rank : ref → nat) (fuel : nat) (t : ref)
    (w w' : World) :
  adsAcyclic rank w → (rank t < fuel)%nat →
  dispose fuel t w = Some w' → dispose fuel t w' = Some w'.
Proof.
  intros Hac Hr Hd. apply (dispose_quiet rank).
  - by apply (dispose_adsAcyclic rank fuel t w w').
  - done.
  - intros y Hy. apply (dispose_disposedAt fuel t w w' Hd).
    revert Hy. apply adsChain_transfer. apply (dispose_adsTracker_back _ _ _ _ Hd).
  - intros tr' a y Htr' Ha Hy.
    destruct (dispose_adsTracker_back _ _ _ _ Hd t tr' Htr') as (tr & Htr & Heq).
    apply (dispose_unboundFree fuel t w w' Hd tr a y Htr); [congruence|].
    revert Hy. apply adsChain_transfer. apply (dispose_adsTracker_back _ _ _ _ Hd).
Qed.

Lemma dispose_is_idempotent_witness :
  dispose 2 0%nat (default emptyWorld (dispose 2 0%nat demoWorld))
  = Some (default emptyWorld (dispose 2 0%nat demoWorld)).
Proof.
  apply (dispose_is_idempotent (λ r, 1 - r)%nat 2 0%nat demoWorld).
  - exact demoWorld_adsAcyclic.
  - vm_compute. lia.
  - vm_compute. reflexivity.
Defined.

(** ** Binding a player *)

(** X10.  Binding a player again disposes of the tracker first.
    [setPlayer] on a tracker that holds a player or a tag runs [dispose]
    before it stores the new ones: the heartbeat timer is stopped, also in
    the middle of a requested view, and nothing starts it again, so the
    timer no longer delivers heartbeats; the state object is untouched.  On
    a tracker without player and tag the call only stores them. *)
Theorem setPlayer_rebinding_disposes (rank : ref → nat) (fuel : nat) (t : ref)
    (playerGiven tagGiven : bool) (w : World) (tr : VideoTracker) :
  adsAcyclic rank w → trackers w !! t = Some tr → (rank t < fuel)%nat →
  (player tr = true →
   ∃ w' tr',
     setPlayer fuel t playerGiven tagGiven w = Some w'
     ∧ trackers w' !! t = Some tr'
     ∧ heartbeatOn tr' = false
     ∧ player tr' = playerGiven || tagGiven
     ∧ state tr' = state tr
     ∧ step fuel (HeartbeatTimer t) w' = Some w')
  ∧ (player tr = false →
     setPlayer fuel t playerGiven tagGiven w
     = Some (modify t (set_player (playerGiven || tagGiven)) w)).
Proof.
  intros Hac Htr Hr. unfold setPlayer. rewrite Htr. cbn [mbind option_bind].
  split; intros Hp; rewrite Hp; [|done].
  destruct (dispose_returns rank fuel t w Hac) as [w1 Hd]; [by exists tr|done|].
  rewrite Hd. cbn [mbind option_bind].
  destruct (dispose_disposedAt fuel t w w1 Hd t (adsChain_here w t))
    as (tr1 & Htr1 & Hh & _).
  destruct (dispose_keeps fuel t w w1 Hd) as (_ & _ & _ & Hk).
  destruct (Hk t tr Htr) as (tr1' & Htr1' & Hs & _).
  assert (tr1' = tr1) as -> by congruence.
  eexists _, (set_player (playerGiven || tagGiven) tr1).
  split; [reflexivity|]. split; [by rewrite lookup_modify_eq, Htr1|].
  split; [done|]. split; [done|]. split; [done|].
  cbn [step]. rewrite lookup_modify_eq, Htr1. cbn. by rewrite Hh.
Qed.

Lemma setPlayer_rebinding_disposes_witness :
  ∃ w' tr',
    setPlayer 3 0%nat true true boundWorld = Some w'
    ∧ trackers w' !! 0%nat = Some tr'
    ∧ heartbeatOn tr' = false
    ∧ TrackerState.isRequested (state tr') = true
    ∧ step 3 (HeartbeatTimer 0%nat) w' = Some w'.
Proof.
  destruct (setPlayer_rebinding_disposes (λ r, r) 3 0%nat true true boundWorld
              (default (newTracker 0) (trackers boundWorld !! 0%nat)))
    as [H _].
  - apply (bool_decide_unpack _). vm_compute. exact I.
  - vm_compute. reflexivity.
  - lia.
  - destruct H as (w' & tr' & H1 & H2 & H3 & _ & H5 & H6); [reflexivity|].
    exists w', tr'. rewrite H5.
    exact (conj H1 (conj H2 (conj H3 (conj eq_refl H6)))).
Defined.

(** ** Heartbeats *)

Lemma goEnd_accepted (n : Z) (s : TrackerState) :
  TrackerState.isRequested s = true →
  (TrackerState.goEnd n s).1 = true
  ∧ TrackerState.isRequested (TrackerState.goEnd n s).2 = false.
Proof. intros H. unfold TrackerState.goEnd. by rewrite H. Qed.

Lemma sendHeartbeat_requested (rank : ref → nat) (fuel : nat)
    (t : ref) (att : option Bag) (w : World) (tr : VideoTracker) :
  funnelAcyclic rank w → trackers w !! t = Some tr → (rank t < fuel)%nat →
  TrackerState.isRequested (state tr) = true →
  ∃ w' l,
    sendHeartbeat fuel t att w = Some w'
    ∧ sink w' = sink w ++ (t, heartbeatEventOf (state tr), att) :: l
    ∧ Forall (λ d : Delivery, d.1.1 ≠ t) l
    ∧ log w' = log w
    ∧ requestedAt t w'.
Proof.
  intros Hac Htr Hr Hrq. unfold sendHeartbeat. rewrite Htr.
  cbn [mbind option_bind]. rewrite Hrq.
  match goal with |- context [Tracker.send fuel t ?e ?b ?w0] =>
    destruct (send_returns rank fuel t e b w0) as (l & Hs & Hl);
      [done | by exists tr | done |]; rewrite Hs end.
  cbn [mbind option_bind]. unfold go. wlookup. wsimpl.
  eexists _, l. split; [reflexivity|]. split; [by wrew|]. split.
  { eapply Forall_impl; [exact Hl|]. intros d (Hd & _) Heq.
    rewrite Heq in Hd. lia. }
  split; [done|]. eexists. split; [wunfold; wlook|]. wsimpl.
  by rewrite goHeartbeat_isRequested.
Qed.

(** X11.  Heartbeats belong to a requested view.  [sendHeartbeat] on a
    tracker whose view is not requested returns at once and changes
    nothing; in a requested view it returns (given acyclic funnels and
    enough fuel), delivers one AD_HEARTBEAT or CONTENT_HEARTBEAT for the
    tracker, by the ad flag, with the attributes exactly as they were
    passed, logs nothing and leaves the view requested. *)
Theorem sendHeartbeat_only_in_requested_view (rank : ref → nat) (fuel : nat)
    (t : ref) (att : option Bag) (w : World) (tr : VideoTracker) :
  funnelAcyclic rank w → trackers w !! t = Some tr → (rank t < fuel)%nat →
  (TrackerState.isRequested (state tr) = false →
   sendHeartbeat fuel t att w = Some w)
  ∧ (TrackerState.isRequested (state tr) = true →
     ∃ w' l,
       sendHeartbeat fuel t att w = Some w'
       ∧ sink w' = sink w ++ (t, heartbeatEventOf (state tr), att) :: l
       ∧ Forall (λ d : Delivery, d.1.1 ≠ t) l
       ∧ log w' = log w
       ∧ requestedAt t w').
Proof.
  intros Hac Htr Hr. split; [|by apply (sendHeartbeat_requested rank)].
  intros Hrq. unfold sendHeartbeat. rewrite Htr. cbn [mbind option_bind].
  by rewrite Hrq.
Qed.

Lemma sendHeartbeat_only_in_requested_view_witness :
  sendHeartbeat 3 0%nat None freshWorld = Some freshWorld.
Proof.
  destruct (sendHeartbeat_only_in_requested_view (λ r, r) 3 0%nat None freshWorld
              (newTracker 0)) as [H _].
  - exact freshWorld_acyclic.
  - reflexivity.
  - lia.
  - apply H. reflexivity.
Defined.

(** X12.  The end of a view ends its heartbeats.  After a [sendEnd] that
    the state accepts, on an ad or on a content tracker, the heartbeat
    timer of the tracker is stopped and its view is no longer requested:
    the timer and [sendHeartbeat] deliver nothing more. *)
Theorem sendEnd_stops_heartbeats (rank : ref → nat) (fuel : nat) (t : ref)
    (att : option Bag) (w : World) (tr : VideoTracker) :
  funnelAcyclic rank w → trackers w !! t = Some tr → (rank t < fuel)%nat →
  TrackerState.isRequested (state tr) = true →
  ∃ w' tr',
    sendEnd fuel t att w = Some w'
    ∧ trackers w' !! t = Some tr'
    ∧ heartbeatOn tr' = false
    ∧ TrackerState.isRequested (state tr') = false
    ∧ step fuel (HeartbeatTimer t) w' = Some w'
    ∧ ∀ att', sendHeartbeat fuel t att' w' = Some w'.
Proof.
  intros Hac Htr Hf Hrq.
  destruct (goEnd_accepted (now w) (state tr) Hrq) as [Hacc Hrq'].
  assert (Hph : phase (TrackerState.goEnd (now w) (state tr)).2 = ENDED).
  { unfold TrackerState.goEnd. by rewrite Hrq. }
  cut (∃ w' tr', sendEnd fuel t att w = Some w' ∧ trackers w' !! t = Some tr'
                 ∧ heartbeatOn tr' = false
                 ∧ TrackerState.isRequested (state tr') = false).
  { intros (w' & tr' & H1 & H2 & H3 & H4). exists w', tr'.
    split; [done|]. split; [done|]. split; [done|]. split; [done|].
    split; [cbn [step]|intros att'; unfold sendHeartbeat];
      rewrite H2; cbn [mbind option_bind]; by rewrite ?H3, ?H4. }
  unfold sendEnd. rewrite (go_Some _ t w tr Htr), Hacc. wsimpl.
  unfold deltaTime. wunfold. wrew. rewrite Htr. wsimpl.
  assert (Hsend : ∀ e b w0, funnelAcyclic rank w0 → is_Some (trackers w0 !! t) →
            ∃ l, Tracker.send fuel t e b w0
                 = Some (set_sink (sink w0 ++ (t, e, b) :: l) w0)).
  { intros e b w0 H1 H2.
    destruct (send_returns rank fuel t e b w0) as (l & Hs & _); [done..|].
    by exists l. }
  unfold TrackerState.isAd.
  destruct (st_isAd _) eqn:Had; unfold setParentIsPlaying; wsimpl;
    (destruct (parentTracker tr) as [p|] eqn:Hp;
       [destruct (decide (p = t)) as [->|Hne]|]); wunfold;
    match goal with |- context [Tracker.send fuel t ?e ?b ?w0] =>
      destruct (Hsend e b w0) as (l & Hs);
        [ by repeat apply funnelAcyclic_modify
        | repeat apply is_Some_lookup_modify; by exists tr
        | rewrite Hs ] end;
    wsimpl; repeat wlookup; wsimpl; ssimpl; rewrite ?Hp, ?Had;
    eexists _, _; (split; [reflexivity|]); (split; [wlook|]);
    wsimpl; (split; [reflexivity|]);
    unfold TrackerState.isRequested, TrackerState.goViewCountUp; ssimpl;
    by rewrite Hph.
Qed.

Lemma sendEnd_stops_heartbeats_witness :
  ∃ w' tr',
    sendEnd 3 0%nat None demoWorld = Some w'
    ∧ trackers w' !! 0%nat = Some tr'
    ∧ heartbeatOn tr' = false
    ∧ step 3 (HeartbeatTimer 0%nat) w' = Some w'.
Proof.
  destruct (sendEnd_stops_heartbeats (λ r, r) 3 0%nat None demoWorld
              (default (newTracker 0) (trackers demoWorld !! 0%nat)))
    as (w' & tr' & H1 & H2 & H3 & _ & H5 & _).
  - exact demoWorld_acyclic.
  - vm_compute. reflexivity.
  - lia.
  - reflexivity.
  - exists w', tr'. exact (conj H1 (conj H2 (conj H3 H5))).
Defined.

(** ** An ad and the playback of its parent *)

Lemma goStart_isAd (n : Z) (s : TrackerState) :
  st_isAd (TrackerState.goStart n s).2 = st_isAd s.
Proof. unfold TrackerState.goStart. by destruct (_ && _). Qed.

Lemma st_isAd_goEnd (n : Z) (s : TrackerState) :
  st_isAd (TrackerState.goEnd n s).2 = st_isAd s.
Proof. unfold TrackerState.goEnd. by destruct (TrackerState.isRequested s). Qed.

(** X13.  An ad that plays holds the parent.  On an ad tracker with a
    parent, a [sendStart] that the state accepts delivers AD_START with the
    attributes as given and leaves the parent's [isPlaying] false, and a
    [sendEnd] that the state accepts leaves it true; on a content tracker
    neither method touches the [isPlaying] of a parent. *)
Theorem ad_playback_holds_the_parent (rank : ref → nat) (fuel : nat) (t p : ref)
    (att : option Bag) (w : World) (tr ptr : VideoTracker) :
  funnelAcyclic rank w → (rank t < fuel)%nat →
  trackers w !! t = Some tr → parentTracker tr = Some p →
  trackers w !! p = Some ptr →
  ((TrackerState.goStart (now w) (state tr)).1 = true →
   ∃ w' ptr' l,
     sendStart fuel t att w = Some w'
     ∧ sink w' = sink w ++ (t, if TrackerState.isAd (state tr)
                               then "AD_START" else "CONTENT_START", att) :: l
     ∧ trackers w' !! p = Some ptr'
     ∧ (TrackerState.isAd (state tr) = true → isPlaying (state ptr') = false)
     ∧ (TrackerState.isAd (state tr) = false → p ≠ t → ptr' = ptr))
  ∧ ((TrackerState.goEnd (now w) (state tr)).1 = true →
     ∃ w' ptr',
       sendEnd fuel t att w = Some w'
       ∧ trackers w' !! p = Some ptr'
       ∧ (TrackerState.isAd (state tr) = true → isPlaying (state ptr') = true)
       ∧ (TrackerState.isAd (state tr) = false → p ≠ t → ptr' = ptr)).
Proof.
  intros Hac Hf Htr Hp Hptr.
  assert (Hsend : ∀ e b w0, funnelAcyclic rank w0 → is_Some (trackers w0 !! t) →
            ∃ l, Tracker.send fuel t e b w0
                 = Some (set_sink (sink w0 ++ (t, e, b) :: l) w0)).
  { intros e b w0 H1 H2.
    destruct (send_returns rank fuel t e b w0) as (l & Hs & _); [done..|].
    by exists l. }
  unfold TrackerState.isAd. split; intros Hacc.
  - unfold sendStart. rewrite (go_Some _ t w tr Htr), Hacc. wsimpl.
    wunfold. wlookup. wsimpl. unfold TrackerState.isAd.
    rewrite goStart_isAd. unfold setParentIsPlaying. wsimpl. rewrite Hp.
    destruct (st_isAd (state tr)) eqn:Had; wunfold;
      (destruct (decide (p = t)) as [->|Hne];
         [assert (ptr = tr) as -> by congruence; clear Hptr|]);
      match goal with |- context [Tracker.send fuel t ?e ?b ?w0] =>
        destruct (Hsend e b w0) as (l & Hs);
          [ by repeat apply funnelAcyclic_modify
          | repeat apply is_Some_lookup_modify; by exists tr
          | rewrite Hs ] end;
      eexists _, _, l; (split; [reflexivity|]); (split; [by wrew|]);
      (split; [wlook|]); wsimpl; split; try done; congruence.
  - unfold sendEnd. rewrite (go_Some _ t w tr Htr), Hacc. wsimpl.
    unfold deltaTime. wunfold. wrew. rewrite Htr. wsimpl.
    unfold TrackerState.isAd. rewrite st_isAd_goEnd.
    unfold setParentIsPlaying. wsimpl. rewrite Hp.
    destruct (st_isAd (state tr)) eqn:Had; wunfold;
      (destruct (decide (p = t)) as [->|Hne];
         [assert (ptr = tr) as -> by congruence; clear Hptr|]);
      match goal with |- context [Tracker.send fuel t ?e ?b ?w0] =>
        destruct (Hsend e b w0) as (l & Hs);
          [ by repeat apply funnelAcyclic_modify
          | repeat apply is_Some_lookup_modify; by exists tr
          | rewrite Hs ] end;
      wsimpl; repeat wlookup; wsimpl; ssimpl; rewrite ?Hp;
      unfold TrackerState.isAd; ssimpl; rewrite ?st_isAd_goEnd, ?Had;
      eexists _, _; (split; [reflexivity|]); (split; [wlook|]);
      wsimpl; ssimpl; split; try done; congruence.
Qed.

Lemma ad_playback_holds_the_parent_witness :
  ∃ w' ptr' l,
    sendStart 3 1%nat None requestedAdWorld = Some w'
    ∧ sink w' = sink requestedAdWorld ++ (1%nat, "AD_START", None) :: l
    ∧ trackers w' !! 0%nat = Some ptr'
    ∧ isPlaying (state ptr') = false.
Proof.
  destruct (ad_playback_holds_the_parent (λ r, r) 3 1%nat 0%nat None
              requestedAdWorld
              (default (newTracker 0) (trackers requestedAdWorld !! 1%nat))
              (default (newTracker 0) (trackers requestedAdWorld !! 0%nat)))
    as [H _].
  - apply (bool_decide_unpack _). vm_compute. exact I.
  - lia.
  - vm_compute. reflexivity.
  - reflexivity.
  - vm_compute. reflexivity.
  - destruct H as (w' & ptr' & l & H1 & H2 & H3 & H4 & _); [reflexivity|].
    exists w', ptr', l. exact (conj H1 (conj H2 (conj H3 (H4 eq_refl)))).
Defined.

(** ** Rendition changes *)

Lemma getRenditionShift_listeners (b : bool) (tr : VideoTracker) :
  listeners (getRenditionShift b tr).2 = listeners tr.
Proof.
  rewrite getRenditionShift_tracker.
  by destruct b, (TrackerState.isAd (state tr)).
Qed.

Lemma getRenditionShift_unchanged (b : bool) (tr : VideoTracker) :
  roleLast tr = getRenditionBitrate tr → (getRenditionShift b tr).1 = JNull.
Proof.
  intros H. rewrite getRenditionShift_value, H.
  destruct (falsy (getRenditionBitrate tr)); [done|]. cbn [orb].
  destruct (Z.gtb_spec (default 0 (getRenditionBitrate tr))
              (default 0 (getRenditionBitrate tr))); [lia|].
  by rewrite Z.ltb_irrefl.
Qed.

Lemma sendRenditionChanged_emits (rank : ref → nat) (fuel : nat) (t : ref)
    (att : option Bag) (w : World) (tr : VideoTracker) :
  funnelAcyclic rank w → trackers w !! t = Some tr → (rank t < fuel)%nat →
  ∃ w' l bag tr',
    sendRenditionChanged fuel t att w = Some w'
    ∧ sink w' = sink w ++ (t, renditionEventOf (state tr), Some bag) :: l
    ∧ bag !! "shift" = Some (getRenditionShift true tr).1
    ∧ (∀ k, k ≠ "shift" → k ≠ "timeSinceLastRenditionChange" →
            bag !! k = or_empty att !! k)
    ∧ trackers w' !! t = Some tr'
    ∧ TrackerState.isAd (state tr') = TrackerState.isAd (state tr)
    ∧ roleLast tr' = getRenditionBitrate tr
    ∧ getRenditionBitrate tr' = getRenditionBitrate tr
    ∧ funnelAcyclic rank w'.
Proof.
  intros Hac Htr Hf. unfold sendRenditionChanged, deltaTime, isAd.
  rewrite Htr. wsimpl. wlookup. wsimpl.
  assert (Had : TrackerState.isAd (state (getRenditionShift true tr).2)
                = TrackerState.isAd (state tr)).
  { rewrite getRenditionShift_tracker.
    destruct (TrackerState.isAd (state tr)) eqn:E; exact E. }
  rewrite Had.
  match goal with |- context [Tracker.send fuel t ?e ?b ?w0] =>
    destruct (send_returns rank fuel t e b w0) as (l & Hs & _);
      [ apply funnelAcyclic_modify; [apply getRenditionShift_listeners|done]
      | apply is_Some_lookup_modify; by exists tr
      | done
      | rewrite Hs ] end.
  wsimpl. eexists _, l, _, _. split; [reflexivity|]. split; [by wrew|].
  split; [by rewrite lookup_insert_eq|]. split.
  { intros k H1 H2. by rewrite !lookup_insert_ne. }
  split; [wunfold; wlook|]. wsimpl. split; [exact Had|]. split.
  { rewrite getRenditionShift_tracker.
    unfold roleLast, getRenditionBitrate, TrackerState.goRenditionChange,
      TrackerState.isAd.
    destruct (st_isAd (state tr)) eqn:E; wsimpl; ssimpl; wsimpl;
      by rewrite E. }
  split.
  { rewrite getRenditionShift_tracker. unfold getRenditionBitrate.
    by destruct (TrackerState.isAd (state tr)). }
  apply funnelAcyclic_modifyState. apply funnelAcyclic_set_sink.
  apply funnelAcyclic_modify; [apply getRenditionShift_listeners|done].
Qed.

(** X14.  A rendition change is always reported, and reports a shift only
    when the bitrate moved.  In any state of the view [sendRenditionChanged]
    returns (given acyclic funnels and enough fuel) and delivers one
    AD_RENDITION_CHANGE or CONTENT_RENDITION_CHANGE whose [shift] is what
    [getRenditionShift(true)] answers, replacing a [shift] passed by the
    caller, and the current bitrate becomes the baseline; a second call
    with the bitrate unchanged therefore carries a null [shift]. *)
Theorem rendition_change_always_reported (rank : ref → nat) (fuel : nat)
    (t : ref) (att att2 : option Bag) (w : World) (tr : VideoTracker) :
  funnelAcyclic rank w → trackers w !! t = Some tr → (rank t < fuel)%nat →
  ∃ w1 l1 bag1 w2 l2 bag2,
    sendRenditionChanged fuel t att w = Some w1
    ∧ sink w1 = sink w ++ (t, renditionEventOf (state tr), Some bag1) :: l1
    ∧ bag1 !! "shift" = Some (getRenditionShift true tr).1
    ∧ sendRenditionChanged fuel t att2 w1 = Some w2
    ∧ sink w2 = sink w1 ++ (t, renditionEventOf (state tr), Some bag2) :: l2
    ∧ bag2 !! "shift" = Some JNull.
Proof.
  intros Hac Htr Hf.
  destruct (sendRenditionChanged_emits rank fuel t att w tr Hac Htr Hf)
    as (w1 & l1 & bag1 & tr1 & Hs1 & Hk1 & Hb1 & _ & Htr1 & Had1 & Hrl & Hbr & Hac1).
  destruct (sendRenditionChanged_emits rank fuel t att2 w1 tr1 Hac1 Htr1 Hf)
    as (w2 & l2 & bag2 & tr2 & Hs2 & Hk2 & Hb2 & _).
  exists w1, l1, bag1, w2, l2, bag2. split; [done|]. split; [done|].
  split; [done|]. split; [done|]. split.
  - rewrite Hk2. unfold renditionEventOf. by rewrite Had1.
  - rewrite Hb2, getRenditionShift_unchanged; [done|]. congruence.
Qed.

Lemma rendition_change_always_reported_witness :
  ∃ w1 l1 bag1,
    sendRenditionChanged 3 0%nat None freshWorld = Some w1
    ∧ sink w1 = sink freshWorld
                ++ (0%nat, "CONTENT_RENDITION_CHANGE", Some bag1) :: l1
    ∧ bag1 !! "shift" = Some JNull.
Proof.
  destruct (rendition_change_always_reported (λ r, r) 3 0%nat None None
              freshWorld (newTracker 0))
    as (w1 & l1 & bag1 & _ & _ & _ & H1 & H2 & H3 & _).
  - exact freshWorld_acyclic.
  - reflexivity.
  - lia.
  - exists w1, l1, bag1. exact (conj H1 (conj H2 H3)).
Defined.

(** ** Nested ads trackers *)

Lemma funnelReach_trackers (w w' : World) (c p : ref) :
  trackers w = trackers w' → funnelReach w c p → funnelReach w' c p.
Proof.
  intros Heq. unfold funnelsTo.
  induction 1 as [c p H|c q p H _ IH];
    [apply funnelReach_one|apply (funnelReach_more _ c q p); [|done]];
    unfold funnelsTo in *; by rewrite <- Heq.
Qed.

Lemma notify_reaches (f : nat) (ev : string) (att : option Bag) (t q p : ref)
    (w : World) :
  (∀ w0 w2, trackers w0 = trackers w → Tracker.send f q ev att w0 = Some w2 →
            ∃ k, w2 = set_sink (sink w0 ++ k) w0 ∧ (p, ev, att) ∈ k) →
  ∀ (ls : list Callback) (w0 w' : World),
    trackers w0 = trackers w →
    foldl (λ acc cb, w1 ← acc; invoke (Tracker.send f) cb (MkEvent ev att t) w1)
          (Some w0) ls = Some w' →
    FunnelAdEvents (Some q) ∈ ls →
    ∃ k, w' = set_sink (sink w0 ++ k) w0 ∧ (p, ev, att) ∈ k.
Proof.
  intros Hq. induction ls as [|cb ls IH]; intros w0 w' Hw0 Hf Hin;
    [by apply elem_of_nil in Hin|].
  cbn [foldl] in Hf.
  destruct cb as [[r|]]; cbn [mbind option_bind invoke funnelAdEvents type data] in Hf;
    [|by rewrite foldl_bind_None in Hf].
  destruct (Tracker.send f r ev att w0) as [w2|] eqn:Hr;
    [|by rewrite foldl_bind_None in Hf].
  apply elem_of_cons in Hin as [Heq|Hin].
  - injection Heq as <-. apply Hq in Hr as (k & -> & Hk); [|done].
    apply notify_sink in Hf as (k' & ->). cbn [sink set_sink].
    exists (k ++ k'). split; [by rewrite <- app_assoc|].
    apply elem_of_app. by left.
  - apply send_sink in Hr as (l & -> & _).
    apply IH in Hf as (k & -> & Hk); [|done|done]. cbn [sink set_sink].
    exists (((r, ev, att) :: l) ++ k). split; [by rewrite <- !app_assoc|].
    apply elem_of_app. by right.
Qed.

(** An event that a tracker sends is delivered for every tracker that its
    funnels reach. *)
Lemma send_reaches (fuel : nat) (ev : string) (att : option Bag) (p : ref) :
  ∀ (c : ref) (w w' : World),
    Tracker.send fuel c ev att w = Some w' → funnelReach w c p →
    ∃ k, w' = set_sink (sink w ++ k) w ∧ (p, ev, att) ∈ k.
Proof.
  induction fuel as [|f IH]; intros c w w' Hs Hreach; [discriminate|].
  cbn [Tracker.send] in Hs.
  assert (Hq : ∃ q tr, trackers w !! c = Some tr
                       ∧ FunnelAdEvents (Some q) ∈ listeners tr
                       ∧ (q = p ∨ funnelReach w q p)).
  { inversion Hreach as [c0 p0 (tr & Htr & Hin)|c0 q p0 (tr & Htr & Hin) Hmore];
      subst; [exists p, tr|exists q, tr]; auto. }
  destruct Hq as (q & tr & Htr & Hin & Hq). rewrite Htr in Hs.
  cbn [mbind option_bind] in Hs.
  apply (notify_reaches f ev att c q p w) in Hs as (k & -> & Hk);
    [|..|done|done].
  - unfold Tracker.deliver. cbn [sink set_sink].
    exists ((c, ev, att) :: k). split; [by rewrite <- app_assoc|].
    by apply elem_of_cons; right.
  - intros w0 w2 Hw0 Hs2. destruct Hq as [->|Hq].
    + apply send_sink in Hs2 as (l & -> & _). exists ((p, ev, att) :: l).
      split; [done|]. apply elem_of_cons. by left.
    + apply (IH q w0 w2 Hs2). by apply (funnelReach_trackers w).
Qed.


Lemma nestedWorld_acyclic : funnelAcyclic (λ r, r) nestedWorld.
Proof. apply (bool_decide_unpack _). vm_compute. exact I. Qed.


(** X16.  A request starts the heartbeat.  After a [sendRequest] that the
    state accepts, the heartbeat timer of the tracker is running, and when
    it fires it delivers AD_HEARTBEAT or CONTENT_HEARTBEAT for the tracker,
    with no attributes of its own. *)
Theorem request_starts_heartbeat (rank : ref → nat) (fuel : nat) (t : ref)
    (att : option Bag) (w : World) (tr : VideoTracker) :
  funnelAcyclic rank w → (rank t < fuel)%nat →
  trackers w !! t = Some tr → TrackerState.isRequested (state tr) = false →
  ∃ w1 tr1 w2 l,
    sendRequest fuel t att w = Some w1
    ∧ trackers w1 !! t = Some tr1
    ∧ heartbeatOn tr1 = true
    ∧ step fuel (HeartbeatTimer t) w1 = Some w2
    ∧ sink w2 = sink w1 ++ (t, heartbeatEventOf (state tr), None) :: l.
Proof.
  intros Hac Hf Htr Hrq. unfold sendRequest, isAd.
  destruct (goRequest_accepted (now w) _ Hrq) as (Hacc & Hrq' & Had).
  rewrite (go_Some _ t w tr Htr), Hacc. wsimpl. wunfold. wlookup. wsimpl.
  rewrite Had.
  match goal with |- context [Tracker.send fuel t ?e ?b ?w0] =>
      destruct (send_returns rank fuel t e b w0) as (l & Hs & Hl);
        [ | | done |]; [ | | rewrite Hs] end.
  { by repeat apply funnelAcyclic_modify. }
  { repeat apply is_Some_lookup_modify. by exists tr. }
  wsimpl. unfold go. wlookup. wsimpl.
  match goal with |- ∃ w1 tr1 w2 l0, Some ?W = Some w1 ∧ _ =>
    assert (Hl1 : ∃ tr1, trackers W !! t = Some tr1 ∧ heartbeatOn tr1 = true
                         ∧ TrackerState.isRequested (state tr1) = true
                         ∧ TrackerState.isAd (state tr1)
                           = TrackerState.isAd (state tr));
    [|assert (Hac1 : funnelAcyclic rank W)] end.
  { eexists. split; [wunfold; wlook|]. wsimpl. split; [done|].
    rewrite goHeartbeat_isRequested. split; [done|].
    unfold TrackerState.goHeartbeat. rewrite Hrq'. cbn [snd].
    unfold TrackerState.isAd in *. by ssimpl. }
  { wunfold. by repeat first [apply funnelAcyclic_modify; [done|]
                             | apply funnelAcyclic_set_sink]. }
  destruct Hl1 as (tr1 & Htr1 & Hh & Hrq1 & Had1).
  destruct (sendHeartbeat_requested rank fuel t None _ tr1 Hac1 Htr1 Hf Hrq1)
    as (w2 & l2 & Hs2 & Hk2 & _).
  eexists _, tr1, w2, l2. split; [reflexivity|]. split; [done|].
  split; [done|]. split.
  - cbn [step]. rewrite Htr1. cbn [mbind option_bind]. by rewrite Hh.
  - rewrite Hk2. unfold heartbeatEventOf. by rewrite Had1.
Qed.

Lemma request_starts_heartbeat_witness :
  ∃ w1 tr1 w2 l,
    sendRequest 3 0%nat None freshWorld = Some w1
    ∧ trackers w1 !! 0%nat = Some tr1
    ∧ heartbeatOn tr1 = true
    ∧ step 3 (HeartbeatTimer 0%nat) w1 = Some w2
    ∧ sink w2 = sink w1 ++ (0%nat, "CONTENT_HEARTBEAT", None) :: l.
Proof.
  apply (request_starts_heartbeat (λ r, r) 3 0%nat None freshWorld (newTracker 0)).
  - exact freshWorld_acyclic.
  - lia.
  - reflexivity.
  - reflexivity.
Defined.

Lemma goAdBreakEnd_keeps (n : Z) (s : TrackerState) :
  st_isAd (TrackerState.goAdBreakEnd n s).2 = st_isAd s
  ∧ phase (TrackerState.goAdBreakEnd n s).2 = phase s.
Proof. unfold TrackerState.goAdBreakEnd. by destruct (isAdBreak s). Qed.



(** ** Properties of the states that hold until the end of the view *)

Section ViewInvariant.

Variable P : ref → Z → option TrackerState → Prop.
Variable endOk : ref → Prop.

Hypothesis P_tick : ∀ x n (d : N) o, P x n o → P x (n + Z.of_N d) o.
Hypothesis P_new : ∀ x n, P x n None → P x n (Some (TrackerState.new n)).
Hypothesis P_op :
  ∀ op x n o, unusedOp op = false → (viewOp op = true → endOk x) →
              P x n o → P x n (runOp op n <$> o).

Lemma inView_modifyState (op : StateOp) (w0 w : World) (x : ref)
    (f : TrackerState → TrackerState) :
  (∀ s, f s = runOp op (now w0) s) → unusedOp op = false →
  (viewOp op = true → endOk x) →
  keeping P w0 w → keeping P w0 (modifyState x f w).
Proof.
  intros Hf Hu Hend [Hn Hk]. split; [done|]. intros H0 y.
  specialize (Hk H0 y). unfold modifyState. rewrite lookup_modify.
  cbn [now modify set_trackers]. destruct (decide (x = y)) as [->|]; [|done].
  rewrite Hn in *. destruct (trackers w !! y) as [tr|]; simpl in *.
  - rewrite Hf. by apply (P_op op y _ (Some (state tr))).
  - done.
Qed.

Lemma inView_go (op : StateOp) (w0 w w' : World) (x : ref) (ok : bool)
    (g : TrackerState → bool * TrackerState) :
  go g x w = Some (ok, w') →
  (∀ s, (g s).2 = runOp op (now w0) s) → unusedOp op = false →
  (viewOp op = true → endOk x) →
  keeping P w0 w → keeping P w0 w'.
Proof.
  unfold go. destruct (trackers w !! x); [|discriminate].
  cbn [mbind option_bind]. intros [= _ <-] Hg Hu Hend Hk.
  by apply (inView_modifyState op).
Qed.

Lemma inView_setParentIsPlaying (w0 w : World) (b : bool) (tr : VideoTracker) :
  keeping P w0 w → keeping P w0 (setParentIsPlaying b tr w).
Proof.
  intros Hk. unfold setParentIsPlaying. destruct (parentTracker tr); [|done].
  by apply (inView_modifyState (OpIsPlaying b)).
Qed.

Ltac view_fun :=
  intros ?; cbn [runOp]; now_norm;
  repeat match goal with H : now _ = now _ |- _ => progress rewrite H end;
  reflexivity.

Ltac view_end := first [ discriminate | intros _; assumption ].

Ltac view_ms op :=
  eapply (inView_modifyState op);
    [ solve [view_fun] | reflexivity | solve [view_end] | ].

Ltac view_go op H :=
  eapply (inView_go op _ _ _ _ _ _ H);
    [ solve [view_fun] | reflexivity | solve [view_end] | ].

Ltac view_ops k :=
  first
    [ k OpPlayerReady | k OpRequest | k OpStart | k OpEnd | k OpPause
    | k OpResume | k OpBufferStart | k OpBufferEnd | k OpSeekStart
    | k OpSeekEnd | k OpAdBreakStart | k OpAdBreakEnd | k OpHeartbeat
    | k OpViewCountUp | k OpLastAd | k OpAdQuartile | k OpDownload
    | k OpError | k OpRenditionChange | k uconstr:(OpTimeSince _)
    | k uconstr:(OpIsAd _) | k uconstr:(OpIsPlaying _)
    | k uconstr:(OpInitialBufferingHappened _)
    | k uconstr:(OpTotalPlaytime _) | k uconstr:(OpTotalAdPlaytime _) ].

Ltac solve_inView :=
  repeat lazymatch goal with
  | |- keeping _ ?w ?w => apply keeping_refl
  | |- keeping _ _ (modifyState ?x ?f ?w) =>
      view_ops ltac:(fun op => view_ms op)
  | |- keeping _ _ (modify _ (λ tr, (getRenditionShift _ tr).2) _) =>
      apply keeping_getRenditionShift
  | |- keeping _ _ (modify _ _ _) => apply keeping_modify; [done|]
  | |- keeping _ _ (setParentIsPlaying _ _ _) => apply inView_setParentIsPlaying
  | |- keeping _ _ (Log_warn _ _) => apply keeping_Log_warn
  | |- keeping _ _ (Tracker.stopHeartbeat _ _) => unfold Tracker.stopHeartbeat
  | |- keeping _ _ (Tracker.startHeartbeat _ _) => unfold Tracker.startHeartbeat
  | |- keeping _ _ (Tracker.on _ _ _) => unfold Tracker.on
  | |- keeping _ _ (Tracker.off _ _ _) => unfold Tracker.off
  | |- keeping _ _ (setIsAd _ _ _) => unfold setIsAd
  | |- keeping _ _ (if ?b then _ else _) => destruct b
  | |- keeping _ _ (match ?o with _ => _ end) => destruct o
  | |- keeping _ _ ?wj =>
      is_var wj;
      match goal with
      | H : Tracker.send _ _ _ _ _ = Some wj |- _ => eapply keeping_send; [exact H|]
      | H : go _ _ _ = Some (_, wj) |- _ =>
          view_ops ltac:(fun op => view_go op H)
      | H : dispose _ _ _ = Some wj |- _ => eapply keeping_dispose; [exact H|]
      end
  end.

Lemma step_inView (fuel : nat) (c : Call) (w w' : World) :
  callOk endOk c → step fuel c w = Some w' →
  match c with Tick _ | New _ => True | _ => keeping P w w' end.
Proof.
  intros Hc Hs. destruct c; [done|done|..]; cbn [step callOk] in *;
    unfold sendCustom, sendPlayerReady, sendRequest, sendStart, sendEnd,
      sendPause, sendResume, sendBufferStart, sendBufferEnd, sendSeekStart,
      sendSeekEnd, sendDownload, sendError, sendRenditionChanged, sendHeartbeat,
      sendAdBreakStart, sendAdBreakEnd, sendAdQuartile, sendAdClick,
      setOptions, Tracker.setOptions, setAdsTracker, disposeAdsTracker,
      disposeAdsTracker_with in Hs;
    inv_all; now_facts;
    repeat match goal with H : Some _ = Some _ |- _ => injection H as <- end;
    solve_inView.
Qed.

Theorem run_inView (fuel : nat) (cs : list Call) :
  ∀ w w', Forall (callOk endOk) cs → run fuel cs w = Some w' →
          statesHold P w → statesHold P w'.
Proof.
  induction cs as [|c cs IH]; intros w w' Hcs Hr Hw; cbn [run] in Hr.
  - by injection Hr as <-.
  - destruct (step fuel c w) as [w1|] eqn:Hs; [|discriminate].
    cbn [mbind option_bind] in Hr. inversion Hcs as [|? ? Hc Hcs']; subst.
    apply (IH w1 w'); [done|done|].
    pose proof (step_inView fuel c w w1 Hc Hs) as Hk.
    destruct c; try (by apply Hk); cbn [step] in Hs.
    + injection Hs as <-. intros x. cbn [now trackers set_now].
      apply P_tick, Hw.
    + destruct (trackers w !! r) eqn:Hr'; [discriminate|]. injection Hs as <-.
      intros x. unfold construct. cbn [now trackers set_trackers].
      destruct (decide (r = x)) as [->|Hne].
      * rewrite lookup_insert_eq. simpl. apply P_new.
        specialize (Hw x). by rewrite Hr' in Hw.
      * rewrite lookup_insert_ne by done. apply Hw.
Qed.

End ViewInvariant.

(** ** Buffering again within a view *)

Lemma buffered_op (op : StateOp) (n : Z) (s : TrackerState) :
  TrackerState.isRequested s = true → initialBufferingHappened s = true →
  unusedOp op = false → viewOp op = false →
  initialBufferingHappened (runOp op n s) = true.
Proof.
  destruct s as [ad p bR sR started playing adBreak ibh tp tap vs vc na ca ch].
  unfold TrackerState.isRequested. cbn [phase initialBufferingHappened].
  intros Hrq -> Hu Hv.
  destruct op as [| | | | | | | | | | | | | | | | | | | | | |[]| |];
    try discriminate Hu; try discriminate Hv; cbn [runOp];
    unfold TrackerState.goPlayerReady, TrackerState.goRequest,
      TrackerState.goStart, TrackerState.goPause,
      TrackerState.goResume, TrackerState.goBufferStart,
      TrackerState.goBufferEnd, TrackerState.goSeekStart,
      TrackerState.goSeekEnd, TrackerState.goAdBreakStart,
      TrackerState.goAdBreakEnd, TrackerState.goHeartbeat,
      TrackerState.isRequested;
    cbn [phase isStarted isAdBreak];
    try reflexivity;
    destruct p; try discriminate Hrq; try reflexivity;
    try (by destruct started); by destruct adBreak.
Qed.

Lemma buffered_statesHold (t : ref) (w : World) :
  phaseOk w
  ∧ (∃ tr, trackers w !! t = Some tr ∧ TrackerState.isRequested (state tr) = true
           ∧ initialBufferingHappened (state tr) = true)
  ↔ statesHold (bufferedProp t) w.
Proof.
  unfold phaseOk, statesHold, bufferedProp. rewrite map_Forall_lookup. split.
  - intros [Hp (tr & Htr & Hrq & Hib)] x. split.
    + intros s Hs. apply fmap_Some in Hs as (tr' & Htr' & ->). by apply (Hp x).
    + intros ->. exists (state tr). by rewrite Htr.
  - intros H. split.
    + intros x tr Htr. apply (H x). by rewrite Htr.
    + destruct (H t) as [_ Ht]. destruct (Ht eq_refl) as (s & Hs & Hrq & Hib).
      apply fmap_Some in Hs as (tr & Htr & ->). by exists tr.
Qed.

(** A view that has completed a buffering stays so until its [sendEnd]. *)
Lemma run_buffered (fuel : nat) (t : ref) (cs : list Call) (w w' : World) :
  Forall (notSendEnd t) cs → run fuel cs w = Some w' →
  statesHold (bufferedProp t) w → statesHold (bufferedProp t) w'.
Proof.
  intros Hcs Hr.
  refine (run_inView (bufferedProp t) (λ x, x ≠ t) _ _ _ fuel cs w w' Hcs Hr).
  - intros x n d o H. exact H.
  - intros x n [_ H]. split.
    + intros s [= <-]. reflexivity.
    + intros ->. by destruct (H eq_refl) as (? & ? & _).
  - intros op x n o Hu Hend [Hinv Hreq]. split.
    + intros s Hs. apply fmap_Some in Hs as (s0 & -> & ->).
      by apply phaseInv_op, Hinv.
    + intros ->. destruct (Hreq eq_refl) as (s & -> & Hrq & Hib).
      exists (runOp op n s). split; [done|].
      assert (Hv : viewOp op = false).
      { destruct (viewOp op) eqn:E; [|done]. by destruct (Hend eq_refl). }
      split.
      * apply phaseInv_op; [by apply Hinv| |done]. intros ->. discriminate Hv.
      * by apply buffered_op.
Qed.

Lemma goBufferEnd_requested (n : Z) (s : TrackerState) :
  (TrackerState.goBufferEnd n s).1 = true → TrackerState.isRequested s = true.
Proof.
  unfold TrackerState.goBufferEnd, TrackerState.isRequested.
  by destruct (phase s).
Qed.

Lemma sendBufferEnd_done (rank : ref → nat) (fuel : nat) (t : ref)
    (att : option Bag) (w : World) (tr : VideoTracker) :
  funnelAcyclic rank w → (rank t < fuel)%nat → trackers w !! t = Some tr →
  (TrackerState.goBufferEnd (now w) (state tr)).1 = true →
  ∃ w' tr',
    sendBufferEnd fuel t att w = Some w'
    ∧ trackers w' !! t = Some tr'
    ∧ initialBufferingHappened (state tr') = true.
Proof.
  intros Hac Hf Htr Hacc. unfold sendBufferEnd, isAd.
  rewrite (go_Some _ t w tr Htr), Hacc. wsimpl. wunfold. wlookup. wsimpl.
  unfold deltaTime. wlookup. wsimpl.
  destruct (TrackerState.isAd _);
    (match goal with |- context [buildBufferAttributes t ?a ?w0] =>
       destruct (buildBufferAttributes_returns t a w0) as [bag Hb];
         [repeat apply is_Some_lookup_modify; by exists tr|]; rewrite Hb end;
     wsimpl;
     match goal with |- context [Tracker.send fuel t ?e ?b ?w0] =>
       destruct (send_returns rank fuel t e b w0) as (l & Hs & _);
         [ | | done |]; [ | | rewrite Hs] end;
     [ by repeat apply funnelAcyclic_modify
     | repeat apply is_Some_lookup_modify; by exists tr
     | wsimpl; eexists _, _; split; [reflexivity|]; split; [wlook|]; done ]).
Qed.



(** ** Calls that the state machine accepts *)

Lemma guard_isAd (c : Call) (t : ref)
    (g : Z → TrackerState → bool * TrackerState) (n : Z) (s : TrackerState) :
  guardOf c = Some (t, g) → st_isAd (g n s).2 = st_isAd s.
Proof.
  destruct c; cbn [guardOf]; try discriminate; intros [= <- <-];
    unfold TrackerState.goPlayerReady, TrackerState.goRequest,
      TrackerState.goStart, TrackerState.goEnd, TrackerState.goPause,
      TrackerState.goResume, TrackerState.goBufferStart,
      TrackerState.goBufferEnd, TrackerState.goSeekStart,
      TrackerState.goSeekEnd, TrackerState.goAdBreakStart,
      TrackerState.goAdBreakEnd, TrackerState.isAd;
    repeat match goal with
    | |- context [match ?p with _ => _ end] => destruct p eqn:?
    end; cbn; try reflexivity; try congruence.
Qed.

Ltac emit_send rank tr :=
  match goal with |- context [Tracker.send ?fuel ?t ?e ?b ?w0] =>
    let l := fresh "l" in let Hs := fresh "Hs" in let Hl := fresh "Hl" in
    destruct (send_returns rank fuel t e b w0) as (l & Hs & Hl);
      [ by repeat apply funnelAcyclic_modify
      | repeat apply is_Some_lookup_modify; by exists tr
      | done
      | rewrite Hs ] end.

Ltac emit_done :=
  match goal with Hl : Forall _ ?l |- _ =>
    eexists _, _, l; split; [reflexivity|]; split; [wrew; reflexivity|];
    eapply Forall_impl; [exact Hl|];
    let d := fresh "d" in let Hd := fresh "Hd" in let Heq := fresh "Heq" in
    intros d (Hd & _) Heq; rewrite Heq in Hd; lia
  end.

(** X19.  A call that the state machine accepts delivers its event.  When
    the transition that guards a call of the [send*] family returns true,
    the call returns (given acyclic funnels and enough fuel) and delivers,
    first of all, one event for the tracker it was called on, under the
    name that belongs to the call and to the ad flag of the tracker; what
    else it delivers are the copies for the trackers the event is funnelled
    to, none of them for the tracker itself. *)
Theorem accepted_call_delivers_its_event (rank : ref → nat) (fuel : nat) (c : Call) (t : ref)
    (g : Z → TrackerState → bool * TrackerState) (w : World) (tr : VideoTracker) :
  funnelAcyclic rank w → guardOf c = Some (t, g) → trackers w !! t = Some tr →
  (rank t < fuel)%nat → (g (now w) (state tr)).1 = true →
  ∃ w' bag l,
    step fuel c w = Some w'
    ∧ sink w' = sink w ++ (t, eventNameOf c (TrackerState.isAd (state tr)), bag) :: l
    ∧ Forall (λ d : Delivery, d.1.1 ≠ t) l.
Proof.
  intros Hac Hg Htr Hf Hacc.
  pose proof (guard_isAd c t g (now w) (state tr) Hg) as Had.
  unfold TrackerState.isAd.
  destruct c; cbn [guardOf] in Hg; try discriminate; injection Hg as <- <-;
    cbn [step eventNameOf].
  - (* sendPlayerReady *)
    unfold sendPlayerReady. rewrite (go_Some _ _ w tr Htr), Hacc. wsimpl.
    wunfold. emit_send rank tr. emit_done.
  - (* sendRequest *)
    unfold sendRequest, isAd. rewrite (go_Some _ _ w tr Htr), Hacc. wsimpl.
    wunfold. wlookup. wsimpl. unfold TrackerState.isAd. rewrite Had.
    emit_send rank tr. wsimpl. unfold go. wlookup. wsimpl. emit_done.
  - (* sendStart *)
    unfold sendStart. rewrite (go_Some _ _ w tr Htr), Hacc. wsimpl.
    wunfold. wlookup. wsimpl. unfold TrackerState.isAd. rewrite Had.
    unfold setParentIsPlaying. wsimpl.
    destruct (st_isAd (state tr)); [destruct (parentTracker tr)|];
      wunfold; emit_send rank tr; emit_done.
  - (* sendEnd *)
    unfold sendEnd. rewrite (go_Some _ _ w tr Htr), Hacc. wsimpl.
    unfold deltaTime. wunfold. wrew. rewrite Htr. wsimpl.
    unfold TrackerState.isAd. rewrite Had. unfold setParentIsPlaying. wsimpl.
    destruct (st_isAd (state tr)) eqn:E;
      (destruct (parentTracker tr) as [p|] eqn:Hp;
         [destruct (decide (p = t0)) as [->|Hne]|]);
      wunfold; emit_send rank tr; wsimpl; repeat wlookup; wsimpl; ssimpl;
      rewrite ?Hp; unfold TrackerState.isAd; ssimpl; rewrite ?Had, ?E;
      emit_done.
  - (* sendPause *)
    unfold sendPause, isAd. rewrite (go_Some _ _ w tr Htr), Hacc. wsimpl.
    wunfold. wlookup. wsimpl. unfold TrackerState.isAd. rewrite Had.
    emit_send rank tr. emit_done.
  - (* sendResume *)
    unfold sendResume, isAd, deltaTime.
    rewrite (go_Some _ _ w tr Htr), Hacc. wsimpl.
    wunfold. repeat wlookup. wsimpl.
    unfold TrackerState.isAd. rewrite Had.
    destruct (st_isAd (state tr)); emit_send rank tr; emit_done.
  - (* sendBufferStart *)
    unfold sendBufferStart, isAd. rewrite (go_Some _ _ w tr Htr), Hacc. wsimpl.
    wunfold. wlookup. wsimpl. unfold TrackerState.isAd. rewrite Had.
    match goal with |- context [buildBufferAttributes ?t ?a ?w0] =>
      destruct (buildBufferAttributes_returns t a w0) as [bag Hb];
        [repeat apply is_Some_lookup_modify; by exists tr|]; rewrite Hb end.
    wsimpl. emit_send rank tr. emit_done.
  - (* sendBufferEnd *)
    unfold sendBufferEnd, isAd. rewrite (go_Some _ _ w tr Htr), Hacc. wsimpl.
    wunfold. wlookup. wsimpl. unfold deltaTime. wlookup. wsimpl.
    unfold TrackerState.isAd. rewrite Had.
    destruct (st_isAd (state tr));
      (match goal with |- context [buildBufferAttributes ?t ?a ?w0] =>
         destruct (buildBufferAttributes_returns t a w0) as [bag Hb];
           [repeat apply is_Some_lookup_modify; by exists tr|]; rewrite Hb end;
       wsimpl; emit_send rank tr; wsimpl; emit_done).
  - (* sendSeekStart *)
    unfold sendSeekStart, isAd. rewrite (go_Some _ _ w tr Htr), Hacc. wsimpl.
    wunfold. wlookup. wsimpl. unfold TrackerState.isAd. rewrite Had.
    emit_send rank tr. emit_done.
  - (* sendSeekEnd *)
    unfold sendSeekEnd, isAd, deltaTime.
    rewrite (go_Some _ _ w tr Htr), Hacc. wsimpl.
    wunfold. repeat wlookup. wsimpl.
    unfold TrackerState.isAd. rewrite Had.
    destruct (st_isAd (state tr)); emit_send rank tr; emit_done.
  - (* sendAdBreakStart *)
    unfold sendAdBreakStart, isAd. rewrite Htr. cbn [mbind option_bind].
    unfold TrackerState.isAd in *.
    destruct (st_isAd (state tr)) eqn:E; [|discriminate Hacc].
    rewrite (go_Some _ _ w tr Htr), Hacc. wsimpl. wunfold. wlookup. wsimpl.
    unfold setParentIsPlaying. wsimpl.
    destruct (parentTracker tr); wunfold; emit_send rank tr; emit_done.
  - (* sendAdBreakEnd *)
    unfold sendAdBreakEnd, isAd. rewrite Htr. cbn [mbind option_bind].
    unfold TrackerState.isAd in *.
    destruct (st_isAd (state tr)) eqn:E; [|discriminate Hacc].
    rewrite (go_Some _ _ w tr Htr), Hacc. wsimpl.
    unfold deltaTime. wunfold. wlookup. wsimpl.
    emit_send rank tr. wsimpl. wlookup. wsimpl.
    unfold setParentIsPlaying. wsimpl.
    destruct (parentTracker tr) as [p|] eqn:Hp;
      [destruct (decide (p = t0)) as [->|Hne]|];
      wunfold; repeat wlookup; wsimpl; ssimpl; rewrite ?Hp;
      unfold TrackerState.isAd; ssimpl; rewrite ?Had, ?E; emit_done.
Qed.

Lemma accepted_call_delivers_its_event_witness :
  ∃ w' bag l,
    step 3 (CallSendStart 1%nat None) requestedAdWorld = Some w'
    ∧ sink w' = sink requestedAdWorld ++ (1%nat, "AD_START", bag) :: l
    ∧ Forall (λ d : Delivery, d.1.1 ≠ 1%nat) l.
Proof.
  destruct (accepted_call_delivers_its_event (λ r, r) 3 (CallSendStart 1%nat None)
              1%nat TrackerState.goStart requestedAdWorld
              (default (newTracker 0) (trackers requestedAdWorld !! 1%nat)))
    as (w' & bag & l & H1 & H2 & H3).
  - apply (bool_decide_unpack _). vm_compute. exact I.
  - reflexivity.
  - vm_compute. reflexivity.
  - lia.
  - reflexivity.
  - exists w', bag, l. exact (conj H1 (conj H2 H3)).
Defined.

(** ** Options *)

(** X20.  [setOptions] attaches the ads tracker before it sets the ad flag.
    With an [adsTracker] option the call is a [setAdsTracker]: when it
    returns, the tracker holds the ads tracker, which is subscribed to the
    funnel of the tracker and, when it is another tracker, is an ad
    whatever the [isAd] option says; the [isAd] option, when given, is
    applied afterwards and to the tracker itself. *)
Theorem setOptions_attaches_then_flags (fuel : nat) (t c : ref) (o : Options)
    (w w' : World) :
  setOptions fuel t (Some o) w = Some w' → opt_adsTracker o = Some c →
  is_Some (trackers w !! c) →
  ∃ ttr ctr,
    trackers w' !! t = Some ttr ∧ trackers w' !! c = Some ctr
    ∧ adsTracker ttr = Some c
    ∧ FunnelAdEvents (Some t) ∈ listeners ctr
    ∧ (c ≠ t → TrackerState.isAd (state ctr) = true)
    ∧ (∀ b, opt_isAd o = Some b → TrackerState.isAd (state ttr) = b).
Proof.
  intros Hset Hads Hc. unfold setOptions in Hset. rewrite Hads in Hset.
  unfold setAdsTracker in Hset.
  destruct (disposeAdsTracker fuel t w) as [w0|] eqn:Hd; [|discriminate].
  cbn [mbind option_bind] in Hset. injection Hset as <-.
  assert (Ht : is_Some (trackers w0 !! t)).
  { apply (disposeAdsTracker_exists _ _ _ _ Hd).
    unfold disposeAdsTracker, disposeAdsTracker_with in Hd.
    destruct (trackers w !! t); [by eexists|discriminate]. }
  apply (disposeAdsTracker_exists _ _ _ _ Hd) in Hc.
  destruct Ht as [ttr0 Ht], Hc as [ctr0 Hc].
  unfold Tracker.setOptions.
  destruct (decide (c = t)) as [->|Hne];
    [assert (ctr0 = ttr0) as -> by congruence; clear Hc|];
    destruct (opt_isAd o) as [b|], (opt_parentTracker o) as [q|];
    wunfold; eexists _, _; (split; [wlook|]); (split; [wlook|]); wsimpl;
    (split; [reflexivity|]);
    (split; [apply elem_of_app; right; by apply list_elem_of_singleton|]);
    (split; [done|]); intros b' Hb; by simplify_eq.
Qed.

Lemma setOptions_attaches_then_flags_witness :
  ∃ ttr ctr,
    trackers demoWorld !! 0%nat = Some ttr ∧ trackers demoWorld !! 1%nat = Some ctr
    ∧ adsTracker ttr = Some 1%nat
    ∧ TrackerState.isAd (state ctr) = true
    ∧ TrackerState.isAd (state ttr) = false.
Proof.
  destruct (setOptions_attaches_then_flags 5 0%nat 1%nat
              (MkOptions (Some 1%nat) (Some false) None)
              demoWorldBeforeAds demoWorld)
    as (ttr & ctr & H1 & H2 & H3 & _ & H5 & H6).
  - vm_compute. reflexivity.
  - reflexivity.
  - eexists. vm_compute. reflexivity.
  - exists ttr, ctr.
    exact (conj H1 (conj H2 (conj H3 (conj (H5 ltac:(lia)) (H6 false eq_refl))))).
Defined.

(** ** The position of an ad *)

Lemma goStart_accepted (n : Z) (s : TrackerState) :
  (TrackerState.goStart n s).1 = true → isStarted (TrackerState.goStart n s).2 = true.
Proof. unfold TrackerState.goStart. by destruct (_ && _). Qed.

(** X21.  The position of an ad follows the start of the parent's content.
    For a tracker with a parent, [getAdPosition] answers mid when the state
    of the parent says that its content has started and pre otherwise, and
    never post; and once a [sendStart] on the parent has been accepted, the
    answer is mid. *)
Theorem ad_position_follows_parent_start (rank : ref → nat) (fuel : nat)
    (c p : ref) (att : option Bag) (w : World) (ctr ptr : VideoTracker) :
  trackers w !! c = Some ctr → parentTracker ctr = Some p →
  trackers w !! p = Some ptr →
  getAdPosition c w = Some (JStr (if isStarted (state ptr) then "mid" else "pre"))
  ∧ (funnelAcyclic rank w → (rank p < fuel)%nat →
     (TrackerState.goStart (now w) (state ptr)).1 = true →
     ∃ w', sendStart fuel p att w = Some w'
           ∧ getAdPosition c w' = Some (JStr "mid")).
Proof.
  intros Hc Hp Hptr. split.
  { unfold getAdPosition. rewrite Hc. cbn [mbind option_bind].
    rewrite Hp, Hptr. done. }
  intros Hac Hf Hacc.
  pose proof (goStart_accepted _ _ Hacc) as Hst.
  unfold sendStart. rewrite (go_Some _ p w ptr Hptr), Hacc. wsimpl.
  wunfold. wlookup. wsimpl. unfold setParentIsPlaying. wsimpl.
  assert (Hsend : ∀ e b w0, funnelAcyclic rank w0 → is_Some (trackers w0 !! p) →
            ∃ l, Tracker.send fuel p e b w0
                 = Some (set_sink (sink w0 ++ (p, e, b) :: l) w0)).
  { intros e b w0 H1 H2.
    destruct (send_returns rank fuel p e b w0) as (l & Hs & _); [done..|].
    by exists l. }
  assert (Hfin : ∀ W, (∃ ctr' ptr', trackers W !! c = Some ctr'
                          ∧ parentTracker ctr' = Some p
                          ∧ trackers W !! p = Some ptr'
                          ∧ isStarted (state ptr') = true) →
                      getAdPosition c W = Some (JStr "mid")).
  { intros W (ctr' & ptr' & H1 & H2 & H3 & H4). unfold getAdPosition.
    rewrite H1. cbn [mbind option_bind]. rewrite H2, H3.
    cbn [mbind option_bind]. by rewrite H4. }
  destruct (decide (c = p)) as [->|Hne].
  - assert (ctr = ptr) as -> by congruence. clear Hc. rewrite Hp.
    destruct (TrackerState.isAd _); wunfold;
      match goal with |- context [Tracker.send fuel p ?e ?b ?w0] =>
        destruct (Hsend e b w0) as (l & Hs);
          [ by repeat apply funnelAcyclic_modify
          | repeat apply is_Some_lookup_modify; by exists ptr
          | rewrite Hs ] end;
      eexists; (split; [reflexivity|]); apply Hfin;
      eexists _, _; (split; [wlook|]); wsimpl; (split; [done|]);
      (split; [wlook|]); wsimpl; ssimpl; done.
  - destruct (TrackerState.isAd _);
      [destruct (parentTracker ptr) as [q|] eqn:Hq;
         [destruct (decide (q = p)) as [->|Hqp];
            [|destruct (decide (q = c)) as [->|Hqc]]|]|];
      wunfold;
      match goal with |- context [Tracker.send fuel p ?e ?b ?w0] =>
        destruct (Hsend e b w0) as (l & Hs);
          [ by repeat apply funnelAcyclic_modify
          | repeat apply is_Some_lookup_modify; by exists ptr
          | rewrite Hs ] end;
      eexists; (split; [reflexivity|]); apply Hfin;
      eexists _, _; (split; [wlook|]); wsimpl; (split; [done|]);
      (split; [wlook|]); wsimpl; ssimpl; done.
Qed.

Lemma ad_position_follows_parent_start_witness :
  getAdPosition 1%nat demoWorld = Some (JStr "mid").
Proof.
  destruct (ad_position_follows_parent_start (λ r, r) 3 1%nat 0%nat None
              demoWorld
              (default (newTracker 0) (trackers demoWorld !! 1%nat))
              (default (newTracker 0) (trackers demoWorld !! 0%nat)))
    as [H _].
  - vm_compute. reflexivity.
  - reflexivity.
  - vm_compute. reflexivity.
  - exact H.
Defined.

(** ** Custom events *)

(** X22.  [sendCustom] is not guarded.  In any state it returns (given
    acyclic funnels and enough fuel) and delivers one event for the tracker
    under the action name it was given, with the attributes of the caller
    or an empty bag; the phase of the view is what it was, nothing is
    logged, and the stopwatch named by the second argument is restarted
    after the event has gone out, so that it reads 0 when the call
    returns. *)
Theorem sendCustom_is_unguarded (rank : ref → nat) (fuel : nat) (t : ref)
    (actionName timeSinceAttName : string) (att : option Bag) (w : World)
    (tr : VideoTracker) :
  funnelAcyclic rank w → trackers w !! t = Some tr → (rank t < fuel)%nat →
  ∃ w' tr' l,
    sendCustom fuel t actionName timeSinceAttName att w = Some w'
    ∧ sink w' = sink w ++ (t, actionName, Some (or_empty att)) :: l
    ∧ Forall (λ d : Delivery, d.1.1 ≠ t) l
    ∧ log w' = log w
    ∧ trackers w' !! t = Some tr'
    ∧ phase (state tr') = phase (state tr)
    ∧ deltaTime timeSinceAttName t w' = Some (JNum 0).
Proof.
  intros Hac Htr Hf. unfold sendCustom.
  destruct (send_returns rank fuel t actionName (Some (or_empty att)) w)
    as (l & Hs & Hl); [done | by exists tr | done |].
  rewrite Hs. cbn [mbind option_bind].
  eexists _, _, l. split; [reflexivity|]. split; [by wrew|]. split.
  { eapply Forall_impl; [exact Hl|]. intros d (Hd & _) Heq.
    rewrite Heq in Hd. lia. }
  split; [done|]. split; [wunfold; wlook|]. wsimpl. split; [done|].
  unfold deltaTime. wunfold. wlookup. wsimpl.
  unfold TrackerState.setTimeSinceAttribute, TrackerState.chrono. ssimpl.
  rewrite lookup_insert_eq. wsimpl.
  unfold Chrono.getDeltaTime, Chrono.elapsed, Chrono.mark.
  wrew. cbn [id Chrono.markedAt]. do 2 f_equal. lia.
Qed.

Lemma sendCustom_is_unguarded_witness :
  ∃ w' l,
    sendCustom 3 0%nat "BOOKMARK" "timeSinceBookmark" None freshWorld = Some w'
    ∧ sink w' = sink freshWorld ++ (0%nat, "BOOKMARK", Some ∅) :: l
    ∧ deltaTime "timeSinceBookmark" 0%nat w' = Some (JNum 0).
Proof.
  destruct (sendCustom_is_unguarded (λ r, r) 3 0%nat "BOOKMARK"
              "timeSinceBookmark" None freshWorld (newTracker 0))
    as (w' & tr' & l & H1 & H2 & _ & _ & _ & _ & H7).
  - exact freshWorld_acyclic.
  - reflexivity.
  - lia.
  - exists w', l. exact (conj H1 (conj H2 H7)).
Defined.

(** ** Duplicated calls *)

Ltac unfold_guards :=
  unfold TrackerState.goPlayerReady, TrackerState.goRequest,
    TrackerState.goStart, TrackerState.goEnd, TrackerState.goPause,
    TrackerState.goResume, TrackerState.goBufferStart,
    TrackerState.goBufferEnd, TrackerState.goSeekStart,
    TrackerState.goSeekEnd, TrackerState.goAdBreakStart,
    TrackerState.goAdBreakEnd, TrackerState.isRequested, TrackerState.isAd,
    TrackerState.enter, TrackerState.goViewCountUp in *.

Lemma guard_reads_view (c : Call) (t : ref)
    (g : Z → TrackerState → bool * TrackerState) (n1 n2 : Z)
    (s1 s2 : TrackerState) :
  guardOf c = Some (t, g) → guardView s1 = guardView s2 →
  (g n1 s1).1 = (g n2 s2).1.
Proof.
  destruct s1 as [ad1 p1 bR1 sR1 st1 pl1 ab1 ib1 tp1 ta1 vs1 vc1 na1 ca1 ch1].
  destruct s2 as [ad2 p2 bR2 sR2 st2 pl2 ab2 ib2 tp2 ta2 vs2 vc2 na2 ca2 ch2].
  unfold guardView. cbn [phase isStarted isAdBreak st_isAd].
  intros Hg [= -> -> -> ->].
  destruct c; cbn [guardOf] in Hg; try discriminate; injection Hg as <- <-;
    unfold_guards; cbn [phase isStarted isAdBreak st_isAd];
    by destruct p2, st2, ab2, ad2.
Qed.

Lemma guard_twice (c : Call) (t : ref)
    (g : Z → TrackerState → bool * TrackerState) (n n' : Z) (s : TrackerState) :
  guardOf c = Some (t, g) → returnsOk s = true → (g n s).1 = true →
  (g n' (g n s).2).1 = false.
Proof.
  destruct s as [ad p bR sR st pl ab ib tp ta vs vc na ca ch].
  unfold returnsOk. cbn [bufferReturn seekReturn].
  intros Hg Hok.
  destruct c; cbn [guardOf] in Hg; try discriminate; injection Hg as <- <-;
    unfold_guards; cbn [phase isStarted isAdBreak st_isAd bufferReturn seekReturn];
    destruct p, st, ab, ad; cbn; try done;
    destruct bR; try done; destruct sR; done.
Qed.

Lemma returnsOk_op (op : StateOp) (n : Z) (s : TrackerState) :
  returnsOk s = true → returnsOk (runOp op n s) = true.
Proof.
  destruct s as [ad p bR sR st pl ab ib tp ta vs vc na ca ch].
  unfold returnsOk. cbn [bufferReturn seekReturn]. intros Hok.
  destruct op; cbn [runOp]; unfold_guards; unfold TrackerState.goHeartbeat;
    cbn [phase isStarted isAdBreak st_isAd bufferReturn seekReturn];
    try exact Hok;
    destruct p; cbn; try exact Hok; try (by destruct st); try (by destruct ab);
    by destruct bR, sR.
Qed.

Ltac emit_full :=
  match goal with Hl : Forall _ ?l |- _ =>
    eexists _, _, l, _; split; [reflexivity|]; split; [wrew; reflexivity|];
    split;
      [ eapply Forall_impl; [exact Hl|];
        let d := fresh "d" in let Hd := fresh "Hd" in let Heq := fresh "Heq" in
        intros d (Hd & _) Heq; rewrite Heq in Hd; lia |];
    split; [wunfold; wlook|];
    wsimpl; unfold guardView, TrackerState.goHeartbeat,
      TrackerState.goViewCountUp;
    repeat match goal with |- context [if ?b then _ else _] => destruct b end;
    ssimpl; reflexivity
  end.

(** What a call that the state machine accepts does: it delivers its event,
    and it leaves of the state what the guards read as the transition left
    it. *)
Lemma accepted_call_effect (rank : ref → nat) (fuel : nat) (c : Call) (t : ref)
    (g : Z → TrackerState → bool * TrackerState) (w : World) (tr : VideoTracker) :
  funnelAcyclic rank w → guardOf c = Some (t, g) → trackers w !! t = Some tr →
  (rank t < fuel)%nat → (g (now w) (state tr)).1 = true →
  ∃ w' bag l tr',
    step fuel c w = Some w'
    ∧ sink w' = sink w ++ (t, eventNameOf c (TrackerState.isAd (state tr)), bag) :: l
    ∧ Forall (λ d : Delivery, d.1.1 ≠ t) l
    ∧ trackers w' !! t = Some tr'
    ∧ guardView (state tr') = guardView (g (now w) (state tr)).2.
Proof.
  intros Hac Hg Htr Hf Hacc.
  pose proof (guard_isAd c t g (now w) (state tr) Hg) as Had.
  unfold TrackerState.isAd.
  destruct c; cbn [guardOf] in Hg; try discriminate; injection Hg as <- <-;
    cbn [step eventNameOf].
  - (* sendPlayerReady *)
    unfold sendPlayerReady. rewrite (go_Some _ _ w tr Htr), Hacc. wsimpl.
    wunfold. emit_send rank tr. emit_full.
  - (* sendRequest *)
    unfold sendRequest, isAd. rewrite (go_Some _ _ w tr Htr), Hacc. wsimpl.
    wunfold. wlookup. wsimpl. unfold TrackerState.isAd. rewrite Had.
    emit_send rank tr. wsimpl. unfold go. wlookup. wsimpl. emit_full.
  - (* sendStart *)
    unfold sendStart. rewrite (go_Some _ _ w tr Htr), Hacc. wsimpl.
    wunfold. wlookup. wsimpl. unfold TrackerState.isAd. rewrite Had.
    unfold setParentIsPlaying. wsimpl.
    destruct (st_isAd (state tr)); [destruct (parentTracker tr)|];
      wunfold; emit_send rank tr; emit_full.
  - (* sendEnd *)
    unfold sendEnd. rewrite (go_Some _ _ w tr Htr), Hacc. wsimpl.
    unfold deltaTime. wunfold. wrew. rewrite Htr. wsimpl.
    unfold TrackerState.isAd. rewrite Had. unfold setParentIsPlaying. wsimpl.
    destruct (st_isAd (state tr)) eqn:E;
      (destruct (parentTracker tr) as [p|] eqn:Hp;
         [destruct (decide (p = t0)) as [->|Hne]|]);
      wunfold; emit_send rank tr; wsimpl; repeat wlookup; wsimpl; ssimpl;
      rewrite ?Hp; unfold TrackerState.isAd; ssimpl; rewrite ?Had, ?E;
      emit_full.
  - (* sendPause *)
    unfold sendPause, isAd. rewrite (go_Some _ _ w tr Htr), Hacc. wsimpl.
    wunfold. wlookup. wsimpl. unfold TrackerState.isAd. rewrite Had.
    emit_send rank tr. emit_full.
  - (* sendResume *)
    unfold sendResume, isAd, deltaTime.
    rewrite (go_Some _ _ w tr Htr), Hacc. wsimpl.
    wunfold. repeat wlookup. wsimpl.
    unfold TrackerState.isAd. rewrite Had.
    destruct (st_isAd (state tr)); emit_send rank tr; emit_full.
  - (* sendBufferStart *)
    unfold sendBufferStart, isAd. rewrite (go_Some _ _ w tr Htr), Hacc. wsimpl.
    wunfold. wlookup. wsimpl. unfold TrackerState.isAd. rewrite Had.
    match goal with |- context [buildBufferAttributes ?t ?a ?w0] =>
      destruct (buildBufferAttributes_returns t a w0) as [bag Hb];
        [repeat apply is_Some_lookup_modify; by exists tr|]; rewrite Hb end.
    wsimpl. emit_send rank tr. emit_full.
  - (* sendBufferEnd *)
    unfold sendBufferEnd, isAd. rewrite (go_Some _ _ w tr Htr), Hacc. wsimpl.
    wunfold. wlookup. wsimpl. unfold deltaTime. wlookup. wsimpl.
    unfold TrackerState.isAd. rewrite Had.
    destruct (st_isAd (state tr));
      (match goal with |- context [buildBufferAttributes ?t ?a ?w0] =>
         destruct (buildBufferAttributes_returns t a w0) as [bag Hb];
           [repeat apply is_Some_lookup_modify; by exists tr|]; rewrite Hb end;
       wsimpl; emit_send rank tr; wsimpl; emit_full).
  - (* sendSeekStart *)
    unfold sendSeekStart, isAd. rewrite (go_Some _ _ w tr Htr), Hacc. wsimpl.
    wunfold. wlookup. wsimpl. unfold TrackerState.isAd. rewrite Had.
    emit_send rank tr. emit_full.
  - (* sendSeekEnd *)
    unfold sendSeekEnd, isAd, deltaTime.
    rewrite (go_Some _ _ w tr Htr), Hacc. wsimpl.
    wunfold. repeat wlookup. wsimpl.
    unfold TrackerState.isAd. rewrite Had.
    destruct (st_isAd (state tr)); emit_send rank tr; emit_full.
  - (* sendAdBreakStart *)
    unfold sendAdBreakStart, isAd. rewrite Htr. cbn [mbind option_bind].
    unfold TrackerState.isAd in *.
    destruct (st_isAd (state tr)) eqn:E; [|discriminate Hacc].
    rewrite (go_Some _ _ w tr Htr), Hacc. wsimpl. wunfold. wlookup. wsimpl.
    unfold setParentIsPlaying. wsimpl.
    destruct (parentTracker tr); wunfold; emit_send rank tr; emit_full.
  - (* sendAdBreakEnd *)
    unfold sendAdBreakEnd, isAd. rewrite Htr. cbn [mbind option_bind].
    unfold TrackerState.isAd in *.
    destruct (st_isAd (state tr)) eqn:E; [|discriminate Hacc].
    rewrite (go_Some _ _ w tr Htr), Hacc. wsimpl.
    unfold deltaTime. wunfold. wlookup. wsimpl.
    emit_send rank tr. wsimpl. wlookup. wsimpl.
    unfold setParentIsPlaying. wsimpl.
    destruct (parentTracker tr) as [p|] eqn:Hp;
      [destruct (decide (p = t0)) as [->|Hne]|];
      wunfold; repeat wlookup; wsimpl; ssimpl; rewrite ?Hp;
      unfold TrackerState.isAd; ssimpl; rewrite ?Had, ?E; emit_full.
Qed.

Lemma rejected_step (fuel : nat) (c : Call) (t : ref)
    (g : Z → TrackerState → bool * TrackerState) (w : World) (tr : VideoTracker) :
  guardOf c = Some (t, g) → trackers w !! t = Some tr →
  (g (now w) (state tr)).1 = false →
  step fuel c w = Some w.
Proof.
  intros Hg Htr Hrej. pose proof (guard_rejected c t g _ _ Hg Hrej) as Hs.
  destruct c; cbn [guardOf] in Hg; try discriminate; injection Hg as <- <-;
    cbn [step];
    unfold sendPlayerReady, sendRequest, sendStart, sendEnd, sendPause,
      sendResume, sendBufferStart, sendBufferEnd, sendSeekStart, sendSeekEnd,
      sendAdBreakStart, sendAdBreakEnd, isAd;
    rewrite ?Htr; cbn [mbind option_bind];
    try (by rewrite (go_rejected _ _ w tr Htr Hs)).
  all: destruct (TrackerState.isAd (state tr)); [|done].
  all: by rewrite (go_rejected _ _ w tr Htr Hs).
Qed.

Lemma guardOf_withAtt (att : option Bag) (c : Call) :
  guardOf (withAtt att c) = guardOf c.
Proof. by destruct c. Qed.

Lemma run_ticks (fuel : nat) (ds : list N) :
  ∀ w w', run fuel (Tick <$> ds) w = Some w' → trackers w' = trackers w.
Proof.
  induction ds as [|d ds IH]; intros w w' Hr; cbn in Hr.
  - by injection Hr as <-.
  - by apply IH in Hr.
Qed.

(** Every call sequence keeps the phases to return to apart from the
    phases that return to them. *)
Lemma run_returnsOk (fuel : nat) (cs : list Call) (w w' : World) :
  run fuel cs w = Some w' →
  map_Forall (λ _ tr, returnsOk (state tr) = true) (trackers w) →
  map_Forall (λ _ tr, returnsOk (state tr) = true) (trackers w').
Proof.
  intros Hr Hw.
  assert (Hs : statesHold (λ _ _ o, ∀ s, o = Some s → returnsOk s = true) w).
  { intros x s Hs. apply fmap_Some in Hs as (tr & Htr & ->).
    by apply (map_Forall_lookup_1 _ _ _ _ Hw Htr). }
  cut (statesHold (λ _ _ o, ∀ s, o = Some s → returnsOk s = true) w').
  { intros Hs' x tr Htr. apply (Hs' x). by rewrite Htr. }
  refine (run_statesHold _ (λ _, True) _ _ _ fuel cs w w' (callOk_True cs) Hr Hs).
  - intros x n d o H. exact H.
  - intros x n _ s [= <-]. reflexivity.
  - intros op x n o _ H s Hs'. apply fmap_Some in Hs' as (s0 & -> & ->).
    by apply returnsOk_op, H.
Qed.

(** X23.  The state machine prevents duplicated events.  When a call of
    the [send*] family has been accepted, the same call made again on the
    same tracker, with whatever attributes and however much later, as long
    as nothing else was called in between, is rejected: it returns and
    changes nothing, so that its event is delivered once. *)
Theorem duplicate_call_is_suppressed (rank : ref → nat) (fuel : nat) (c : Call)
    (t : ref) (g : Z → TrackerState → bool * TrackerState) (w : World)
    (tr : VideoTracker) :
  funnelAcyclic rank w → guardOf c = Some (t, g) → trackers w !! t = Some tr →
  (rank t < fuel)%nat → returnsOk (state tr) = true →
  (g (now w) (state tr)).1 = true →
  ∃ w', step fuel c w = Some w'
        ∧ ∀ (ds : list N) (att' : option Bag) (w'' : World),
            run fuel (Tick <$> ds) w' = Some w'' →
            step fuel (withAtt att' c) w'' = Some w''.
Proof.
  intros Hac Hg Htr Hf Hok Hacc.
  destruct (accepted_call_effect rank fuel c t g w tr Hac Hg Htr Hf Hacc)
    as (w' & bag & l & tr' & Hs & _ & _ & Htr' & Hview).
  exists w'. split; [exact Hs|]. intros ds att' w'' Hticks.
  apply (rejected_step fuel _ t g w'' tr').
  - by rewrite guardOf_withAtt.
  - by rewrite (run_ticks fuel ds w' w'' Hticks).
  - rewrite (guard_reads_view c t g (now w'') (now w) (state tr')
               (g (now w) (state tr)).2 Hg Hview).
    by apply (guard_twice c t g).
Qed.

Lemma duplicate_call_is_suppressed_witness :
  ∃ w', step 3 (CallSendStart 1%nat None) requestedAdWorld = Some w'
        ∧ step 3 (CallSendStart 1%nat (Some ∅)) w' = Some w'.
Proof.
  destruct (duplicate_call_is_suppressed (λ r, r) 3 (CallSendStart 1%nat None)
              1%nat TrackerState.goStart requestedAdWorld
              (default (newTracker 0) (trackers requestedAdWorld !! 1%nat)))
    as (w' & H1 & H2).
  - apply (bool_decide_unpack _). vm_compute. exact I.
  - reflexivity.
  - vm_compute. reflexivity.
  - lia.
  - reflexivity.
  - reflexivity.
  - exists w'. split; [exact H1|]. exact (H2 [] (Some ∅) w' eq_refl).
Defined.
